(** * Gully cricket scoring service: the request handlers of [main.py]

    The service keeps five SQLite tables (matches, innings, batsmen,
    bowlers, balls) and mutates them through HTTP handlers.  This file
    embeds the tables as lists of rows in rowid order, every SQL statement
    as a function on those lists, and every handler as a computation in a
    small state-and-exception monad over the database, statement by
    statement in the order of the source.

    Modelling notes.
    - SQLite's INTEGER is a signed 64-bit integer.  An integer of a
      request body outside that range is refused when it is bound to a
      statement ([OverflowError], see [binding]); this is modelled for
      [runs] and [overs].  The four columns that sum run values
      ([total_runs], [extras], a batsman's [runs], a bowler's
      [runs_given]) are [Num]: an exact integer, or [Inexact] once a sum
      has left the range and SQLite has gone over to floating point.
      Ids, and the tallies that only ever move by one, are [Z]: the
      ids of the rows are rowids, an id given in the path is taken to
      be in the range as they are, and a tally would take 2^63
      deliveries to leave the range.
    - BOOLEAN columns are [bool], nullable TEXT columns are
      [option string].
    - [created_at] (wall-clock time) is left out: no handler reads it
      except the ordering of [list_matches].
    - [get_db] never issues [PRAGMA foreign_keys = ON], so the FOREIGN KEY
      clauses of the schema are not enforced and inserts do not look at
      the referenced table.
    - Every handler path that writes ends with [conn.commit()], and every
      raising path raises before its first write; the state component
      returned by a handler is the database as the connection left it. *)

From Stdlib Require Import ZArith List String Bool Lia Permutation Sorted.
Import ListNotations.
Local Open Scope string_scope.
Local Open Scope Z_scope.

(** ** Integers as SQLite stores them *)

(** The range of an INTEGER: what Python's [sqlite3] accepts as a
    parameter, and what integer arithmetic can return. *)
Definition fits_int64 (z : Z) : bool :=
  (-9223372036854775808 <=? z) && (z <=? 9223372036854775807).

(** A column that sums run values.  [Exact z] is the integer [z].
    [Inexact] stands for a value SQLite computed in floating point (a
    REAL, or an integer rounded from one): its value is not modelled. *)
Inductive Num :=
| Exact (z : Z)
| Inexact.

(** [col + ?]: integer addition, which goes over to floating point when
    the sum leaves the range, and stays there. *)
Definition sql_add (a : Num) (b : Z) : Num :=
  match a with
  | Exact z => if fits_int64 (z + b) then Exact (z + b) else Inexact
  | Inexact => Inexact
  end.

(** ** Tables *)

Module Matches.
Record row := mk
    { id : Z; team1 : string; team2 : string; overs : Z;
      current_inning : Z; status : string; winner : option string }.

Definition set_current_inning (v : Z) (r : row) : row :=
    mk (id r) (team1 r) (team2 r) (overs r) v (status r) (winner r).
Definition set_completed (w : string) (r : row) : row :=
    mk (id r) (team1 r) (team2 r) (overs r) (current_inning r)
       "completed" (Some w).
End Matches.

Module Innings.
Record row := mk
    { id : Z; match_id : Z; inning_number : Z;
      batting_team : string; bowling_team : string;
      total_runs : Num; total_wickets : Z; total_balls : Z; extras : Num }.

Definition add_total_runs (v : Z) (r : row) : row :=
    mk (id r) (match_id r) (inning_number r) (batting_team r)
       (bowling_team r) (sql_add (total_runs r) v) (total_wickets r)
       (total_balls r) (extras r).
Definition add_total_wickets (v : Z) (r : row) : row :=
    mk (id r) (match_id r) (inning_number r) (batting_team r)
       (bowling_team r) (total_runs r) (total_wickets r + v)
       (total_balls r) (extras r).
Definition add_total_balls (v : Z) (r : row) : row :=
    mk (id r) (match_id r) (inning_number r) (batting_team r)
       (bowling_team r) (total_runs r) (total_wickets r)
       (total_balls r + v) (extras r).
Definition add_extras (v : Z) (r : row) : row :=
    mk (id r) (match_id r) (inning_number r) (batting_team r)
       (bowling_team r) (total_runs r) (total_wickets r)
       (total_balls r) (sql_add (extras r) v).
End Innings.

Module Batsmen.
Record row := mk
    { id : Z; inning_id : Z; name : string;
      runs : Num; balls : Z; fours : Z; sixes : Z;
      is_out : bool; out_type : option string; is_striker : bool }.

Definition add_runs (v : Z) (r : row) : row :=
    mk (id r) (inning_id r) (name r) (sql_add (runs r) v) (balls r)
       (fours r) (sixes r) (is_out r) (out_type r) (is_striker r).
Definition add_balls (v : Z) (r : row) : row :=
    mk (id r) (inning_id r) (name r) (runs r) (balls r + v) (fours r)
       (sixes r) (is_out r) (out_type r) (is_striker r).
Definition add_fours (v : Z) (r : row) : row :=
    mk (id r) (inning_id r) (name r) (runs r) (balls r) (fours r + v)
       (sixes r) (is_out r) (out_type r) (is_striker r).
Definition add_sixes (v : Z) (r : row) : row :=
    mk (id r) (inning_id r) (name r) (runs r) (balls r) (fours r)
       (sixes r + v) (is_out r) (out_type r) (is_striker r).
Definition set_out (t : option string) (r : row) : row :=
    mk (id r) (inning_id r) (name r) (runs r) (balls r) (fours r)
       (sixes r) true t (is_striker r).
Definition set_is_striker (v : bool) (r : row) : row :=
    mk (id r) (inning_id r) (name r) (runs r) (balls r) (fours r)
       (sixes r) (is_out r) (out_type r) v.
End Batsmen.

Module Bowlers.
Record row := mk
    { id : Z; inning_id : Z; name : string;
      overs : Z; balls : Z; runs_given : Num; wickets : Z; maidens : Z;
      is_current : bool }.

Definition set_overs (v : Z) (r : row) : row :=
    mk (id r) (inning_id r) (name r) v (balls r) (runs_given r)
       (wickets r) (maidens r) (is_current r).
Definition add_balls (v : Z) (r : row) : row :=
    mk (id r) (inning_id r) (name r) (overs r) (balls r + v)
       (runs_given r) (wickets r) (maidens r) (is_current r).
Definition add_runs_given (v : Z) (r : row) : row :=
    mk (id r) (inning_id r) (name r) (overs r) (balls r)
       (sql_add (runs_given r) v) (wickets r) (maidens r) (is_current r).
Definition add_wickets (v : Z) (r : row) : row :=
    mk (id r) (inning_id r) (name r) (overs r) (balls r) (runs_given r)
       (wickets r + v) (maidens r) (is_current r).
Definition set_is_current (v : bool) (r : row) : row :=
    mk (id r) (inning_id r) (name r) (overs r) (balls r) (runs_given r)
       (wickets r) (maidens r) v.
End Bowlers.

Module Balls.
Record row := mk
    { id : Z; inning_id : Z; over_number : Z; ball_number : Z;
      runs : Z; is_wicket : bool; is_extra : bool;
      extra_type : option string; batsman_id : Z; bowler_id : Z }.
End Balls.

(** The database file [cricket.db]. *)
Record DB := mkDB
  { matches : list Matches.row;
    innings : list Innings.row;
    batsmen : list Batsmen.row;
    bowlers : list Bowlers.row;
    balls   : list Balls.row }.

(** The database right after [init_db] on a fresh file. *)
Definition empty_db : DB := mkDB [] [] [] [] [].

(** ** Request bodies (the pydantic models) *)

Module MatchCreate.
Record t := mk { team1 : string; team2 : string; overs : Z }.
End MatchCreate.

Module BatsmanCreate.
Record t := mk { name : string; is_striker : bool }.
End BatsmanCreate.

Module BowlerCreate.
Record t := mk { name : string }.
End BowlerCreate.

Module BallUpdate.
Record t := mk
    { runs : Z; is_wicket : bool; wicket_type : option string;
      is_extra : bool; extra_type : option string }.
End BallUpdate.

(** ** SQL statements on one table *)

(** [SELECT * FROM t WHERE p] followed by [fetchone()]: the first row in
    rowid order that satisfies [p], or [None]. *)
Definition fetchone {A : Type} (p : A -> bool) (t : list A) : option A :=
  find p t.

(** [UPDATE t SET ... WHERE p]: every row that satisfies [p] is rewritten
    by [f]; the others stay. *)
Definition update {A : Type} (p : A -> bool) (f : A -> A) (t : list A)
  : list A :=
  map (fun r => if p r then f r else r) t.

(** [INTEGER PRIMARY KEY AUTOINCREMENT]: the new rowid is one more than
    the largest rowid of the table (no handler deletes rows). *)
Definition lastrowid (ids : list Z) : Z := 1 + fold_right Z.max 0 ids.

(** [INSERT INTO t ...]: the new row goes last. *)
Definition insert {A : Type} (r : A) (t : list A) : list A := t ++ [r].

(** ** Handlers as state-and-exception computations *)

Inductive Exception :=
| HTTPException (status_code : Z) (detail : string)
| TypeError
| OverflowError.

Inductive Outcome (A : Type) :=
| Returned (a : A)
| Raised (e : Exception).
Arguments Returned {A} a.
Arguments Raised {A} e.

Definition Handler (A : Type) : Type := DB -> DB * Outcome A.

Definition ret {A : Type} (a : A) : Handler A := fun db => (db, Returned a).

Definition bind {A B : Type} (m : Handler A) (k : A -> Handler B)
  : Handler B :=
  fun db =>
    match m db with
    | (db', Returned a) => k a db'
    | (db', Raised e) => (db', Raised e)
    end.

Definition raise {A : Type} (e : Exception) : Handler A :=
  fun db => (db, Raised e).

(** A read of the database. *)
Definition query {A : Type} (q : DB -> A) : Handler A :=
  fun db => (db, Returned (q db)).

(** [c.execute] of a writing statement. *)
Definition execute (stmt : DB -> DB) : Handler unit :=
  fun db => (stmt db, Returned tt).

(** [c.execute] of a writing statement that binds integers of the
    request body: an integer outside the signed 64-bit range raises
    [OverflowError] ("Python int too large to convert to SQLite INTEGER")
    before the statement runs. *)
Definition binding (params : list Z) (stmt : DB -> DB) : Handler unit :=
  if forallb fits_int64 params then execute stmt else raise OverflowError.

(** [if c: stmt]. *)
Definition when (c : bool) (m : Handler unit) : Handler unit :=
  if c then m else ret tt.

Declare Scope handler_scope.
Delimit Scope handler_scope with handler.
Notation "x <- m ;; k" := (bind m (fun x => k))
  (at level 61, m at next level, right associativity) : handler_scope.
Notation "m ;; k" := (bind m (fun _ => k))
  (at level 61, right associativity) : handler_scope.
Local Open Scope handler_scope.

(** Writing statements, one per table. *)
Definition on_matches (f : list Matches.row -> list Matches.row) (db : DB) :=
  mkDB (f (matches db)) (innings db) (batsmen db) (bowlers db) (balls db).
Definition on_innings (f : list Innings.row -> list Innings.row) (db : DB) :=
  mkDB (matches db) (f (innings db)) (batsmen db) (bowlers db) (balls db).
Definition on_batsmen (f : list Batsmen.row -> list Batsmen.row) (db : DB) :=
  mkDB (matches db) (innings db) (f (batsmen db)) (bowlers db) (balls db).
Definition on_bowlers (f : list Bowlers.row -> list Bowlers.row) (db : DB) :=
  mkDB (matches db) (innings db) (batsmen db) (f (bowlers db)) (balls db).
Definition on_balls (f : list Balls.row -> list Balls.row) (db : DB) :=
  mkDB (matches db) (innings db) (batsmen db) (bowlers db) (f (balls db)).

(** The WHERE clauses of the source. *)
Definition match_has_id (k : Z) (r : Matches.row) : bool :=
  Matches.id r =? k.
Definition inning_has_id (k : Z) (r : Innings.row) : bool :=
  Innings.id r =? k.
Definition batsman_has_id (k : Z) (r : Batsmen.row) : bool :=
  Batsmen.id r =? k.
Definition bowler_has_id (k : Z) (r : Bowlers.row) : bool :=
  Bowlers.id r =? k.
Definition batsman_in (i : Z) (r : Batsmen.row) : bool :=
  Batsmen.inning_id r =? i.
Definition bowler_in (i : Z) (r : Bowlers.row) : bool :=
  Bowlers.inning_id r =? i.
(** [inning_id = ? AND is_striker = 1] *)
Definition striker_in (i : Z) (r : Batsmen.row) : bool :=
  (Batsmen.inning_id r =? i) && Batsmen.is_striker r.
(** [inning_id = ? AND is_current = 1] *)
Definition current_in (i : Z) (r : Bowlers.row) : bool :=
  (Bowlers.inning_id r =? i) && Bowlers.is_current r.

(** [extra_type in ['lb', 'b']] on an [Optional[str]]. *)
Definition in_lb_b (extra_type : option string) : bool :=
  match extra_type with
  | Some s => String.eqb s "lb" || String.eqb s "b"
  | None => false
  end.

(** [not ball.is_extra or ball.extra_type in ['lb', 'b']], the test that
    guards the three ball counters of [add_ball]. *)
Definition counts_as_ball (is_extra : bool) (extra_type : option string)
  : bool :=
  negb is_extra || in_lb_b extra_type.

(** ** The handlers *)

(** [POST /api/matches] *)
Definition create_match (m : MatchCreate.t) : Handler (Z * string) :=
  match_id <- query (fun db => lastrowid (map Matches.id (matches db))) ;;
  binding [MatchCreate.overs m] (on_matches (insert
    (Matches.mk match_id (MatchCreate.team1 m) (MatchCreate.team2 m)
       (MatchCreate.overs m) 1 "in_progress" None))) ;;
  inning_rowid <- query (fun db => lastrowid (map Innings.id (innings db))) ;;
  execute (on_innings (insert
    (Innings.mk inning_rowid match_id 1 (MatchCreate.team1 m)
       (MatchCreate.team2 m) (Exact 0) 0 0 (Exact 0)))) ;;
  ret (match_id, "Match created successfully").

(** [POST /api/innings/{inning_id}/batsmen] *)
Definition add_batsman (inning_id : Z) (batsman : BatsmanCreate.t)
  : Handler string :=
  when (BatsmanCreate.is_striker batsman)
    (execute (on_batsmen
       (update (batsman_in inning_id) (Batsmen.set_is_striker false)))) ;;
  rowid <- query (fun db => lastrowid (map Batsmen.id (batsmen db))) ;;
  execute (on_batsmen (insert
    (Batsmen.mk rowid inning_id (BatsmanCreate.name batsman) (Exact 0)
       0 0 0 false None (BatsmanCreate.is_striker batsman)))) ;;
  ret "Batsman added successfully".

(** [POST /api/innings/{inning_id}/bowlers] *)
Definition add_bowler (inning_id : Z) (bowler : BowlerCreate.t)
  : Handler string :=
  execute (on_bowlers
    (update (bowler_in inning_id) (Bowlers.set_is_current false))) ;;
  rowid <- query (fun db => lastrowid (map Bowlers.id (bowlers db))) ;;
  execute (on_bowlers (insert
    (Bowlers.mk rowid inning_id (BowlerCreate.name bowler) 0 0 (Exact 0)
       0 0 true))) ;;
  ret "Bowler added successfully".

(** [POST /api/innings/{inning_id}/balls] *)
Definition add_ball (inning_id : Z) (ball : BallUpdate.t) : Handler string :=
  inning <- query (fun db => fetchone (inning_has_id inning_id) (innings db)) ;;
  striker <- query (fun db => fetchone (striker_in inning_id) (batsmen db)) ;;
  match striker with
  | None => raise (HTTPException 400 "No striker batsman found")
  | Some striker =>
  bowler <- query (fun db => fetchone (current_in inning_id) (bowlers db)) ;;
  match bowler with
  | None => raise (HTTPException 400 "No current bowler found")
  | Some bowler =>
  (* inning['total_balls'] on a missing innings row subscripts None *)
  match inning with
  | None => raise TypeError
  | Some inning =>
  let total_balls := Innings.total_balls inning in
  let over_number := total_balls / 6 in
  let ball_number := total_balls mod 6 in
  rowid <- query (fun db => lastrowid (map Balls.id (balls db))) ;;
  binding [BallUpdate.runs ball] (on_balls (insert
    (Balls.mk rowid inning_id over_number ball_number
       (BallUpdate.runs ball) (BallUpdate.is_wicket ball)
       (BallUpdate.is_extra ball) (BallUpdate.extra_type ball)
       (Batsmen.id striker) (Bowlers.id bowler)))) ;;
  (* batsman stats *)
  when (counts_as_ball (BallUpdate.is_extra ball) (BallUpdate.extra_type ball))
    (execute (on_batsmen
       (update (batsman_has_id (Batsmen.id striker)) (Batsmen.add_balls 1)))) ;;
  when (negb (BallUpdate.is_extra ball))
    (execute (on_batsmen
       (update (batsman_has_id (Batsmen.id striker))
          (Batsmen.add_runs (BallUpdate.runs ball)))) ;;
     if BallUpdate.runs ball =? 4 then
       execute (on_batsmen
         (update (batsman_has_id (Batsmen.id striker)) (Batsmen.add_fours 1)))
     else if BallUpdate.runs ball =? 6 then
       execute (on_batsmen
         (update (batsman_has_id (Batsmen.id striker)) (Batsmen.add_sixes 1)))
     else ret tt) ;;
  (* bowler stats *)
  when (counts_as_ball (BallUpdate.is_extra ball) (BallUpdate.extra_type ball))
    (execute (on_bowlers
       (update (bowler_has_id (Bowlers.id bowler)) (Bowlers.add_balls 1))) ;;
     let new_balls := Bowlers.balls bowler + 1 in
     execute (on_bowlers
       (update (bowler_has_id (Bowlers.id bowler))
          (Bowlers.set_overs (new_balls / 6))))) ;;
  execute (on_bowlers
    (update (bowler_has_id (Bowlers.id bowler))
       (Bowlers.add_runs_given (BallUpdate.runs ball)))) ;;
  when (BallUpdate.is_wicket ball)
    (execute (on_bowlers
       (update (bowler_has_id (Bowlers.id bowler)) (Bowlers.add_wickets 1))) ;;
     execute (on_batsmen
       (update (batsman_has_id (Batsmen.id striker))
          (Batsmen.set_out (BallUpdate.wicket_type ball))))) ;;
  (* inning stats *)
  when (counts_as_ball (BallUpdate.is_extra ball) (BallUpdate.extra_type ball))
    (execute (on_innings
       (update (inning_has_id inning_id) (Innings.add_total_balls 1)))) ;;
  execute (on_innings
    (update (inning_has_id inning_id)
       (Innings.add_total_runs (BallUpdate.runs ball)))) ;;
  when (BallUpdate.is_extra ball)
    (execute (on_innings
       (update (inning_has_id inning_id)
          (Innings.add_extras (BallUpdate.runs ball))))) ;;
  when (BallUpdate.is_wicket ball)
    (execute (on_innings
       (update (inning_has_id inning_id) (Innings.add_total_wickets 1)))) ;;
  ret "Ball recorded successfully"
  end end end.

(** [PUT /api/batsmen/{batsman_id}/striker] *)
Definition toggle_striker (batsman_id : Z) : Handler string :=
  batsman <- query (fun db => fetchone (batsman_has_id batsman_id) (batsmen db)) ;;
  match batsman with
  | None => raise (HTTPException 404 "Batsman not found")
  | Some batsman =>
  execute (on_batsmen
    (update (batsman_in (Batsmen.inning_id batsman))
       (Batsmen.set_is_striker false))) ;;
  execute (on_batsmen
    (update (batsman_has_id batsman_id) (Batsmen.set_is_striker true))) ;;
  ret "Striker updated"
  end.

(** [POST /api/matches/{match_id}/next-inning] *)
Definition next_inning (match_id : Z) : Handler string :=
  m <- query (fun db => fetchone (match_has_id match_id) (matches db)) ;;
  match m with
  | None => raise (HTTPException 404 "Match not found")
  | Some m =>
  if 2 <=? Matches.current_inning m then
    raise (HTTPException 400 "Match already has 2 innings")
  else
  rowid <- query (fun db => lastrowid (map Innings.id (innings db))) ;;
  execute (on_innings (insert
    (Innings.mk rowid match_id 2 (Matches.team2 m) (Matches.team1 m)
       (Exact 0) 0 0 (Exact 0)))) ;;
  execute (on_matches
    (update (match_has_id match_id) (Matches.set_current_inning 2))) ;;
  ret "Second inning started"
  end.

(** [PUT /api/matches/{match_id}/complete] *)
Definition complete_match (match_id : Z) (winner : string) : Handler string :=
  execute (on_matches
    (update (match_has_id match_id) (Matches.set_completed winner))) ;;
  ret "Match completed".

(** ** Sequences of requests *)

(** The writing endpoints of the service. *)
Inductive Request :=
| CreateMatch (m : MatchCreate.t)
| AddBatsman (inning_id : Z) (batsman : BatsmanCreate.t)
| AddBowler (inning_id : Z) (bowler : BowlerCreate.t)
| AddBall (inning_id : Z) (ball : BallUpdate.t)
| ToggleStriker (batsman_id : Z)
| NextInning (match_id : Z)
| CompleteMatch (match_id : Z) (winner : string).

(** The database after one request, whether it returned or raised. *)
Definition handle (r : Request) (db : DB) : DB :=
  match r with
  | CreateMatch m => fst (create_match m db)
  | AddBatsman i b => fst (add_batsman i b db)
  | AddBowler i b => fst (add_bowler i b db)
  | AddBall i b => fst (add_ball i b db)
  | ToggleStriker k => fst (toggle_striker k db)
  | NextInning k => fst (next_inning k db)
  | CompleteMatch k w => fst (complete_match k w db)
  end.

(** The database after a list of requests, served one after the other. *)
Definition serve (rs : list Request) (db : DB) : DB :=
  fold_left (fun d r => handle r d) rs db.

(** ** Reading the state *)

(** The SELECTs of the handlers, as observations of a database. *)
Definition striker_of (inning_id : Z) (db : DB) : option Batsmen.row :=
  fetchone (striker_in inning_id) (batsmen db).
Definition current_bowler_of (inning_id : Z) (db : DB) : option Bowlers.row :=
  fetchone (current_in inning_id) (bowlers db).
Definition inning_of (inning_id : Z) (db : DB) : option Innings.row :=
  fetchone (inning_has_id inning_id) (innings db).
Definition match_of (match_id : Z) (db : DB) : option Matches.row :=
  fetchone (match_has_id match_id) (matches db).
Definition batsman_of (batsman_id : Z) (db : DB) : option Batsmen.row :=
  fetchone (batsman_has_id batsman_id) (batsmen db).

(** The three rows a delivery of innings [inning_id] is charged to: the
    striker, the current bowler and the innings, as [add_ball] selects
    them.  [None] when one of them is missing. *)
Definition charged_rows (inning_id : Z) (db : DB)
  : option (Batsmen.row * Bowlers.row * Innings.row) :=
  match striker_of inning_id db, current_bowler_of inning_id db,
        inning_of inning_id db with
  | Some s, Some w, Some n => Some (s, w, n)
  | _, _, _ => None
  end.

(** The guard of the ball counters on a request body and on a stored
    delivery record. *)
Definition legal_delivery (ball : BallUpdate.t) : bool :=
  counts_as_ball (BallUpdate.is_extra ball) (BallUpdate.extra_type ball).
Definition legal_record (r : Balls.row) : bool :=
  counts_as_ball (Balls.is_extra r) (Balls.extra_type r).

(** A delivery whose run value SQLite can store; any other is refused
    when the delivery record is inserted. *)
Definition accepted (ball : BallUpdate.t) : bool :=
  fits_int64 (BallUpdate.runs ball).

(** The number of deliveries of a list that pass the guard. *)
Definition legal_count (bs : list BallUpdate.t) : Z :=
  Z.of_nat (List.length (filter legal_delivery bs)).

(** The same list as requests on one innings. *)
Definition deliveries (inning_id : Z) (bs : list BallUpdate.t)
  : list Request :=
  map (AddBall inning_id) bs.

(** ** The net effect of one delivery on each row it touches

    [add_ball] issues up to five UPDATEs per table.  The functions below
    compose, per table, the SET clauses in source order. *)

Definition striker_row_after (ball : BallUpdate.t) (r : Batsmen.row)
  : Batsmen.row :=
  let r1 := if legal_delivery ball then Batsmen.add_balls 1 r else r in
  let r2 :=
    if negb (BallUpdate.is_extra ball) then
      let r' := Batsmen.add_runs (BallUpdate.runs ball) r1 in
      if BallUpdate.runs ball =? 4 then Batsmen.add_fours 1 r'
      else if BallUpdate.runs ball =? 6 then Batsmen.add_sixes 1 r'
      else r'
    else r1 in
  if BallUpdate.is_wicket ball
  then Batsmen.set_out (BallUpdate.wicket_type ball) r2 else r2.

Definition bowler_row_after (ball : BallUpdate.t) (fetched_balls : Z)
  (r : Bowlers.row) : Bowlers.row :=
  let r1 :=
    if legal_delivery ball then
      Bowlers.set_overs ((fetched_balls + 1) / 6) (Bowlers.add_balls 1 r)
    else r in
  let r2 := Bowlers.add_runs_given (BallUpdate.runs ball) r1 in
  if BallUpdate.is_wicket ball then Bowlers.add_wickets 1 r2 else r2.

Definition inning_row_after (ball : BallUpdate.t) (r : Innings.row)
  : Innings.row :=
  let r1 := if legal_delivery ball then Innings.add_total_balls 1 r else r in
  let r2 := Innings.add_total_runs (BallUpdate.runs ball) r1 in
  let r3 :=
    if BallUpdate.is_extra ball
    then Innings.add_extras (BallUpdate.runs ball) r2 else r2 in
  if BallUpdate.is_wicket ball then Innings.add_total_wickets 1 r3 else r3.

(** The delivery record [add_ball] inserts. *)
Definition ball_record (db : DB) (inning_id : Z) (ball : BallUpdate.t)
  (striker : Batsmen.row) (bowler : Bowlers.row) (inning : Innings.row)
  : Balls.row :=
  Balls.mk (lastrowid (map Balls.id (balls db))) inning_id
    (Innings.total_balls inning / 6) (Innings.total_balls inning mod 6)
    (BallUpdate.runs ball) (BallUpdate.is_wicket ball)
    (BallUpdate.is_extra ball) (BallUpdate.extra_type ball)
    (Batsmen.id striker) (Bowlers.id bowler).

(** The active selections of an innings. *)
Definition strikers_in (inning_id : Z) (db : DB) : list Batsmen.row :=
  filter (striker_in inning_id) (batsmen db).
Definition current_bowlers_in (inning_id : Z) (db : DB) : list Bowlers.row :=
  filter (current_in inning_id) (bowlers db).

Definition at_most_one_striker (db : DB) : Prop :=
  forall i, (List.length (strikers_in i db) <= 1)%nat.
Definition at_most_one_current (db : DB) : Prop :=
  forall i, (List.length (current_bowlers_in i db) <= 1)%nat.

(** [id INTEGER PRIMARY KEY] on the batsmen table. *)
Definition batsman_ids_unique (db : DB) : Prop :=
  NoDup (map Batsmen.id (batsmen db)).

(** The rows [add_batsman] and [add_bowler] insert. *)
Definition new_batsman (db : DB) (inning_id : Z) (batsman : BatsmanCreate.t)
  : Batsmen.row :=
  Batsmen.mk (lastrowid (map Batsmen.id (batsmen db))) inning_id
    (BatsmanCreate.name batsman) (Exact 0) 0 0 0 false None
    (BatsmanCreate.is_striker batsman).
Definition new_bowler (db : DB) (inning_id : Z) (bowler : BowlerCreate.t)
  : Bowlers.row :=
  Bowlers.mk (lastrowid (map Bowlers.id (bowlers db))) inning_id
    (BowlerCreate.name bowler) 0 0 (Exact 0) 0 0 true.

(** The registry invariant carried by every request. *)
Definition registry_invariant (db : DB) : Prop :=
  batsman_ids_unique db /\ at_most_one_striker db /\ at_most_one_current db.

(** The number of delivery records of innings [inning_id] that satisfy
    [p]. *)
Definition count_for (p : Balls.row -> bool) (inning_id : Z)
  (t : list Balls.row) : Z :=
  Z.of_nat
    (List.length
       (filter (fun r => (Balls.inning_id r =? inning_id) && p r) t)).
Definition delivery_count (p : Balls.row -> bool) (inning_id : Z) (db : DB)
  : Z :=
  count_for p inning_id (balls db).

(** The reading "extra_type is not in {wide, no-ball}", for any two
    strings the client may use for wides and no-balls (the source names
    only ['lb'] and ['b']). *)
Definition outside (wide noball : string) (r : Balls.row) : bool :=
  match Balls.extra_type r with
  | Some t => negb (String.eqb t wide || String.eqb t noball)
  | None => true
  end.

(** Every innings row counts its legal delivery records, and every
    delivery record belongs to an innings row. *)
Definition ledger_invariant (db : DB) : Prop :=
  (forall n, In n (innings db) ->
     Innings.total_balls n = delivery_count legal_record (Innings.id n) db) /\
  (forall r, In r (balls db) ->
     In (Balls.inning_id r) (map Innings.id (innings db))).

(** A match with a striker and a current bowler, ready for play. *)
Definition opening : list Request :=
  [CreateMatch (MatchCreate.mk "A" "B" 20);
   AddBatsman 1 (BatsmanCreate.mk "X" true);
   AddBowler 1 (BowlerCreate.mk "Y")].

(** An extra sent without an [extra_type]. *)
Definition untyped_extra : BallUpdate.t :=
  BallUpdate.mk 1 false None true None.

(** ** A concrete match *)

(** The database after [opening], and the rows a delivery of innings 1 is
    charged to. *)
Definition ready_db : DB := serve opening empty_db.
Definition ready_striker : Batsmen.row :=
  Batsmen.mk 1 1 "X" (Exact 0) 0 0 0 false None true.
Definition ready_bowler : Bowlers.row :=
  Bowlers.mk 1 1 "Y" 0 0 (Exact 0) 0 0 true.
Definition ready_inning : Innings.row :=
  Innings.mk 1 1 1 "A" "B" (Exact 0) 0 0 (Exact 0).

(** A delivery whose run value is 2^63, one more than a signed 64-bit
    integer holds. *)
Definition beyond_int64 : BallUpdate.t :=
  BallUpdate.mk 9223372036854775808 false None false None.

(** A wide and a stroke worth 2^62 + 1 runs each: one fits a signed
    64-bit integer, two of them together do not. *)
Definition half_range_wide : BallUpdate.t :=
  BallUpdate.mk 4611686018427387905 false None true (Some "wide").
Definition half_range_runs : BallUpdate.t :=
  BallUpdate.mk 4611686018427387905 false None false None.

(** Some deliveries. *)
Definition four_runs : BallUpdate.t :=
  BallUpdate.mk 4 false None false None.
Definition wide_one : BallUpdate.t :=
  BallUpdate.mk 1 false None true (Some "wide").
Definition leg_bye_run_out : BallUpdate.t :=
  BallUpdate.mk 1 true (Some "run out") true (Some "lb").

(** [ready_db] with a second batsman, who took the strike. *)
Definition two_batsmen_db : DB :=
  serve (opening ++ [AddBatsman 1 (BatsmanCreate.mk "Z" true)]) empty_db.

(** ** Aggregates and shapes used beyond the delivery recorder *)

(** [SELECT SUM(f) FROM t WHERE p]: the sum of column [f] over the rows
    that satisfy [p]. *)
Definition sum_where {A : Type} (p : A -> bool) (f : A -> Z) (t : list A)
  : Z :=
  fold_right (fun r acc => (if p r then f r else 0) + acc) 0 t.

(** Row ids as AUTOINCREMENT hands them out on a table nothing is deleted
    from: 1, 2, ..., n in rowid order. *)
Definition ids_consecutive (ids : list Z) : Prop :=
  ids = map Z.of_nat (seq 1 (List.length ids)).

Definition primary_keys (db : DB) : Prop :=
  ids_consecutive (map Matches.id (matches db)) /\
  ids_consecutive (map Innings.id (innings db)) /\
  ids_consecutive (map Batsmen.id (batsmen db)) /\
  ids_consecutive (map Bowlers.id (bowlers db)) /\
  ids_consecutive (map Balls.id (balls db)).

(** The rows [create_match] and [next_inning] insert. *)
Definition new_match (db : DB) (m : MatchCreate.t) : Matches.row :=
  Matches.mk (lastrowid (map Matches.id (matches db)))
    (MatchCreate.team1 m) (MatchCreate.team2 m) (MatchCreate.overs m)
    1 "in_progress" None.
Definition first_inning (db : DB) (m : MatchCreate.t) : Innings.row :=
  Innings.mk (lastrowid (map Innings.id (innings db)))
    (lastrowid (map Matches.id (matches db))) 1
    (MatchCreate.team1 m) (MatchCreate.team2 m) (Exact 0) 0 0 (Exact 0).
Definition second_inning (db : DB) (match_id : Z) (m : Matches.row)
  : Innings.row :=
  Innings.mk (lastrowid (map Innings.id (innings db))) match_id 2
    (Matches.team2 m) (Matches.team1 m) (Exact 0) 0 0 (Exact 0).

(** The innings rows of a match, in rowid order, and what identifies an
    innings within its match: its number and the two teams. *)
Definition innings_of_match (match_id : Z) (db : DB) : list Innings.row :=
  filter (fun n => Innings.match_id n =? match_id) (innings db).
Definition inning_card (n : Innings.row) : Z * string * string :=
  (Innings.inning_number n, Innings.batting_team n, Innings.bowling_team n).

(** Every innings belongs to a match, and every match has its first
    innings, or its first and second, with the teams swapped. *)
Definition match_structure (db : DB) : Prop :=
  (forall n, In n (innings db) ->
     In (Innings.match_id n) (map Matches.id (matches db))) /\
  (forall m, In m (matches db) ->
     (Matches.current_inning m = 1 /\
      map inning_card (innings_of_match (Matches.id m) db)
      = [(1, Matches.team1 m, Matches.team2 m)]) \/
     (Matches.current_inning m = 2 /\
      map inning_card (innings_of_match (Matches.id m) db)
      = [(1, Matches.team1 m, Matches.team2 m);
         (2, Matches.team2 m, Matches.team1 m)])).

(** What a delivery record refers to: a batsman, or a bowler, by id,
    together with the innings the row is registered in. *)
Definition batsman_key (b : Batsmen.row) : Z * Z :=
  (Batsmen.id b, Batsmen.inning_id b).
Definition bowler_key (w : Bowlers.row) : Z * Z :=
  (Bowlers.id w, Bowlers.inning_id w).

(** Every delivery record names an innings that exists, and a batsman and
    a bowler registered in that same innings. *)
Definition delivery_refs (db : DB) : Prop :=
  forall r, In r (balls db) ->
    In (Balls.inning_id r) (map Innings.id (innings db)) /\
    In (Balls.batsman_id r, Balls.inning_id r)
       (map batsman_key (batsmen db)) /\
    In (Balls.bowler_id r, Balls.inning_id r)
       (map bowler_key (bowlers db)).

(** The address of every delivery record is the number of legal deliveries
    recorded before it in its innings, split into overs of six. *)
Definition deliveries_addressed (db : DB) : Prop :=
  forall pre r post,
    balls db = (pre ++ r :: post)%list ->
    Balls.over_number r
    = count_for legal_record (Balls.inning_id r) pre / 6 /\
    Balls.ball_number r
    = count_for legal_record (Balls.inning_id r) pre mod 6.

(** [inning_id = ?] on the delivery records. *)
Definition ball_in (i : Z) (r : Balls.row) : bool := Balls.inning_id r =? i.

(** The integer an exact column holds. *)
Definition value (a : Num) : Z :=
  match a with
  | Exact z => z
  | Inexact => 0
  end.

(** No run total of the database has left the integers. *)
Definition runs_exact (db : DB) : Prop :=
  (forall n, In n (innings db) ->
     Innings.total_runs n <> Inexact /\ Innings.extras n <> Inexact) /\
  (forall b, In b (batsmen db) -> Batsmen.runs b <> Inexact) /\
  (forall w, In w (bowlers db) -> Bowlers.runs_given w <> Inexact).

(** The innings totals recomputed from the delivery records: a run total
    that is still exact is the sum over the records. *)
Definition totals_from_records (db : DB) : Prop :=
  forall n, In n (innings db) ->
    (forall t, Innings.total_runs n = Exact t ->
       t = sum_where (ball_in (Innings.id n)) Balls.runs (balls db)) /\
    (forall e, Innings.extras n = Exact e ->
       e = sum_where (fun r => ball_in (Innings.id n) r && Balls.is_extra r)
             Balls.runs (balls db)) /\
    Innings.total_wickets n
    = sum_where (fun r => ball_in (Innings.id n) r && Balls.is_wicket r)
        (fun _ => 1) (balls db).

(** The run totals of an innings are exact, and are the sums over its
    delivery records, when the run values recorded for it are not negative
    and their sum fits a signed 64-bit integer. *)
Definition totals_exact (db : DB) : Prop :=
  forall n, In n (innings db) ->
    (forall r, In r (balls db) ->
       ball_in (Innings.id n) r = true -> 0 <= Balls.runs r) ->
    fits_int64 (sum_where (ball_in (Innings.id n)) Balls.runs (balls db))
    = true ->
    Innings.total_runs n
    = Exact (sum_where (ball_in (Innings.id n)) Balls.runs (balls db)) /\
    Innings.extras n
    = Exact (sum_where
               (fun r => ball_in (Innings.id n) r && Balls.is_extra r)
               Balls.runs (balls db)).

(** The column sums of the batting and of the bowling card of an
    innings: runs and balls of its batsmen; runs given, balls and wickets
    of its bowlers. *)
Definition batting_runs (i : Z) (db : DB) : Z :=
  sum_where (batsman_in i) (fun b => value (Batsmen.runs b)) (batsmen db).
Definition batting_balls (i : Z) (db : DB) : Z :=
  sum_where (batsman_in i) Batsmen.balls (batsmen db).
Definition bowling_runs (i : Z) (db : DB) : Z :=
  sum_where (bowler_in i) (fun w => value (Bowlers.runs_given w))
    (bowlers db).
Definition bowling_tallies (i : Z) (db : DB) : Z * Z :=
  (sum_where (bowler_in i) Bowlers.balls (bowlers db),
   sum_where (bowler_in i) Bowlers.wickets (bowlers db)).

(** The tallies of the cards add up to the innings totals; participants
    registered under an id no innings has yet have empty cards. *)
Definition tallies_add_up (db : DB) : Prop :=
  (forall n, In n (innings db) ->
     batting_balls (Innings.id n) db = Innings.total_balls n /\
     bowling_tallies (Innings.id n) db
     = (Innings.total_balls n, Innings.total_wickets n)) /\
  (forall i, ~ In i (map Innings.id (innings db)) ->
     batting_balls i db = 0 /\ bowling_tallies i db = (0, 0) /\
     batting_runs i db = 0 /\ bowling_runs i db = 0).

(** The runs of the cards add up to the innings totals, as long as every
    run total is exact. *)
Definition runs_add_up (db : DB) : Prop :=
  runs_exact db ->
  forall n, In n (innings db) ->
    value (Innings.total_runs n)
    = batting_runs (Innings.id n) db + value (Innings.extras n) /\
    value (Innings.total_runs n) = bowling_runs (Innings.id n) db.

(** Equality of tuples of sums, component by component. *)
Ltac tuple_eq :=
  repeat match goal with
         | |- (_, _) = (_, _) => apply f_equal2
         end;
  try reflexivity; try lia.

(** Figures every batsman and bowler row satisfies. *)
Definition figures_sound (db : DB) : Prop :=
  (forall b, In b (batsmen db) ->
     0 <= Batsmen.fours b /\ 0 <= Batsmen.sixes b /\
     Batsmen.fours b + Batsmen.sixes b <= Batsmen.balls b /\
     (Batsmen.is_out b = false -> Batsmen.out_type b = None)) /\
  (forall w, In w (bowlers db) ->
     0 <= Bowlers.balls w /\ 0 <= Bowlers.wickets w /\
     Bowlers.overs w = Bowlers.balls w / 6 /\
     Bowlers.maidens w = 0).

(** Everything the requests keep, together. *)
Definition scorebook (db : DB) : Prop :=
  primary_keys db /\ ledger_invariant db /\ match_structure db /\
  delivery_refs db /\ deliveries_addressed db /\ totals_from_records db /\
  (tallies_add_up db /\ runs_add_up db) /\ figures_sound db.

(** The match of [opening] after a four, a wide and a leg bye on which the
    striker is run out. *)
Definition played : list Request :=
  (opening ++ deliveries 1 [four_runs; wide_one; leg_bye_run_out])%list.

(** ** How rows change as requests are served *)

(** Row [k] of [t] is still row [k] of [t'], related by [R]. *)
Definition rows_evolve {A : Type} (R : A -> A -> Prop) (t t' : list A)
  : Prop :=
  forall k a, nth_error t k = Some a ->
    exists a', nth_error t' k = Some a' /\ R a a'.

Definition match_evolves (m m' : Matches.row) : Prop :=
  Matches.id m' = Matches.id m /\
  Matches.team1 m' = Matches.team1 m /\
  Matches.team2 m' = Matches.team2 m /\
  Matches.overs m' = Matches.overs m /\
  Matches.current_inning m <= Matches.current_inning m' /\
  (Matches.status m = "completed" -> Matches.status m' = "completed").

Definition inning_evolves (n n' : Innings.row) : Prop :=
  Innings.id n' = Innings.id n /\
  Innings.match_id n' = Innings.match_id n /\
  inning_card n' = inning_card n /\
  Innings.total_balls n <= Innings.total_balls n' /\
  Innings.total_wickets n <= Innings.total_wickets n'.

Definition batsman_evolves (b b' : Batsmen.row) : Prop :=
  Batsmen.id b' = Batsmen.id b /\
  Batsmen.inning_id b' = Batsmen.inning_id b /\
  Batsmen.name b' = Batsmen.name b /\
  Batsmen.balls b <= Batsmen.balls b' /\
  Batsmen.fours b <= Batsmen.fours b' /\
  Batsmen.sixes b <= Batsmen.sixes b' /\
  (Batsmen.is_out b = true -> Batsmen.is_out b' = true).

Definition bowler_evolves (w w' : Bowlers.row) : Prop :=
  Bowlers.id w' = Bowlers.id w /\
  Bowlers.inning_id w' = Bowlers.inning_id w /\
  Bowlers.name w' = Bowlers.name w /\
  Bowlers.balls w <= Bowlers.balls w' /\
  Bowlers.wickets w <= Bowlers.wickets w'.

Definition evolves (db db' : DB) : Prop :=
  rows_evolve match_evolves (matches db) (matches db') /\
  rows_evolve inning_evolves (innings db) (innings db') /\
  rows_evolve batsman_evolves (batsmen db) (batsmen db') /\
  rows_evolve bowler_evolves (bowlers db) (bowlers db') /\
  rows_evolve eq (balls db) (balls db').

(** ** Reading a match back: [GET /api/matches/{match_id}] *)

(** The JSON the handler answers: the match row, and per innings the
    innings row with its batsmen, bowlers and delivery records. *)
Module InningView.
Record t := mk
  { inning : Innings.row;
    batsmen : list Batsmen.row;
    bowlers : list Bowlers.row;
    balls : list Balls.row }.
End InningView.

Module MatchView.
Record t := mk { match_row : Matches.row; innings : list InningView.t }.
End MatchView.

(** [for x in l: ...], collecting what each round appends. *)
Fixpoint for_each {A B : Type} (l : list A) (body : A -> Handler B)
  : Handler (list B) :=
  match l with
  | [] => ret []
  | x :: l' =>
      y <- body x ;;
      ys <- for_each l' body ;;
      ret (y :: ys)
  end.

(** The handler.  The two ORDER BY clauses are taken as parameters:
    [order_innings] stands for [ORDER BY inning_number] and [order_balls]
    for [ORDER BY over_number, ball_number]; SQL leaves the order of rows
    with equal keys open, so the theorems assume of them only what they
    use. *)
Definition get_match
  (order_innings : list Innings.row -> list Innings.row)
  (order_balls : list Balls.row -> list Balls.row)
  (match_id : Z) : Handler MatchView.t :=
  m <- query (fun db => fetchone (match_has_id match_id) (matches db)) ;;
  match m with
  | None => raise (HTTPException 404 "Match not found")
  | Some m =>
  inns <- query (fun db =>
            order_innings
              (filter (fun n => Innings.match_id n =? match_id)
                 (innings db))) ;;
  views <- for_each inns (fun inning =>
    bats <- query (fun db =>
              filter (batsman_in (Innings.id inning)) (batsmen db)) ;;
    bowls <- query (fun db =>
               filter (bowler_in (Innings.id inning)) (bowlers db)) ;;
    deliv <- query (fun db =>
               order_balls
                 (filter (ball_in (Innings.id inning)) (balls db))) ;;
    ret (InningView.mk inning bats bowls deliv)) ;;
  ret (MatchView.mk m views)
  end.

(** The view of one innings, as the loop of [get_match] builds it. *)
Definition inning_view (order_balls : list Balls.row -> list Balls.row)
  (db : DB) (inning : Innings.row) : InningView.t :=
  InningView.mk inning
    (filter (batsman_in (Innings.id inning)) (batsmen db))
    (filter (bowler_in (Innings.id inning)) (bowlers db))
    (order_balls (filter (ball_in (Innings.id inning)) (balls db))).

(** The sum of a column over a list of rows. *)
Definition sum_all {A : Type} (f : A -> Z) (l : list A) : Z :=
  sum_where (fun _ => true) f l.

(** An ORDER BY for the examples: insertion sort by a boolean order, rows
    with equal keys in rowid order. *)
Fixpoint insert_sorted {A : Type} (leb : A -> A -> bool) (x : A)
  (l : list A) : list A :=
  match l with
  | [] => [x]
  | y :: l' => if leb x y then x :: l else y :: insert_sorted leb x l'
  end.
Definition order_by {A : Type} (leb : A -> A -> bool) (l : list A)
  : list A :=
  fold_right (insert_sorted leb) [] l.

Definition by_inning_number (a b : Innings.row) : bool :=
  Innings.inning_number a <=? Innings.inning_number b.
Definition by_over_and_ball (a b : Balls.row) : bool :=
  (Balls.over_number a <? Balls.over_number b)
  || ((Balls.over_number a =? Balls.over_number b)
      && (Balls.ball_number a <=? Balls.ball_number b)).

(** The rows of the database after [played]. *)
Definition played_match : Matches.row :=
  Matches.mk 1 "A" "B" 20 1 "in_progress" None.
Definition played_inning : Innings.row :=
  Innings.mk 1 1 1 "A" "B" (Exact 6) 1 2 (Exact 2).
Definition played_batsman : Batsmen.row :=
  Batsmen.mk 1 1 "X" (Exact 4) 2 1 0 true (Some "run out") true.
Definition played_bowler : Bowlers.row :=
  Bowlers.mk 1 1 "Y" 0 2 (Exact 6) 1 0 true.
Definition played_four : Balls.row :=
  Balls.mk 1 1 0 0 4 false false None 1 1.
Definition played_wide : Balls.row :=
  Balls.mk 2 1 0 1 1 false true (Some "wide") 1 1.
Definition played_leg_bye : Balls.row :=
  Balls.mk 3 1 0 1 1 true true (Some "lb") 1 1.

(** A striker and a bowler registered under innings id 7, which no
    innings has. *)
Definition stray_db : DB :=
  serve [AddBatsman 7 (BatsmanCreate.mk "X" true);
         AddBowler 7 (BowlerCreate.mk "Y")] empty_db.

(** Case analysis on the flags of a delivery, for the column lemmas. *)
Ltac by_cases_on ball :=
  destruct ball as [runs is_wicket wicket_type is_extra extra_type];
  unfold striker_row_after, bowler_row_after, inning_row_after,
    legal_delivery, counts_as_ball;
  cbn [BallUpdate.runs BallUpdate.is_wicket BallUpdate.wicket_type
       BallUpdate.is_extra BallUpdate.extra_type];
  destruct is_extra, (in_lb_b extra_type), is_wicket,
    (runs =? 4) eqn:?, (runs =? 6) eqn:?;
  cbn; try reflexivity; try lia.

(** ** Lemmas on the SQL statements *)

Section Statements.

Context {A : Type}.

Lemma fetchone_update (p w : A -> bool) (f : A -> A) (t : list A) :
  (forall r, p (f r) = p r) ->
  fetchone p (update w f t)
  = option_map (fun r => if w r then f r else r) (fetchone p t).
Proof.
  intros Hp. unfold fetchone, update.
  induction t as [|r t IH]; simpl; [reflexivity|].
  destruct (w r) eqn:E; rewrite ?Hp; destruct (p r); simpl;
    rewrite ?E; auto.
Qed.

Lemma fetchone_none (p : A -> bool) (t : list A) :
  fetchone p t = None <-> filter p t = [].
Proof.
  unfold fetchone. induction t as [|r t IH]; cbn [find filter]; [tauto|].
  destruct (p r); [split; discriminate|exact IH].
Qed.

Lemma fetchone_some_holds (p : A -> bool) (t : list A) (x : A) :
  fetchone p t = Some x -> p x = true.
Proof. unfold fetchone. intros H. apply find_some in H. tauto. Qed.

Lemma update_twice (w : A -> bool) (f g : A -> A) (t : list A) :
  (forall r, w (f r) = w r) ->
  update w g (update w f t) = update w (fun r => g (f r)) t.
Proof.
  intros Hw. unfold update. rewrite map_map. apply map_ext. intros r.
  destruct (w r) eqn:E; [rewrite Hw, E|rewrite E]; reflexivity.
Qed.

Lemma update_noop (w : A -> bool) (t : list A) :
  update w (fun r => r) t = t.
Proof.
  unfold update. rewrite <- (map_id t) at 2. apply map_ext.
  intros r. destruct (w r); reflexivity.
Qed.

Lemma update_In (w : A -> bool) (f : A -> A) (t : list A) (r' : A) :
  In r' (update w f t) ->
  exists r, In r t /\ r' = if w r then f r else r.
Proof.
  unfold update. rewrite in_map_iff. intros [r [E H]]. eauto.
Qed.

Lemma update_keys (key : A -> Z) (w : A -> bool) (f : A -> A)
  (t : list A) :
  (forall r, key (f r) = key r) ->
  map key (update w f t) = map key t.
Proof.
  intros H. unfold update. rewrite map_map. apply map_ext.
  intros r. destruct (w r); auto.
Qed.

Lemma filter_update_same (p w : A -> bool) (f : A -> A)
  (t : list A) :
  (forall r, p (f r) = p r) ->
  filter p (update w f t) = update w f (filter p t).
Proof.
  intros H. unfold update. rewrite filter_map_swap. f_equal.
  apply filter_ext. intros r. destruct (w r); auto.
Qed.

Lemma filter_update_disjoint (p w : A -> bool) (f : A -> A)
  (t : list A) :
  (forall r, w r = true -> p r = false /\ p (f r) = false) ->
  filter p (update w f t) = filter p t.
Proof.
  intros H. unfold update. induction t as [|r t IH]; [reflexivity|].
  cbn [map filter]. rewrite IH. destruct (w r) eqn:E; [|reflexivity].
  destruct (H r E) as [-> ->]. reflexivity.
Qed.

Lemma filter_update_cleared (p w : A -> bool) (f : A -> A)
  (t : list A) :
  (forall r, p (if w r then f r else r) = false) ->
  filter p (update w f t) = [].
Proof.
  intros H. unfold update. induction t as [|r t IH]; [reflexivity|].
  cbn [map filter]. now rewrite H, IH.
Qed.

(** Under a unique key the row [fetchone] finds is the only one with it. *)
Lemma fetchone_unique (key : A -> Z) (k : Z) (t : list A) (b : A) :
  NoDup (map key t) ->
  fetchone (fun r => key r =? k) t = Some b ->
  forall r, In r t -> key r = k -> r = b.
Proof.
  unfold fetchone. induction t as [|a t IH]; cbn [map find In]; [discriminate|].
  intros Hnd Hf r Hin Hk. inversion Hnd as [|? ? Hnotin Hnd']; subst.
  destruct (key a =? key r) eqn:E.
  - injection Hf as <-. destruct Hin as [->|Hin]; [reflexivity|].
    apply Z.eqb_eq in E. exfalso. apply Hnotin. rewrite E. now apply in_map.
  - destruct Hin as [->|Hin]; [rewrite Z.eqb_refl in E; discriminate|].
    now apply IH.
Qed.

Lemma filter_unique (key : A -> Z) (k : Z) (t : list A) (b : A) :
  NoDup (map key t) ->
  fetchone (fun r => key r =? k) t = Some b ->
  filter (fun r => key r =? k) t = [b].
Proof.
  unfold fetchone. induction t as [|a t IH]; cbn [map find filter]; [discriminate|].
  intros Hnd Hf. inversion Hnd as [|? ? Hnotin Hnd']; subst.
  destruct (key a =? k) eqn:E.
  - injection Hf as <-. f_equal. apply Z.eqb_eq in E.
    destruct (filter (fun r => key r =? k) t) as [|r rest] eqn:Ef; [reflexivity|].
    exfalso. apply Hnotin.
    assert (Hr : In r (filter (fun r => key r =? k) t)) by (rewrite Ef; now left).
    apply filter_In in Hr. destruct Hr as [Hr Hk]. apply Z.eqb_eq in Hk.
    rewrite E, <- Hk. now apply in_map.
  - now apply IH.
Qed.

End Statements.

(** ** What a successful [add_ball] leaves behind *)

Lemma add_ball_returns db i ball s w n :
  striker_of i db = Some s ->
  current_bowler_of i db = Some w ->
  inning_of i db = Some n ->
  accepted ball = true ->
  add_ball i ball db
  = (mkDB (matches db)
       (update (inning_has_id i) (inning_row_after ball) (innings db))
       (update (batsman_has_id (Batsmen.id s)) (striker_row_after ball)
          (batsmen db))
       (update (bowler_has_id (Bowlers.id w))
          (bowler_row_after ball (Bowlers.balls w)) (bowlers db))
       (insert (ball_record db i ball s w n) (balls db)),
     Returned "Ball recorded successfully").
Proof.
  unfold striker_of, current_bowler_of, inning_of, accepted.
  intros Hs Hw Hn Hacc.
  cbv beta iota delta [add_ball bind query binding forallb].
  rewrite Hn, Hs. cbv beta iota. rewrite Hw. cbv beta iota.
  rewrite Hacc. cbv beta iota delta [andb]. clear Hacc.
  destruct ball as [runs is_wicket wicket_type is_extra extra_type].
  unfold striker_row_after, bowler_row_after, inning_row_after, ball_record,
    legal_delivery, counts_as_ball.
  cbn [BallUpdate.runs BallUpdate.is_wicket BallUpdate.wicket_type
       BallUpdate.is_extra BallUpdate.extra_type].
  destruct is_extra, (in_lb_b extra_type), is_wicket,
    (runs =? 4), (runs =? 6);
    cbv beta iota zeta delta
      [bind execute when ret negb orb on_matches on_innings on_batsmen
       on_bowlers on_balls matches innings batsmen bowlers balls];
    repeat (rewrite update_twice by (intros []; reflexivity));
    rewrite ?update_noop; reflexivity.
Qed.

(** The per-row effect never touches the columns the WHERE clauses read. *)
Lemma striker_row_after_key ball r :
  Batsmen.id (striker_row_after ball r) = Batsmen.id r /\
  Batsmen.inning_id (striker_row_after ball r) = Batsmen.inning_id r /\
  Batsmen.is_striker (striker_row_after ball r) = Batsmen.is_striker r.
Proof.
  unfold striker_row_after.
  destruct (legal_delivery ball), (negb (BallUpdate.is_extra ball)),
    (BallUpdate.runs ball =? 4), (BallUpdate.runs ball =? 6),
    (BallUpdate.is_wicket ball); repeat split.
Qed.

Lemma bowler_row_after_key ball b r :
  Bowlers.id (bowler_row_after ball b r) = Bowlers.id r /\
  Bowlers.inning_id (bowler_row_after ball b r) = Bowlers.inning_id r /\
  Bowlers.is_current (bowler_row_after ball b r) = Bowlers.is_current r.
Proof.
  unfold bowler_row_after.
  destruct (legal_delivery ball), (BallUpdate.is_wicket ball); repeat split.
Qed.

Lemma inning_row_after_key ball r :
  Innings.id (inning_row_after ball r) = Innings.id r.
Proof.
  unfold inning_row_after.
  destruct (legal_delivery ball), (BallUpdate.is_extra ball),
    (BallUpdate.is_wicket ball); reflexivity.
Qed.

Lemma charged_rows_some i db s w n :
  charged_rows i db = Some (s, w, n) <->
  striker_of i db = Some s /\ current_bowler_of i db = Some w /\
  inning_of i db = Some n.
Proof.
  unfold charged_rows.
  destruct (striker_of i db), (current_bowler_of i db), (inning_of i db);
    split; try discriminate; try (intros (? & ? & ?); discriminate).
  - intros [= -> -> ->]. auto.
  - intros ([= ->] & [= ->] & [= ->]). reflexivity.
Qed.

(** After a successful delivery the same three rows are selected again,
    each rewritten by its net effect. *)
Lemma add_ball_rows_after db i ball s w n :
  charged_rows i db = Some (s, w, n) ->
  accepted ball = true ->
  charged_rows i (handle (AddBall i ball) db)
  = Some (striker_row_after ball s,
          bowler_row_after ball (Bowlers.balls w) w,
          inning_row_after ball n).
Proof.
  intros H Hacc. apply charged_rows_some in H. destruct H as (Hs & Hw & Hn).
  apply charged_rows_some. unfold handle.
  rewrite (add_ball_returns db i ball s w n Hs Hw Hn Hacc).
  unfold striker_of, current_bowler_of, inning_of in *.
  cbn [fst batsmen bowlers innings].
  repeat split.
  - rewrite fetchone_update, Hs.
    + cbn [option_map]. unfold batsman_has_id. now rewrite Z.eqb_refl.
    + intros r. unfold striker_in.
      destruct (striker_row_after_key ball r) as (_ & -> & ->). reflexivity.
  - rewrite fetchone_update, Hw.
    + cbn [option_map]. unfold bowler_has_id. now rewrite Z.eqb_refl.
    + intros r. unfold current_in.
      destruct (bowler_row_after_key ball (Bowlers.balls w) r) as (_ & -> & ->).
      reflexivity.
  - rewrite fetchone_update, Hn.
    + cbn [option_map]. now rewrite (fetchone_some_holds _ _ _ Hn).
    + intros r. unfold inning_has_id. now rewrite inning_row_after_key.
Qed.

Lemma add_ball_returned db i ball s w n :
  charged_rows i db = Some (s, w, n) ->
  accepted ball = true ->
  snd (add_ball i ball db) = Returned "Ball recorded successfully".
Proof.
  intros H Hacc. apply charged_rows_some in H. destruct H as (Hs & Hw & Hn).
  now rewrite (add_ball_returns db i ball s w n Hs Hw Hn Hacc).
Qed.

(** A delivery whose run value does not fit is refused when its record
    is inserted, before anything is written. *)
Lemma add_ball_refused db i ball s w n :
  charged_rows i db = Some (s, w, n) ->
  accepted ball = false ->
  add_ball i ball db = (db, Raised OverflowError).
Proof.
  intros H Hacc. apply charged_rows_some in H. destruct H as (Hs & Hw & Hn).
  unfold striker_of, current_bowler_of, inning_of, accepted in *.
  cbv beta iota delta [add_ball bind query binding forallb raise].
  rewrite Hn, Hs. cbv beta iota. rewrite Hw. cbv beta iota.
  rewrite Hacc. reflexivity.
Qed.

(** A delivery that cannot be charged raises and writes nothing. *)
Lemma add_ball_raises db i ball :
  charged_rows i db = None ->
  exists e, add_ball i ball db = (db, Raised e).
Proof.
  unfold charged_rows, striker_of, current_bowler_of, inning_of.
  cbv beta iota delta [add_ball bind query raise].
  destruct (fetchone (striker_in i) (batsmen db)); [|eauto].
  destruct (fetchone (current_in i) (bowlers db));
    [|destruct (fetchone (inning_has_id i) (innings db)); eauto].
  destruct (fetchone (inning_has_id i) (innings db)); [discriminate|eauto].
Qed.

Lemma add_ball_not_accepted db i ball :
  accepted ball = false -> handle (AddBall i ball) db = db.
Proof.
  intros Hacc. unfold handle.
  destruct (charged_rows i db) as [[[s w] n]|] eqn:E.
  - now rewrite (add_ball_refused db i ball s w n E Hacc).
  - destruct (add_ball_raises db i ball E) as [e ->]. reflexivity.
Qed.

Lemma striker_balls_after ball r :
  Batsmen.balls (striker_row_after ball r)
  = Batsmen.balls r + (if legal_delivery ball then 1 else 0).
Proof. by_cases_on ball. Qed.

Lemma striker_runs_after ball r :
  Batsmen.runs (striker_row_after ball r)
  = if BallUpdate.is_extra ball then Batsmen.runs r
    else sql_add (Batsmen.runs r) (BallUpdate.runs ball).
Proof. by_cases_on ball. Qed.

Lemma striker_fours_after ball r :
  Batsmen.fours (striker_row_after ball r)
  = Batsmen.fours r
    + (if negb (BallUpdate.is_extra ball) && (BallUpdate.runs ball =? 4)
       then 1 else 0).
Proof. by_cases_on ball. Qed.

Lemma striker_sixes_after ball r :
  Batsmen.sixes (striker_row_after ball r)
  = Batsmen.sixes r
    + (if negb (BallUpdate.is_extra ball) && (BallUpdate.runs ball =? 6)
       then 1 else 0).
Proof. by_cases_on ball. Qed.

Lemma striker_out_after ball r :
  BallUpdate.is_wicket ball = true ->
  Batsmen.is_out (striker_row_after ball r) = true /\
  Batsmen.out_type (striker_row_after ball r) = BallUpdate.wicket_type ball.
Proof.
  unfold striker_row_after. intros ->.
  destruct (legal_delivery ball), (negb (BallUpdate.is_extra ball)),
    (BallUpdate.runs ball =? 4), (BallUpdate.runs ball =? 6); split; reflexivity.
Qed.

Lemma bowler_balls_after ball b r :
  Bowlers.balls (bowler_row_after ball b r)
  = Bowlers.balls r + (if legal_delivery ball then 1 else 0).
Proof. by_cases_on ball. Qed.

Lemma bowler_overs_after ball b r :
  Bowlers.overs (bowler_row_after ball b r)
  = if legal_delivery ball then (b + 1) / 6 else Bowlers.overs r.
Proof. by_cases_on ball. Qed.

Lemma bowler_runs_given_after ball b r :
  Bowlers.runs_given (bowler_row_after ball b r)
  = sql_add (Bowlers.runs_given r) (BallUpdate.runs ball).
Proof. by_cases_on ball. Qed.

Lemma bowler_wickets_after ball b r :
  Bowlers.wickets (bowler_row_after ball b r)
  = Bowlers.wickets r + (if BallUpdate.is_wicket ball then 1 else 0).
Proof. by_cases_on ball. Qed.

Lemma inning_total_balls_after ball r :
  Innings.total_balls (inning_row_after ball r)
  = Innings.total_balls r + (if legal_delivery ball then 1 else 0).
Proof. by_cases_on ball. Qed.

Lemma inning_total_runs_after ball r :
  Innings.total_runs (inning_row_after ball r)
  = sql_add (Innings.total_runs r) (BallUpdate.runs ball).
Proof. by_cases_on ball. Qed.

Lemma inning_extras_after ball r :
  Innings.extras (inning_row_after ball r)
  = if BallUpdate.is_extra ball
    then sql_add (Innings.extras r) (BallUpdate.runs ball)
    else Innings.extras r.
Proof. by_cases_on ball. Qed.

Lemma legal_count_cons ball bs :
  legal_count (ball :: bs)
  = (if legal_delivery ball then 1 else 0) + legal_count bs.
Proof.
  unfold legal_count. cbn [filter].
  destruct (legal_delivery ball); cbn [List.length]; lia.
Qed.

Lemma legal_count_nonneg bs : 0 <= legal_count bs.
Proof. unfold legal_count. lia. Qed.

Lemma serve_cons r rs db : serve (r :: rs) db = serve rs (handle r db).
Proof. reflexivity. Qed.

(** A run of deliveries on one innings: the same three rows stay
    selected, their ball counters move by the number of legal deliveries
    among those that were accepted, and the bowler's overs follow the
    bowler's balls. *)
Lemma deliveries_rows_after bs : forall db i s w n,
  charged_rows i db = Some (s, w, n) ->
  exists s' w' n',
    charged_rows i (serve (deliveries i bs) db) = Some (s', w', n') /\
    (Batsmen.id s' = Batsmen.id s /\ Bowlers.id w' = Bowlers.id w /\
     Innings.id n' = Innings.id n) /\
    Batsmen.balls s' = Batsmen.balls s + legal_count (filter accepted bs) /\
    Bowlers.balls w' = Bowlers.balls w + legal_count (filter accepted bs) /\
    Innings.total_balls n'
    = Innings.total_balls n + legal_count (filter accepted bs) /\
    Bowlers.overs w'
    = (if 0 <? legal_count (filter accepted bs)
       then Bowlers.balls w' / 6 else Bowlers.overs w).
Proof.
  induction bs as [|ball bs IH]; intros db i s w n H.
  - exists s, w, n. cbn. repeat split; auto; lia.
  - unfold deliveries. cbn [map filter]. rewrite serve_cons.
    destruct (accepted ball) eqn:Hacc;
      [|rewrite (add_ball_not_accepted db i ball Hacc); exact (IH _ _ _ _ _ H)].
    pose proof (add_ball_rows_after db i ball s w n H Hacc) as H1.
    destruct (IH _ _ _ _ _ H1)
      as (s' & w' & n' & Hrows & (Is & Iw & In') & Hs & Hw & Hn & Ho).
    exists s', w', n'. split; [exact Hrows|].
    destruct (striker_row_after_key ball s) as (Ks & _).
    destruct (bowler_row_after_key ball (Bowlers.balls w) w) as (Kw & _).
    pose proof (inning_row_after_key ball n) as Kn.
    split; [repeat split; congruence|].
    rewrite striker_balls_after in Hs. rewrite bowler_balls_after in Hw.
    rewrite inning_total_balls_after in Hn. rewrite bowler_overs_after in Ho.
    rewrite legal_count_cons.
    pose proof (legal_count_nonneg (filter accepted bs)) as Hk.
    set (k := legal_count (filter accepted bs)) in *.
    destruct (legal_delivery ball); repeat split; try lia.
    + destruct (0 <? k) eqn:E.
      * replace (0 <? 1 + k) with true
          by (symmetry; apply Z.ltb_lt; lia). exact Ho.
      * apply Z.ltb_ge in E.
        replace (0 <? 1 + k) with true
          by (symmetry; apply Z.ltb_lt; lia).
        rewrite Ho. f_equal. lia.
    + cbn [Z.add]. exact Ho.
Qed.

Lemma legal_count_all bs :
  Forall (fun ball => legal_delivery ball = true) bs ->
  legal_count bs = Z.of_nat (List.length bs).
Proof.
  induction 1 as [|ball bs Hb _ IH]; [reflexivity|].
  rewrite legal_count_cons, Hb, IH. cbn [List.length]. lia.
Qed.

Lemma filter_all_accepted bs :
  Forall (fun ball => fits_int64 (BallUpdate.runs ball) = true) bs ->
  filter accepted bs = bs.
Proof.
  induction 1 as [|ball bs Hb _ IH]; [reflexivity|].
  cbn [filter]. unfold accepted at 1. now rewrite Hb, IH.
Qed.

(** * The delivery recorder *)

(** C2. One call of [add_ball] moves the striker's balls faced, the
    current bowler's balls bowled and the innings' total balls under the
    same test: when the delivery cannot be charged, or its run value does
    not fit a signed 64-bit integer (the bind of the INSERT raises
    OverflowError), nothing changes at all; otherwise the call returns and
    the three counters all grow by one (legal delivery) or all stay (wide,
    no-ball or other extra).  Over any run of deliveries on the innings
    the same three rows stay selected and the three counters have grown
    by the same amount, the number of legal deliveries among the accepted
    ones. *)
Theorem add_ball_counters_in_lockstep db i :
  (charged_rows i db = None ->
   forall ball, handle (AddBall i ball) db = db) /\
  (forall s w n, charged_rows i db = Some (s, w, n) ->
     (forall ball, fits_int64 (BallUpdate.runs ball) = false ->
        add_ball i ball db = (db, Raised OverflowError)) /\
     (forall ball, fits_int64 (BallUpdate.runs ball) = true ->
      exists s' w' n',
        snd (add_ball i ball db) = Returned "Ball recorded successfully" /\
        charged_rows i (handle (AddBall i ball) db) = Some (s', w', n') /\
        (Batsmen.id s' = Batsmen.id s /\ Bowlers.id w' = Bowlers.id w /\
         Innings.id n' = Innings.id n) /\
        ((legal_delivery ball = true /\
          Batsmen.balls s' = Batsmen.balls s + 1 /\
          Bowlers.balls w' = Bowlers.balls w + 1 /\
          Innings.total_balls n' = Innings.total_balls n + 1) \/
         (legal_delivery ball = false /\
          Batsmen.balls s' = Batsmen.balls s /\
          Bowlers.balls w' = Bowlers.balls w /\
          Innings.total_balls n' = Innings.total_balls n))) /\
     (forall bs, exists s' w' n',
        charged_rows i (serve (deliveries i bs) db) = Some (s', w', n') /\
        (Batsmen.id s' = Batsmen.id s /\ Bowlers.id w' = Bowlers.id w /\
         Innings.id n' = Innings.id n) /\
        Batsmen.balls s' - Batsmen.balls s
        = legal_count (filter accepted bs) /\
        Bowlers.balls w' - Bowlers.balls w
        = legal_count (filter accepted bs) /\
        Innings.total_balls n' - Innings.total_balls n
        = legal_count (filter accepted bs))).
Proof.
  split.
  - intros H ball. unfold handle.
    destruct (add_ball_raises db i ball H) as [e ->]. reflexivity.
  - intros s w n H. split; [|split].
    + intros ball Hacc. exact (add_ball_refused db i ball s w n H Hacc).
    + intros ball Hacc.
      exists (striker_row_after ball s),
        (bowler_row_after ball (Bowlers.balls w) w), (inning_row_after ball n).
      split; [now apply (add_ball_returned db i ball s w n)|].
      split; [now apply add_ball_rows_after|].
      destruct (striker_row_after_key ball s) as (Ks & _).
      destruct (bowler_row_after_key ball (Bowlers.balls w) w) as (Kw & _).
      split; [repeat split; auto using inning_row_after_key|].
      rewrite striker_balls_after, bowler_balls_after,
        inning_total_balls_after.
      destruct (legal_delivery ball); [left|right]; repeat split; lia.
    + intros bs.
      destruct (deliveries_rows_after bs db i s w n H)
        as (s' & w' & n' & Hrows & Hid & Hs & Hw & Hn & _).
      exists s', w', n'. repeat split; try tauto; lia.
Qed.

(** C3, as the code has it.  A delivery whose run value does not fit a
    signed 64-bit integer is refused with an OverflowError and changes
    nothing.  Any other delivery, when flagged as an extra, leaves the
    striker's runs alone and adds its run value to the innings' extras;
    extra or not, it adds its run value to the bowler's runs given and to
    the innings' total runs.  Each of these sums is the exact integer as
    long as it fits 64 bits in its turn. *)
Theorem add_ball_run_attribution db i ball s w n :
  charged_rows i db = Some (s, w, n) ->
  (fits_int64 (BallUpdate.runs ball) = false ->
   add_ball i ball db = (db, Raised OverflowError)) /\
  (fits_int64 (BallUpdate.runs ball) = true ->
   exists s' w' n',
    charged_rows i (handle (AddBall i ball) db) = Some (s', w', n') /\
    (forall g, Bowlers.runs_given w = Exact g ->
       fits_int64 (g + BallUpdate.runs ball) = true ->
       Bowlers.runs_given w' = Exact (g + BallUpdate.runs ball)) /\
    (forall t, Innings.total_runs n = Exact t ->
       fits_int64 (t + BallUpdate.runs ball) = true ->
       Innings.total_runs n' = Exact (t + BallUpdate.runs ball)) /\
    (BallUpdate.is_extra ball = true ->
     Batsmen.runs s' = Batsmen.runs s /\
     (forall e, Innings.extras n = Exact e ->
        fits_int64 (e + BallUpdate.runs ball) = true ->
        Innings.extras n' = Exact (e + BallUpdate.runs ball)))).
Proof.
  intros H. split; [exact (add_ball_refused db i ball s w n H)|]. intros Hacc.
  exists (striker_row_after ball s),
    (bowler_row_after ball (Bowlers.balls w) w), (inning_row_after ball n).
  split; [now apply add_ball_rows_after|].
  rewrite bowler_runs_given_after, inning_total_runs_after,
    striker_runs_after, inning_extras_after.
  split; [|split].
  - intros g -> Hfit. cbn [sql_add]. now rewrite Hfit.
  - intros t -> Hfit. cbn [sql_add]. now rewrite Hfit.
  - intros ->. split; [reflexivity|].
    intros e -> Hfit. cbn [sql_add]. now rewrite Hfit.
Qed.

(** C4, as the code has it.  A delivery whose run value does not fit a
    signed 64-bit integer is refused with an OverflowError and changes
    nothing.  Any other delivery that is not an extra adds its run value
    to the striker's runs (the exact integer as long as the sum fits 64
    bits), one to the striker's fours exactly when the run value is 4 and
    one to the sixes exactly when it is 6; no delivery of any kind moves
    both the fours and the sixes. *)
Theorem add_ball_striker_runs_and_boundaries db i ball s w n :
  charged_rows i db = Some (s, w, n) ->
  (fits_int64 (BallUpdate.runs ball) = false ->
   add_ball i ball db = (db, Raised OverflowError)) /\
  (fits_int64 (BallUpdate.runs ball) = true ->
   exists s' w' n',
    charged_rows i (handle (AddBall i ball) db) = Some (s', w', n') /\
    (BallUpdate.is_extra ball = false ->
     (forall a, Batsmen.runs s = Exact a ->
        fits_int64 (a + BallUpdate.runs ball) = true ->
        Batsmen.runs s' = Exact (a + BallUpdate.runs ball)) /\
     Batsmen.fours s'
     = Batsmen.fours s + (if BallUpdate.runs ball =? 4 then 1 else 0) /\
     Batsmen.sixes s'
     = Batsmen.sixes s + (if BallUpdate.runs ball =? 6 then 1 else 0)) /\
    ~ (Batsmen.fours s' <> Batsmen.fours s /\
       Batsmen.sixes s' <> Batsmen.sixes s)).
Proof.
  intros H. split; [exact (add_ball_refused db i ball s w n H)|]. intros Hacc.
  exists (striker_row_after ball s),
    (bowler_row_after ball (Bowlers.balls w) w), (inning_row_after ball n).
  split; [now apply add_ball_rows_after|].
  rewrite striker_runs_after, striker_fours_after, striker_sixes_after.
  split.
  - intros ->. cbn [negb andb]. repeat split.
    intros a -> Hfit. cbn [sql_add]. now rewrite Hfit.
  - destruct (negb (BallUpdate.is_extra ball)); cbn [andb]; [|lia].
    destruct (BallUpdate.runs ball =? 4) eqn:E4;
      destruct (BallUpdate.runs ball =? 6) eqn:E6; lia.
Qed.

(** C5. A delivery flagged as a wicket, whose run value fits a signed
    64-bit integer (any other is refused), adds one to the current
    bowler's wickets and marks the striker out with the supplied wicket
    type, whether or not the delivery is an extra. *)
Theorem add_ball_wicket db i ball s w n :
  charged_rows i db = Some (s, w, n) ->
  fits_int64 (BallUpdate.runs ball) = true ->
  BallUpdate.is_wicket ball = true ->
  exists s' w' n',
    charged_rows i (handle (AddBall i ball) db) = Some (s', w', n') /\
    (Batsmen.id s' = Batsmen.id s /\ Bowlers.id w' = Bowlers.id w) /\
    Bowlers.wickets w' = Bowlers.wickets w + 1 /\
    Batsmen.is_out s' = true /\
    Batsmen.out_type s' = BallUpdate.wicket_type ball.
Proof.
  intros H Hacc Hwk.
  exists (striker_row_after ball s),
    (bowler_row_after ball (Bowlers.balls w) w), (inning_row_after ball n).
  split; [now apply add_ball_rows_after|].
  destruct (striker_row_after_key ball s) as (Ks & _).
  destruct (bowler_row_after_key ball (Bowlers.balls w) w) as (Kw & _).
  destruct (striker_out_after ball s Hwk) as (Ho & Ht).
  rewrite bowler_wickets_after, Hwk. repeat split; auto.
Qed.

(** C6. Whenever a delivery adds one to the current bowler's balls (a
    legal delivery whose run value fits a signed 64-bit integer; any
    other run value is refused), the bowler's overs become the new ball
    tally divided by 6, rounded down.  The ball tally is a running count:
    after a run of deliveries it has grown by the number of legal ones
    among those accepted, with the overs still derived from it, so six
    legal deliveries to a bowler who had none give balls = 6 and
    overs = 1. *)
Theorem add_ball_bowler_overs db i s w n :
  charged_rows i db = Some (s, w, n) ->
  (forall ball, legal_delivery ball = true ->
     fits_int64 (BallUpdate.runs ball) = true ->
     exists s' w' n',
       charged_rows i (handle (AddBall i ball) db) = Some (s', w', n') /\
       Bowlers.id w' = Bowlers.id w /\
       Bowlers.balls w' = Bowlers.balls w + 1 /\
       Bowlers.overs w' = Bowlers.balls w' / 6) /\
  (forall bs, 0 < legal_count (filter accepted bs) ->
     exists s' w' n',
       charged_rows i (serve (deliveries i bs) db) = Some (s', w', n') /\
       Bowlers.id w' = Bowlers.id w /\
       Bowlers.balls w'
       = Bowlers.balls w + legal_count (filter accepted bs) /\
       Bowlers.overs w' = Bowlers.balls w' / 6) /\
  (forall bs,
     Forall (fun ball => legal_delivery ball = true) bs ->
     Forall (fun ball => fits_int64 (BallUpdate.runs ball) = true) bs ->
     List.length bs = 6%nat ->
     Bowlers.balls w = 0 ->
     exists s' w' n',
       charged_rows i (serve (deliveries i bs) db) = Some (s', w', n') /\
       Bowlers.id w' = Bowlers.id w /\
       Bowlers.balls w' = 6 /\ Bowlers.overs w' = 1).
Proof.
  intros H. split; [|split].
  - intros ball Hl Hacc.
    exists (striker_row_after ball s),
      (bowler_row_after ball (Bowlers.balls w) w), (inning_row_after ball n).
    split; [now apply add_ball_rows_after|].
    destruct (bowler_row_after_key ball (Bowlers.balls w) w) as (Kw & _).
    rewrite bowler_overs_after, bowler_balls_after, Hl. auto.
  - intros bs Hk.
    destruct (deliveries_rows_after bs db i s w n H)
      as (s' & w' & n' & Hrows & (_ & Hid & _) & _ & Hw & _ & Ho).
    exists s', w', n'. apply Z.ltb_lt in Hk. rewrite Hk in Ho. auto.
  - intros bs Hall Hfit Hlen Hzero.
    destruct (deliveries_rows_after bs db i s w n H)
      as (s' & w' & n' & Hrows & (_ & Hid & _) & _ & Hw & _ & Ho).
    rewrite (filter_all_accepted bs Hfit) in *.
    rewrite (legal_count_all bs Hall), Hlen, Hzero in *.
    exists s', w', n'. cbn in Hw, Ho. rewrite Hw in Ho. auto.
Qed.


(** * Match lifecycle *)

(** C9. On an existing match, [next_inning] raises HTTP 400 and writes
    nothing when [current_inning] is 2 or more; otherwise it returns,
    appends an innings row numbered 2 whose batting team is the match's
    [team2] and whose bowling team is the match's [team1], and sets the
    match's [current_inning] to 2.  ([create_match], when it accepts the
    number of overs, gave innings 1 the teams the other way round.) *)
Theorem next_inning_swaps_teams db match_id m :
  match_of match_id db = Some m ->
  (2 <= Matches.current_inning m ->
   next_inning match_id db
   = (db, Raised (HTTPException 400 "Match already has 2 innings"))) /\
  (Matches.current_inning m < 2 ->
   exists db',
     next_inning match_id db = (db', Returned "Second inning started") /\
     innings db'
     = insert
         (Innings.mk (lastrowid (map Innings.id (innings db))) match_id 2
            (Matches.team2 m) (Matches.team1 m) (Exact 0) 0 0 (Exact 0))
         (innings db) /\
     match_of match_id db' = Some (Matches.set_current_inning 2 m) /\
     Matches.current_inning (Matches.set_current_inning 2 m) = 2) /\
  (forall mc db0,
     fits_int64 (MatchCreate.overs mc) = true ->
     innings (fst (create_match mc db0))
     = insert
         (Innings.mk (lastrowid (map Innings.id (innings db0)))
            (lastrowid (map Matches.id (matches db0))) 1
            (MatchCreate.team1 mc) (MatchCreate.team2 mc)
            (Exact 0) 0 0 (Exact 0))
         (innings db0)).
Proof.
  unfold match_of. intros Hm.
  cbv beta iota delta [next_inning bind query raise].
  rewrite Hm. cbv beta iota. split; [|split].
  - intros H. apply Z.leb_le in H. now rewrite H.
  - intros H. apply Z.leb_gt in H. rewrite H.
    eexists. split; [reflexivity|].
    cbn [innings matches on_matches on_innings insert].
    split; [reflexivity|]. split; [|reflexivity].
    rewrite fetchone_update, Hm.
    + cbn [option_map]. now rewrite (fetchone_some_holds _ _ _ Hm).
    + intros []; reflexivity.
  - intros mc db0 Hfit.
    cbv beta iota delta [create_match bind binding forallb].
    rewrite Hfit. reflexivity.
Qed.

(** * Participant registry *)

(** C10. [add_batsman] and [add_bowler] return for every [inning_id]
    in the range of a 64-bit integer and every database, whether or not
    an innings row with that id exists: the table has one more row, the
    new row is its last row and carries that [inning_id], a fresh id and
    zero figures, the rows that were there keep their ids, the innings
    table is not read or written, and no exception is raised. *)
Theorem add_participant_ignores_innings db inning_id :
  fits_int64 inning_id = true ->
  (forall batsman, exists rows r,
     add_batsman inning_id batsman db
     = (mkDB (matches db) (innings db) (rows ++ [r])%list (bowlers db)
          (balls db),
        Returned "Batsman added successfully") /\
     map Batsmen.id rows = map Batsmen.id (batsmen db) /\
     r = Batsmen.mk (lastrowid (map Batsmen.id (batsmen db))) inning_id
           (BatsmanCreate.name batsman) (Exact 0) 0 0 0 false None
           (BatsmanCreate.is_striker batsman) /\
     In r (batsmen (fst (add_batsman inning_id batsman db))) /\
     List.length (batsmen (fst (add_batsman inning_id batsman db)))
     = S (List.length (batsmen db)) /\
     innings (fst (add_batsman inning_id batsman db)) = innings db) /\
  (forall bowler, exists rows r,
     add_bowler inning_id bowler db
     = (mkDB (matches db) (innings db) (batsmen db) (rows ++ [r])%list
          (balls db),
        Returned "Bowler added successfully") /\
     map Bowlers.id rows = map Bowlers.id (bowlers db) /\
     r = Bowlers.mk (lastrowid (map Bowlers.id (bowlers db))) inning_id
           (BowlerCreate.name bowler) 0 0 (Exact 0) 0 0 true /\
     In r (bowlers (fst (add_bowler inning_id bowler db))) /\
     List.length (bowlers (fst (add_bowler inning_id bowler db)))
     = S (List.length (bowlers db)) /\
     innings (fst (add_bowler inning_id bowler db)) = innings db).
Proof.
  intros _. split.
  - intros [name flag].
    set (rows := if flag
                 then update (batsman_in inning_id)
                        (Batsmen.set_is_striker false) (batsmen db)
                 else batsmen db).
    assert (Hids : map Batsmen.id rows = map Batsmen.id (batsmen db)).
    { subst rows. destruct flag; [|reflexivity].
      apply update_keys. intros []; reflexivity. }
    assert (Hrun : add_batsman inning_id (BatsmanCreate.mk name flag) db
                   = (mkDB (matches db) (innings db)
                        (rows ++ [Batsmen.mk
                                    (lastrowid (map Batsmen.id (batsmen db)))
                                    inning_id name (Exact 0) 0 0 0 false None
                                    flag])%list
                        (bowlers db) (balls db),
                      Returned "Batsman added successfully")).
    { rewrite <- Hids. subst rows. destruct flag; reflexivity. }
    exists rows. eexists. split; [exact Hrun|].
    split; [exact Hids|]. split; [reflexivity|].
    rewrite Hrun. cbn [fst batsmen innings].
    split; [apply in_or_app; right; left; reflexivity|].
    split; [|reflexivity].
    rewrite length_app, <- (length_map Batsmen.id rows), Hids, length_map.
    cbn [List.length]. lia.
  - intros [name].
    set (rows := update (bowler_in inning_id) (Bowlers.set_is_current false)
                   (bowlers db)).
    assert (Hids : map Bowlers.id rows = map Bowlers.id (bowlers db)).
    { subst rows. apply update_keys. intros []; reflexivity. }
    assert (Hrun : add_bowler inning_id (BowlerCreate.mk name) db
                   = (mkDB (matches db) (innings db) (batsmen db)
                        (rows ++ [Bowlers.mk
                                    (lastrowid (map Bowlers.id (bowlers db)))
                                    inning_id name 0 0 (Exact 0) 0 0 true])%list
                        (balls db),
                      Returned "Bowler added successfully")).
    { rewrite <- Hids. subst rows. reflexivity. }
    exists rows. eexists. split; [exact Hrun|].
    split; [exact Hids|]. split; [reflexivity|].
    rewrite Hrun. cbn [fst bowlers innings].
    split; [apply in_or_app; right; left; reflexivity|].
    split; [|reflexivity].
    rewrite length_app, <- (length_map Bowlers.id rows), Hids, length_map.
    cbn [List.length]. lia.
Qed.

Lemma lastrowid_above ids x : In x ids -> x < lastrowid ids.
Proof.
  unfold lastrowid. induction ids as [|a ids IH]; cbn [fold_right In].
  - tauto.
  - intros [->|H]; [lia|]. specialize (IH H). lia.
Qed.

Lemma lastrowid_fresh ids : ~ In (lastrowid ids) ids.
Proof. intros H. apply lastrowid_above in H. lia. Qed.

(** *** The batsmen table after each request *)

Lemma add_batsman_batsmen db i bc :
  batsmen (handle (AddBatsman i bc) db)
  = insert (new_batsman db i bc)
      (if BatsmanCreate.is_striker bc
       then update (batsman_in i) (Batsmen.set_is_striker false) (batsmen db)
       else batsmen db).
Proof.
  destruct bc as [name flag]. unfold new_batsman. destruct flag; cbn.
  - rewrite update_keys by (intros []; reflexivity). reflexivity.
  - reflexivity.
Qed.

Lemma add_batsman_strikers db i bc j :
  strikers_in j (handle (AddBatsman i bc) db)
  = if BatsmanCreate.is_striker bc && (i =? j)
    then [new_batsman db i bc] else strikers_in j db.
Proof.
  unfold strikers_in. rewrite add_batsman_batsmen. unfold insert.
  rewrite filter_app. cbn [filter]. unfold striker_in at 2.
  cbn [Batsmen.inning_id Batsmen.is_striker new_batsman].
  destruct (BatsmanCreate.is_striker bc) eqn:Ef; cbn [andb].
  - destruct (i =? j) eqn:Eij.
    + apply Z.eqb_eq in Eij. subst j.
      rewrite filter_update_cleared; [reflexivity|].
      intros [? inn ? ? ? ? ? ? ? st]. unfold batsman_in, striker_in. cbn.
      destruct (inn =? i) eqn:E; cbn; rewrite ?E; reflexivity.
    + rewrite app_nil_r. apply filter_update_disjoint.
      intros [? inn ? ? ? ? ? ? ? st]. unfold batsman_in, striker_in. cbn.
      intros H. apply Z.eqb_eq in H. subst inn. rewrite Eij. auto.
  - rewrite andb_false_r. apply app_nil_r.
Qed.

Lemma toggle_striker_missing db k :
  batsman_of k db = None -> handle (ToggleStriker k) db = db.
Proof.
  unfold batsman_of, handle. cbv beta iota delta [toggle_striker bind query].
  now intros ->.
Qed.

Lemma toggle_striker_batsmen db k b :
  batsman_of k db = Some b ->
  batsmen (handle (ToggleStriker k) db)
  = update (batsman_has_id k) (Batsmen.set_is_striker true)
      (update (batsman_in (Batsmen.inning_id b))
         (Batsmen.set_is_striker false) (batsmen db)).
Proof.
  unfold batsman_of, handle. cbv beta iota delta [toggle_striker bind query].
  now intros ->.
Qed.

Lemma toggle_striker_strikers db k b j :
  batsman_ids_unique db ->
  batsman_of k db = Some b ->
  strikers_in j (handle (ToggleStriker k) db)
  = if j =? Batsmen.inning_id b
    then [Batsmen.set_is_striker true b] else strikers_in j db.
Proof.
  intros Hnd Hb. unfold strikers_in. rewrite (toggle_striker_batsmen db k b Hb).
  unfold batsman_of, batsman_has_id in Hb.
  pose proof (fetchone_unique Batsmen.id k _ b Hnd Hb) as Huniq.
  pose proof (filter_unique Batsmen.id k _ b Hnd Hb) as Hfilt.
  pose proof (fetchone_some_holds _ _ _ Hb) as Hkb. cbn beta in Hkb.
  set (ib := Batsmen.inning_id b) in *.
  unfold update. rewrite map_map, filter_map_swap.
  destruct (j =? ib) eqn:Ej.
  - apply Z.eqb_eq in Ej. subst j.
    rewrite (filter_ext_in _ (fun r => Batsmen.id r =? k)).
    + rewrite Hfilt. cbn [map]. unfold batsman_in. fold ib.
      rewrite Z.eqb_refl. unfold batsman_has_id.
      cbn [Batsmen.id Batsmen.set_is_striker]. rewrite Hkb. reflexivity.
    + intros r Hin. unfold batsman_in, batsman_has_id, striker_in.
      destruct (Batsmen.id r =? k) eqn:Ek.
      * apply Z.eqb_eq in Ek. rewrite (Huniq r Hin Ek). fold ib.
        rewrite Z.eqb_refl. cbn [Batsmen.id Batsmen.set_is_striker].
        rewrite Hkb. cbn. fold ib. now rewrite Z.eqb_refl.
      * destruct (Batsmen.inning_id r =? ib) eqn:Ei;
          cbn [Batsmen.id Batsmen.set_is_striker]; rewrite Ek; cbn;
          rewrite ?Ei; auto using andb_false_r.
  - rewrite (filter_ext_in _ (striker_in j)).
    + rewrite <- (map_id (filter (striker_in j) (batsmen db))) at 2.
      apply map_ext_in. intros r Hr. apply filter_In in Hr.
      destruct Hr as [Hin Hp]. unfold striker_in in Hp.
      apply andb_true_iff in Hp. destruct Hp as [Hi _].
      apply Z.eqb_eq in Hi. unfold batsman_in, batsman_has_id.
      assert (Ei : (Batsmen.inning_id r =? ib) = false).
      { rewrite Hi. exact Ej. }
      rewrite Ei. destruct (Batsmen.id r =? k) eqn:Ek; [|reflexivity].
      apply Z.eqb_eq in Ek. rewrite (Huniq r Hin Ek) in Ei. unfold ib in Ei.
      rewrite Z.eqb_refl in Ei. discriminate.
    + intros r Hin. unfold batsman_in, batsman_has_id, striker_in.
      destruct (Batsmen.inning_id r =? ib) eqn:Ei.
      * apply Z.eqb_eq in Ei.
        assert (En : (Batsmen.inning_id r =? j) = false).
        { rewrite Ei. rewrite Z.eqb_sym. exact Ej. }
        cbn [Batsmen.id Batsmen.set_is_striker].
        destruct (Batsmen.id r =? k); cbn; rewrite En; reflexivity.
      * destruct (Batsmen.id r =? k) eqn:Ek; [|reflexivity].
        apply Z.eqb_eq in Ek. rewrite (Huniq r Hin Ek) in Ei. unfold ib in Ei.
        rewrite Z.eqb_refl in Ei. discriminate.
Qed.

(** *** The bowlers table after [add_bowler] *)

Lemma add_bowler_bowlers db i bc :
  bowlers (handle (AddBowler i bc) db)
  = insert (new_bowler db i bc)
      (update (bowler_in i) (Bowlers.set_is_current false) (bowlers db)).
Proof.
  destruct bc as [name]. unfold new_bowler. cbn.
  rewrite update_keys by (intros []; reflexivity). reflexivity.
Qed.

Lemma add_bowler_current db i bc j :
  current_bowlers_in j (handle (AddBowler i bc) db)
  = if i =? j then [new_bowler db i bc] else current_bowlers_in j db.
Proof.
  unfold current_bowlers_in. rewrite add_bowler_bowlers. unfold insert.
  rewrite filter_app. cbn [filter]. unfold current_in at 2.
  cbn [Bowlers.inning_id Bowlers.is_current new_bowler].
  destruct (i =? j) eqn:Eij; cbn [andb].
  - apply Z.eqb_eq in Eij. subst j.
    rewrite filter_update_cleared; [reflexivity|].
    intros [? inn ? ? ? ? ? ? cur]. unfold bowler_in, current_in. cbn.
    destruct (inn =? i) eqn:E; cbn; rewrite ?E; reflexivity.
  - rewrite app_nil_r. apply filter_update_disjoint.
    intros [? inn ? ? ? ? ? ? cur]. unfold bowler_in, current_in. cbn.
    intros H. apply Z.eqb_eq in H. subst inn. rewrite Eij. auto.
Qed.

(** *** A delivery keeps the active selections *)

Lemma add_ball_tables db i ball :
  handle (AddBall i ball) db = db \/
  exists s w n,
    charged_rows i db = Some (s, w, n) /\
    handle (AddBall i ball) db
    = mkDB (matches db)
        (update (inning_has_id i) (inning_row_after ball) (innings db))
        (update (batsman_has_id (Batsmen.id s)) (striker_row_after ball)
           (batsmen db))
        (update (bowler_has_id (Bowlers.id w))
           (bowler_row_after ball (Bowlers.balls w)) (bowlers db))
        (insert (ball_record db i ball s w n) (balls db)).
Proof.
  destruct (accepted ball) eqn:Hacc;
    [|left; exact (add_ball_not_accepted db i ball Hacc)].
  destruct (charged_rows i db) as [[[s w] n]|] eqn:E.
  - right. exists s, w, n. split; [reflexivity|].
    apply charged_rows_some in E. destruct E as (Hs & Hw & Hn).
    unfold handle.
    now rewrite (add_ball_returns db i ball s w n Hs Hw Hn Hacc).
  - left. unfold handle. destruct (add_ball_raises db i ball E) as [e ->].
    reflexivity.
Qed.

Lemma add_ball_strikers db i ball j :
  List.length (strikers_in j (handle (AddBall i ball) db))
  = List.length (strikers_in j db).
Proof.
  destruct (add_ball_tables db i ball) as [->|(s & w & n & _ & ->)];
    [reflexivity|].
  unfold strikers_in. cbn [batsmen]. rewrite filter_update_same.
  - unfold update. apply length_map.
  - intros r. unfold striker_in.
    destruct (striker_row_after_key ball r) as (_ & -> & ->). reflexivity.
Qed.

Lemma add_ball_current db i ball j :
  List.length (current_bowlers_in j (handle (AddBall i ball) db))
  = List.length (current_bowlers_in j db).
Proof.
  destruct (add_ball_tables db i ball) as [->|(s & w & n & _ & ->)];
    [reflexivity|].
  unfold current_bowlers_in. cbn [bowlers]. rewrite filter_update_same.
  - unfold update. apply length_map.
  - intros r. unfold current_in.
    destruct (bowler_row_after_key ball (Bowlers.balls w) r) as (_ & -> & ->).
    reflexivity.
Qed.

Lemma add_ball_batsman_ids db i ball :
  map Batsmen.id (batsmen (handle (AddBall i ball) db))
  = map Batsmen.id (batsmen db).
Proof.
  destruct (add_ball_tables db i ball) as [->|(s & w & n & _ & ->)];
    [reflexivity|].
  cbn [batsmen]. apply update_keys. intros r.
  now destruct (striker_row_after_key ball r).
Qed.

Lemma add_batsman_bowlers db i bc :
  bowlers (handle (AddBatsman i bc) db) = bowlers db.
Proof. destruct bc as [name []]; reflexivity. Qed.

(** Requests that leave both participant tables alone. *)
Lemma next_inning_participants db k :
  batsmen (handle (NextInning k) db) = batsmen db /\
  bowlers (handle (NextInning k) db) = bowlers db.
Proof.
  unfold handle. cbv beta iota delta [next_inning bind query raise].
  destruct (fetchone (match_has_id k) (matches db)) as [m|]; [|auto].
  destruct (2 <=? Matches.current_inning m); auto.
Qed.

Lemma create_match_refused db mc :
  fits_int64 (MatchCreate.overs mc) = false ->
  create_match mc db = (db, Raised OverflowError).
Proof.
  intros H. cbv beta iota delta [create_match bind binding forallb raise].
  now rewrite H.
Qed.

Lemma create_match_returns db mc :
  fits_int64 (MatchCreate.overs mc) = true ->
  create_match mc db
  = (mkDB
       (matches db
        ++ [Matches.mk (lastrowid (map Matches.id (matches db)))
              (MatchCreate.team1 mc) (MatchCreate.team2 mc)
              (MatchCreate.overs mc) 1 "in_progress" None])%list
       (innings db
        ++ [Innings.mk (lastrowid (map Innings.id (innings db)))
              (lastrowid (map Matches.id (matches db))) 1
              (MatchCreate.team1 mc) (MatchCreate.team2 mc)
              (Exact 0) 0 0 (Exact 0)])%list
       (batsmen db) (bowlers db) (balls db),
     Returned (lastrowid (map Matches.id (matches db)),
               "Match created successfully")).
Proof.
  intros H. cbv beta iota delta [create_match bind binding forallb].
  now rewrite H.
Qed.

Lemma create_match_accepted db mc :
  fits_int64 (MatchCreate.overs mc) = true ->
  handle (CreateMatch mc) db
  = mkDB (insert (new_match db mc) (matches db))
      (insert (first_inning db mc) (innings db))
      (batsmen db) (bowlers db) (balls db).
Proof. intros H. unfold handle. now rewrite (create_match_returns db mc H). Qed.

Lemma create_match_not_accepted db mc :
  fits_int64 (MatchCreate.overs mc) = false ->
  handle (CreateMatch mc) db = db.
Proof. intros H. unfold handle. now rewrite (create_match_refused db mc H). Qed.

(** [create_match] either refuses and writes nothing, or appends a match
    and its first innings. *)
Lemma create_match_tables db mc :
  handle (CreateMatch mc) db = db \/
  handle (CreateMatch mc) db
  = mkDB (insert (new_match db mc) (matches db))
      (insert (first_inning db mc) (innings db))
      (batsmen db) (bowlers db) (balls db).
Proof.
  destruct (fits_int64 (MatchCreate.overs mc)) eqn:H.
  - right. now apply create_match_accepted.
  - left. now apply create_match_not_accepted.
Qed.

Lemma create_match_participants db mc :
  batsmen (handle (CreateMatch mc) db) = batsmen db /\
  bowlers (handle (CreateMatch mc) db) = bowlers db /\
  balls (handle (CreateMatch mc) db) = balls db.
Proof.
  unfold handle. destruct (fits_int64 (MatchCreate.overs mc)) eqn:H.
  - rewrite (create_match_returns db mc H). auto.
  - rewrite (create_match_refused db mc H). auto.
Qed.

(** *** One request keeps the registry invariant *)

Lemma handle_registry_invariant r db :
  registry_invariant db -> registry_invariant (handle r db).
Proof.
  intros (Hk & Hs & Hc). destruct r as [m|i bc|i bc|i ball|k|k|k wn].
  - (* create_match *)
    destruct (create_match_participants db m) as (Eb & Ew & _).
    unfold registry_invariant, batsman_ids_unique, at_most_one_striker,
      at_most_one_current, strikers_in, current_bowlers_in.
    rewrite Eb, Ew. repeat split; assumption.
  - (* add_batsman *)
    split; [|split].
    + unfold batsman_ids_unique. rewrite add_batsman_batsmen.
      unfold insert. rewrite map_app.
      replace (map Batsmen.id
                 (if BatsmanCreate.is_striker bc
                  then update (batsman_in i) (Batsmen.set_is_striker false)
                         (batsmen db)
                  else batsmen db))
        with (map Batsmen.id (batsmen db)).
      * apply NoDup_app; [exact Hk|repeat constructor; intros []|].
        intros a Ha [<-|[]]. revert Ha. apply lastrowid_fresh.
      * destruct (BatsmanCreate.is_striker bc); [|reflexivity].
        symmetry. apply update_keys. intros []; reflexivity.
    + intros j. rewrite add_batsman_strikers.
      destruct (BatsmanCreate.is_striker bc && (i =? j));
        [cbn; lia|apply Hs].
    + unfold at_most_one_current, current_bowlers_in.
      rewrite add_batsman_bowlers. exact Hc.
  - (* add_bowler *)
    split; [exact Hk|split; [exact Hs|]].
    intros j. rewrite add_bowler_current.
    destruct (i =? j); [cbn; lia|apply Hc].
  - (* add_ball *)
    split; [|split].
    + unfold batsman_ids_unique. now rewrite add_ball_batsman_ids.
    + intros j. rewrite add_ball_strikers. apply Hs.
    + intros j. rewrite add_ball_current. apply Hc.
  - (* toggle_striker *)
    destruct (batsman_of k db) as [b|] eqn:Eb.
    + split; [|split].
      * unfold batsman_ids_unique.
        rewrite (toggle_striker_batsmen db k b Eb).
        rewrite !update_keys by (intros []; reflexivity). exact Hk.
      * intros j. rewrite (toggle_striker_strikers db k b j Hk Eb).
        destruct (j =? Batsmen.inning_id b); [cbn; lia|apply Hs].
      * unfold at_most_one_current, current_bowlers_in.
        unfold batsman_of in Eb. unfold handle.
        cbv beta iota delta [toggle_striker bind query]. rewrite Eb.
        exact Hc.
    + now rewrite toggle_striker_missing.
  - (* next_inning *)
    destruct (next_inning_participants db k) as [Eb Ew].
    unfold registry_invariant, batsman_ids_unique, at_most_one_striker,
      at_most_one_current, strikers_in, current_bowlers_in.
    rewrite Eb, Ew. repeat split; assumption.
  - (* complete_match *) repeat split; assumption.
Qed.

Lemma serve_registry_invariant rs : forall db,
  registry_invariant db -> registry_invariant (serve rs db).
Proof.
  induction rs as [|r rs IH]; intros db H; [exact H|].
  rewrite serve_cons. apply IH. now apply handle_registry_invariant.
Qed.

(** C7. After any sequence of requests served from the empty database
    there is at most one striker and at most one current bowler per
    innings.  More generally, from any database whose batsman ids are
    unique (the primary key) and that has at most one striker and at most
    one current bowler per innings, any sequence of requests --
    [add_batsman], [toggle_striker] and [add_bowler] among them -- leads to
    a database with at most one striker and at most one current bowler per
    innings.  In particular: [add_batsman] with the striker flag leaves
    the new batsman as the only striker of the innings; [toggle_striker]
    on an existing batsman leaves that batsman as the only striker of the
    batsman's innings; [add_bowler] leaves the new bowler as the only
    current bowler of the innings. *)
Theorem registry_keeps_one_striker_one_bowler :
  (forall rs,
     at_most_one_striker (serve rs empty_db) /\
     at_most_one_current (serve rs empty_db)) /\
  (forall db,
     batsman_ids_unique db ->
     at_most_one_striker db -> at_most_one_current db ->
     forall rs,
       at_most_one_striker (serve rs db) /\
       at_most_one_current (serve rs db)) /\
  (forall db i bc, BatsmanCreate.is_striker bc = true ->
     strikers_in i (handle (AddBatsman i bc) db) = [new_batsman db i bc]) /\
  (forall db k b,
     batsman_ids_unique db -> batsman_of k db = Some b ->
     strikers_in (Batsmen.inning_id b) (handle (ToggleStriker k) db)
     = [Batsmen.set_is_striker true b]) /\
  (forall db i bc,
     current_bowlers_in i (handle (AddBowler i bc) db) = [new_bowler db i bc]).
Proof.
  split; [|split; [|split; [|split]]].
  - intros rs.
    destruct (serve_registry_invariant rs empty_db) as (_ & Hs' & Hc').
    + split; [constructor|]. split; intros i; cbn; lia.
    + split; assumption.
  - intros db Hk Hs Hc rs.
    destruct (serve_registry_invariant rs db) as (_ & Hs' & Hc');
      [repeat split; assumption|]. split; assumption.
  - intros db i bc Hf.
    rewrite add_batsman_strikers, Hf, Z.eqb_refl. reflexivity.
  - intros db k b Hk Hb. rewrite (toggle_striker_strikers db k b _ Hk Hb).
    now rewrite Z.eqb_refl.
  - intros db i bc. rewrite add_bowler_current. now rewrite Z.eqb_refl.
Qed.

(** * The innings ledger and the delivery records *)

Lemma count_for_insert p k r t :
  count_for p k (insert r t)
  = count_for p k t + (if (Balls.inning_id r =? k) && p r then 1 else 0).
Proof.
  unfold count_for, insert. rewrite filter_app, length_app. cbn [filter].
  destruct ((Balls.inning_id r =? k) && p r); cbn [List.length]; lia.
Qed.

Lemma count_for_absent p k t :
  (forall r, In r t -> Balls.inning_id r <> k) -> count_for p k t = 0.
Proof.
  intros H. unfold count_for.
  induction t as [|r t IH]; [reflexivity|]. cbn [filter].
  assert (E : (Balls.inning_id r =? k) = false)
    by (apply Z.eqb_neq, H; now left).
  rewrite E. cbn [andb]. apply IH. intros r' Hr'. apply H. now right.
Qed.

(** Requests that leave the innings and the delivery records alone. *)
Lemma ledger_untouched r db :
  match r with
  | CreateMatch _ | AddBall _ _ | NextInning _ => True
  | _ =>
      innings (handle r db) = innings db /\ balls (handle r db) = balls db
  end.
Proof.
  destruct r as [m|i [name []]|i bc|i ball|k|k|k wn]; cbn [handle]; auto.
  unfold handle. cbv beta iota delta [toggle_striker bind query raise].
  destruct (fetchone (batsman_has_id k) (batsmen db)); auto.
Qed.

Lemma ledger_invariant_new_inning db db' row :
  ledger_invariant db ->
  innings db' = insert row (innings db) ->
  balls db' = balls db ->
  Innings.id row = lastrowid (map Innings.id (innings db)) ->
  Innings.total_balls row = 0 ->
  ledger_invariant db'.
Proof.
  intros [Hcount Hown] Hi Hb Hid Hzero. unfold ledger_invariant, delivery_count.
  rewrite Hi, Hb. unfold insert. split.
  - intros n Hn. apply in_app_or in Hn. destruct Hn as [Hn|[<-|[]]].
    + now apply Hcount.
    + rewrite Hzero. symmetry. apply count_for_absent.
      intros r Hr E. apply Hown in Hr. rewrite E, Hid in Hr.
      revert Hr. apply lastrowid_fresh.
  - intros r Hr. rewrite map_app. apply in_or_app. left. now apply Hown.
Qed.

Lemma handle_ledger_invariant r db :
  ledger_invariant db -> ledger_invariant (handle r db).
Proof.
  intros H. pose proof (ledger_untouched r db) as Hu.
  destruct r as [m|i bc|i bc|i ball|k|k|k wn];
    try (destruct H as [Hcount Hown];
         unfold ledger_invariant, delivery_count;
         rewrite (proj1 Hu), (proj2 Hu); split; assumption).
  - (* create_match *)
    destruct (create_match_tables db m) as [->| ->]; [exact H|].
    eapply ledger_invariant_new_inning; [exact H|reflexivity..].
  - (* add_ball *)
    destruct (add_ball_tables db i ball) as [->|(s & w & n & Hrows & ->)];
      [exact H|].
    destruct H as [Hcount Hown].
    apply charged_rows_some in Hrows. destruct Hrows as (_ & _ & Hn).
    unfold ledger_invariant, delivery_count. cbn [innings balls]. split.
    + intros n' Hn'. apply update_In in Hn'. destruct Hn' as (n0 & Hn0 & ->).
      rewrite count_for_insert.
      cbn [ball_record Balls.inning_id]. unfold legal_record at 2.
      cbn [Balls.is_extra Balls.extra_type]. fold (legal_delivery ball).
      unfold inning_has_id. destruct (Innings.id n0 =? i) eqn:E.
      * rewrite inning_row_after_key, inning_total_balls_after.
        rewrite Z.eqb_sym, E. cbn [andb].
        rewrite (Hcount n0 Hn0). reflexivity.
      * rewrite Z.eqb_sym, E. cbn [andb]. rewrite (Hcount n0 Hn0).
        unfold delivery_count. lia.
    + rewrite update_keys by (intros r; apply inning_row_after_key).
      intros r Hr. unfold insert in Hr. apply in_app_or in Hr.
      destruct Hr as [Hr|[<-|[]]]; [now apply Hown|].
      cbn [ball_record Balls.inning_id].
      unfold inning_of, fetchone in Hn. apply find_some in Hn.
      destruct Hn as [Hin Hid]. unfold inning_has_id in Hid.
      apply Z.eqb_eq in Hid. rewrite <- Hid. now apply in_map.
  - (* next_inning *)
    unfold handle. cbv beta iota delta [next_inning bind query raise].
    destruct (fetchone (match_has_id k) (matches db)) as [m|]; [|exact H].
    destruct (2 <=? Matches.current_inning m); [exact H|].
    eapply ledger_invariant_new_inning; [exact H|reflexivity..].
Qed.

Lemma serve_ledger_invariant rs : forall db,
  ledger_invariant db -> ledger_invariant (serve rs db).
Proof.
  induction rs as [|r rs IH]; intros db H; [exact H|].
  rewrite serve_cons. apply IH. now apply handle_ledger_invariant.
Qed.

Lemma legal_delivery_iff ball :
  legal_delivery ball = true <->
  BallUpdate.is_extra ball = false \/
  BallUpdate.extra_type ball = Some "lb" \/
  BallUpdate.extra_type ball = Some "b".
Proof.
  unfold legal_delivery, counts_as_ball, in_lb_b.
  destruct (BallUpdate.is_extra ball); cbn [negb orb]; [|tauto].
  destruct (BallUpdate.extra_type ball) as [t|].
  - rewrite orb_true_iff. rewrite !String.eqb_eq. split.
    + intros [->| ->]; auto.
    + intros [H|[[= ->]|[= ->]]]; [discriminate|auto..].
  - split; [discriminate|]. intros [H|[H|H]]; discriminate.
Qed.

(** On records as a scoring client sends them -- an extra always carries
    one of the four codes, a delivery off the bat carries none -- the two
    readings of a countable delivery agree, whatever codes other than
    ['lb'] and ['b'] stand for wide and no-ball. *)
Lemma outside_agrees_on_typed_records wide noball r :
  wide <> "lb" -> wide <> "b" -> noball <> "lb" -> noball <> "b" ->
  (Balls.is_extra r = false -> Balls.extra_type r = None) ->
  (Balls.is_extra r = true ->
   In (Balls.extra_type r) [Some wide; Some noball; Some "lb"; Some "b"]) ->
  legal_record r = outside wide noball r.
Proof.
  intros Hw1 Hw2 Hn1 Hn2 Hbat Hext.
  unfold legal_record, outside, counts_as_ball, in_lb_b.
  destruct (Balls.is_extra r).
  - specialize (Hext eq_refl). cbn [negb orb].
    destruct Hext as [<-|[<-|[<-|[<-|[]]]]].
    + rewrite (proj2 (String.eqb_neq wide "lb") Hw1),
        (proj2 (String.eqb_neq wide "b") Hw2), String.eqb_refl.
      reflexivity.
    + rewrite (proj2 (String.eqb_neq noball "lb") Hn1),
        (proj2 (String.eqb_neq noball "b") Hn2), String.eqb_refl, orb_true_r.
      reflexivity.
    + assert (E1 : String.eqb "lb" wide = false)
        by (apply String.eqb_neq; congruence).
      assert (E2 : String.eqb "lb" noball = false)
        by (apply String.eqb_neq; congruence).
      rewrite E1, E2. reflexivity.
    + assert (E1 : String.eqb "b" wide = false)
        by (apply String.eqb_neq; congruence).
      assert (E2 : String.eqb "b" noball = false)
        by (apply String.eqb_neq; congruence).
      rewrite E1, E2. reflexivity.
  - now rewrite (Hbat eq_refl).
Qed.

(** C1, as the code has it.  After any sequence of requests served from
    the empty database, every innings row's [total_balls] is the number
    of that innings' delivery records that are not flagged as extras or
    whose [extra_type] is ['lb'] or ['b'].  One call of [add_ball] adds one
    to the innings' [total_balls] exactly for such a delivery (given that
    its run value fits a signed 64-bit integer; any other delivery is
    refused and leaves no record): byes and leg-byes count, every other
    extra -- a wide, a no-ball, an extra with no type -- does not. *)
Theorem total_balls_counts_legal_records :
  (forall rs n,
     In n (innings (serve rs empty_db)) ->
     Innings.total_balls n
     = delivery_count legal_record (Innings.id n) (serve rs empty_db)) /\
  (forall db i ball s w n,
     charged_rows i db = Some (s, w, n) ->
     exists s' w' n',
       charged_rows i (handle (AddBall i ball) db) = Some (s', w', n') /\
       Innings.total_balls n'
       = Innings.total_balls n
         + (if legal_delivery ball && fits_int64 (BallUpdate.runs ball)
            then 1 else 0)) /\
  (forall ball,
     legal_delivery ball = true <->
     BallUpdate.is_extra ball = false \/
     BallUpdate.extra_type ball = Some "lb" \/
     BallUpdate.extra_type ball = Some "b").
Proof.
  split; [|split].
  - intros rs n Hn.
    destruct (serve_ledger_invariant rs empty_db) as [Hcount _].
    + split; intros ? [].
    + now apply Hcount.
  - intros db i ball s w n H.
    destruct (fits_int64 (BallUpdate.runs ball)) eqn:Hacc.
    + exists (striker_row_after ball s),
        (bowler_row_after ball (Bowlers.balls w) w),
        (inning_row_after ball n).
      split; [now apply add_ball_rows_after|].
      rewrite andb_true_r. apply inning_total_balls_after.
    + exists s, w, n. rewrite (add_ball_not_accepted db i ball Hacc).
      split; [exact H|]. rewrite andb_false_r. lia.
  - apply legal_delivery_iff.
Qed.

(** C1, as stated, fails.  An extra recorded without an [extra_type] is
    stored and leaves [total_balls] at 0, while the innings then has one
    delivery record whose [extra_type] is neither the wide nor the no-ball
    code, whatever strings those two codes are. *)
Lemma total_balls_not_count_outside_wide_noball :
  exists n,
    inning_of 1 (serve (opening ++ [AddBall 1 untyped_extra]) empty_db)
    = Some n /\
    Innings.total_balls n = 0 /\
    (forall wide noball,
       delivery_count (outside wide noball) 1
         (serve (opening ++ [AddBall 1 untyped_extra]) empty_db) = 1).
Proof.
  eexists. split; [reflexivity|]. split; [reflexivity|].
  intros wide noball. reflexivity.
Qed.

(** C3, as stated, fails on run values that no scorer sends.  After one
    wide worth 2^62 + 1 runs the extras, the total runs and the bowler's
    runs given are that integer; a second such wide is accepted and
    recorded, but the three sums leave the 64-bit range: none of them is
    the integer 2^63 + 2, the old total plus the run value. *)
Lemma add_ball_sums_leave_the_integers :
  exists s w n s' w' n',
    charged_rows 1 (handle (AddBall 1 half_range_wide) ready_db)
    = Some (s, w, n) /\
    BallUpdate.is_extra half_range_wide = true /\
    BallUpdate.runs half_range_wide = 4611686018427387905 /\
    Innings.extras n = Exact 4611686018427387905 /\
    Innings.total_runs n = Exact 4611686018427387905 /\
    Bowlers.runs_given w = Exact 4611686018427387905 /\
    add_ball 1 half_range_wide (handle (AddBall 1 half_range_wide) ready_db)
    = (serve (deliveries 1 [half_range_wide; half_range_wide]) ready_db,
       Returned "Ball recorded successfully") /\
    charged_rows 1
      (serve (deliveries 1 [half_range_wide; half_range_wide]) ready_db)
    = Some (s', w', n') /\
    Innings.extras n' <> Exact (4611686018427387905 + 4611686018427387905) /\
    Innings.total_runs n'
    <> Exact (4611686018427387905 + 4611686018427387905) /\
    Bowlers.runs_given w'
    <> Exact (4611686018427387905 + 4611686018427387905).
Proof.
  do 6 eexists. split; [reflexivity|].
  repeat (split; [reflexivity|]).
  split; [discriminate|]. split; discriminate.
Qed.

(** C4, as stated, fails on run values that no scorer sends.  After one
    stroke worth 2^62 + 1 runs the striker has that many; a second such
    stroke is accepted and recorded, but the striker's runs leave the
    64-bit range: they are not the integer 2^63 + 2. *)
Lemma add_ball_striker_runs_leave_the_integers :
  exists s w n s' w' n',
    charged_rows 1 (handle (AddBall 1 half_range_runs) ready_db)
    = Some (s, w, n) /\
    BallUpdate.is_extra half_range_runs = false /\
    BallUpdate.runs half_range_runs = 4611686018427387905 /\
    Batsmen.runs s = Exact 4611686018427387905 /\
    add_ball 1 half_range_runs (handle (AddBall 1 half_range_runs) ready_db)
    = (serve (deliveries 1 [half_range_runs; half_range_runs]) ready_db,
       Returned "Ball recorded successfully") /\
    charged_rows 1
      (serve (deliveries 1 [half_range_runs; half_range_runs]) ready_db)
    = Some (s', w', n') /\
    Batsmen.runs s' <> Exact (4611686018427387905 + 4611686018427387905).
Proof.
  do 6 eexists. split; [reflexivity|].
  repeat (split; [reflexivity|]).
  discriminate.
Qed.

(** * The theorems on a concrete match *)

Lemma total_balls_counts_legal_records_witness :
  exists n,
    In n (innings (serve (opening ++ deliveries 1
                            [four_runs; wide_one; leg_bye_run_out]) empty_db)) /\
    Innings.total_balls n = 2 /\
    delivery_count legal_record (Innings.id n)
      (serve (opening ++ deliveries 1
                [four_runs; wide_one; leg_bye_run_out]) empty_db) = 2.
Proof.
  exists (Innings.mk 1 1 1 "A" "B" (Exact 6) 1 2 (Exact 2)).
  assert (Hin : In (Innings.mk 1 1 1 "A" "B" (Exact 6) 1 2 (Exact 2))
                  (innings (serve (opening ++ deliveries 1
                     [four_runs; wide_one; leg_bye_run_out]) empty_db)))
    by (left; reflexivity).
  split; [exact Hin|]. split; [reflexivity|].
  symmetry.
  exact (proj1 total_balls_counts_legal_records _ _ Hin).
Defined.

Lemma add_ball_counters_in_lockstep_witness :
  charged_rows 1 empty_db = None /\
  handle (AddBall 1 four_runs) empty_db = empty_db /\
  charged_rows 1 ready_db = Some (ready_striker, ready_bowler, ready_inning) /\
  fits_int64 (BallUpdate.runs beyond_int64) = false /\
  add_ball 1 beyond_int64 ready_db = (ready_db, Raised OverflowError) /\
  fits_int64 (BallUpdate.runs four_runs) = true /\
  snd (add_ball 1 four_runs ready_db) = Returned "Ball recorded successfully" /\
  (exists s' w' n',
     charged_rows 1
       (serve (deliveries 1 [four_runs; wide_one; beyond_int64;
                             leg_bye_run_out]) ready_db)
     = Some (s', w', n') /\
     Batsmen.balls s' = 2 /\ Bowlers.balls w' = 2 /\
     Innings.total_balls n' = 2).
Proof.
  split; [reflexivity|].
  split; [exact (proj1 (add_ball_counters_in_lockstep empty_db 1) eq_refl
                   four_runs)|].
  split; [reflexivity|].
  destruct (proj2 (add_ball_counters_in_lockstep ready_db 1)
              ready_striker ready_bowler ready_inning eq_refl)
    as (Hrefused & Hone & Hmany).
  split; [reflexivity|].
  split; [exact (Hrefused beyond_int64 eq_refl)|].
  split; [reflexivity|].
  split.
  - destruct (Hone four_runs eq_refl) as (s' & w' & n' & Hret & _).
    exact Hret.
  - destruct (Hmany [four_runs; wide_one; beyond_int64; leg_bye_run_out])
      as (s' & w' & n' & Hrows & _ & Hs & Hw & Hn).
    exists s', w', n'. split; [exact Hrows|].
    change (legal_count
              (filter accepted
                 [four_runs; wide_one; beyond_int64; leg_bye_run_out]))
      with 2 in Hs, Hw, Hn.
    cbn [ready_striker ready_bowler ready_inning Batsmen.balls Bowlers.balls
         Innings.total_balls] in Hs, Hw, Hn.
    repeat split; lia.
Defined.

Lemma add_ball_run_attribution_witness :
  charged_rows 1 ready_db = Some (ready_striker, ready_bowler, ready_inning) /\
  fits_int64 (BallUpdate.runs wide_one) = true /\
  BallUpdate.is_extra wide_one = true /\
  (exists s' w' n',
     charged_rows 1 (handle (AddBall 1 wide_one) ready_db)
     = Some (s', w', n') /\
     Bowlers.runs_given w' = Exact 1 /\ Innings.total_runs n' = Exact 1 /\
     Batsmen.runs s' = Exact 0 /\ Innings.extras n' = Exact 1).
Proof.
  split; [reflexivity|]. split; [reflexivity|]. split; [reflexivity|].
  destruct (proj2 (add_ball_run_attribution ready_db 1 wide_one
                     ready_striker ready_bowler ready_inning eq_refl)
              eq_refl)
    as (s' & w' & n' & Hrows & Hg & Ht & He).
  destruct (He eq_refl) as [Hr Hx].
  exists s', w', n'. split; [exact Hrows|].
  split; [exact (Hg 0 eq_refl eq_refl)|].
  split; [exact (Ht 0 eq_refl eq_refl)|].
  split; [exact Hr|exact (Hx 0 eq_refl eq_refl)].
Defined.

Lemma add_ball_striker_runs_and_boundaries_witness :
  charged_rows 1 ready_db = Some (ready_striker, ready_bowler, ready_inning) /\
  fits_int64 (BallUpdate.runs four_runs) = true /\
  BallUpdate.is_extra four_runs = false /\
  (exists s' w' n',
     charged_rows 1 (handle (AddBall 1 four_runs) ready_db)
     = Some (s', w', n') /\
     Batsmen.runs s' = Exact 4 /\ Batsmen.fours s' = 1 /\
     Batsmen.sixes s' = 0).
Proof.
  split; [reflexivity|]. split; [reflexivity|]. split; [reflexivity|].
  destruct (proj2 (add_ball_striker_runs_and_boundaries ready_db 1 four_runs
                     ready_striker ready_bowler ready_inning eq_refl)
              eq_refl)
    as (s' & w' & n' & Hrows & Hb & _).
  destruct (Hb eq_refl) as (Hr & H4 & H6).
  exists s', w', n'. split; [exact Hrows|].
  split; [exact (Hr 0 eq_refl eq_refl)|]. split; [exact H4|exact H6].
Defined.

Lemma add_ball_wicket_witness :
  charged_rows 1 ready_db = Some (ready_striker, ready_bowler, ready_inning) /\
  fits_int64 (BallUpdate.runs leg_bye_run_out) = true /\
  BallUpdate.is_wicket leg_bye_run_out = true /\
  BallUpdate.is_extra leg_bye_run_out = true /\
  (exists s' w' n',
     charged_rows 1 (handle (AddBall 1 leg_bye_run_out) ready_db)
     = Some (s', w', n') /\
     Bowlers.wickets w' = 1 /\ Batsmen.is_out s' = true /\
     Batsmen.out_type s' = Some "run out").
Proof.
  split; [reflexivity|]. split; [reflexivity|]. split; [reflexivity|].
  split; [reflexivity|].
  destruct (add_ball_wicket ready_db 1 leg_bye_run_out
              ready_striker ready_bowler ready_inning eq_refl eq_refl eq_refl)
    as (s' & w' & n' & Hrows & _ & Hw & Ho & Ht).
  exists s', w', n'. split; [exact Hrows|].
  split; [exact Hw|]. split; [exact Ho|exact Ht].
Defined.

Lemma add_ball_bowler_overs_witness :
  charged_rows 1 ready_db = Some (ready_striker, ready_bowler, ready_inning) /\
  Forall (fun ball => legal_delivery ball = true) (repeat four_runs 6) /\
  Forall (fun ball => fits_int64 (BallUpdate.runs ball) = true)
    (repeat four_runs 6) /\
  List.length (repeat four_runs 6) = 6%nat /\
  Bowlers.balls ready_bowler = 0 /\
  (exists s' w' n',
     charged_rows 1 (serve (deliveries 1 (repeat four_runs 6)) ready_db)
     = Some (s', w', n') /\
     Bowlers.balls w' = 6 /\ Bowlers.overs w' = 1).
Proof.
  assert (Hall : Forall (fun ball => legal_delivery ball = true)
                   (repeat four_runs 6))
    by (repeat constructor).
  assert (Hfit : Forall (fun ball => fits_int64 (BallUpdate.runs ball) = true)
                   (repeat four_runs 6))
    by (repeat constructor).
  split; [reflexivity|]. split; [exact Hall|]. split; [exact Hfit|].
  split; [reflexivity|]. split; [reflexivity|].
  destruct (proj2 (proj2 (add_ball_bowler_overs ready_db 1
                            ready_striker ready_bowler ready_inning eq_refl))
              (repeat four_runs 6) Hall Hfit eq_refl eq_refl)
    as (s' & w' & n' & Hrows & _ & Hb & Ho).
  exists s', w', n'. split; [exact Hrows|]. split; [exact Hb|exact Ho].
Defined.


Lemma next_inning_swaps_teams_witness :
  match_of 1 ready_db = Some (Matches.mk 1 "A" "B" 20 1 "in_progress" None) /\
  1 < 2 /\
  (exists db',
     next_inning 1 ready_db = (db', Returned "Second inning started") /\
     innings db'
     = [ready_inning; Innings.mk 2 1 2 "B" "A" (Exact 0) 0 0 (Exact 0)] /\
     match_of 1 db'
     = Some (Matches.mk 1 "A" "B" 20 2 "in_progress" None)).
Proof.
  split; [reflexivity|]. split; [lia|].
  destruct (proj1 (proj2 (next_inning_swaps_teams ready_db 1
                            (Matches.mk 1 "A" "B" 20 1 "in_progress" None)
                            eq_refl)))
    as (db' & Hret & Hinn & Hm & _); [cbn; lia|].
  exists db'. split; [exact Hret|]. split; [exact Hinn|exact Hm].
Defined.

Lemma add_participant_ignores_innings_witness :
  fits_int64 7 = true /\
  inning_of 7 empty_db = None /\
  add_batsman 7 (BatsmanCreate.mk "X" true) empty_db
  = (mkDB [] [] [Batsmen.mk 1 7 "X" (Exact 0) 0 0 0 false None true] [] [],
     Returned "Batsman added successfully") /\
  add_bowler 7 (BowlerCreate.mk "Y") empty_db
  = (mkDB [] [] [] [Bowlers.mk 1 7 "Y" 0 0 (Exact 0) 0 0 true] [],
     Returned "Bowler added successfully").
Proof.
  split; [reflexivity|]. split; [reflexivity|].
  destruct (add_participant_ignores_innings empty_db 7 eq_refl) as [Hb Hw].
  split.
  - destruct (Hb (BatsmanCreate.mk "X" true))
      as (rows & r & Hrun & Hids & -> & _).
    destruct rows as [|r0 rows]; [exact Hrun|discriminate Hids].
  - destruct (Hw (BowlerCreate.mk "Y"))
      as (rows & r & Hrun & Hids & -> & _).
    destruct rows as [|r0 rows]; [exact Hrun|discriminate Hids].
Defined.

Lemma registry_keeps_one_striker_one_bowler_witness :
  batsman_ids_unique two_batsmen_db /\
  at_most_one_striker two_batsmen_db /\
  at_most_one_current two_batsmen_db /\
  batsman_of 1 two_batsmen_db
  = Some (Batsmen.mk 1 1 "X" (Exact 0) 0 0 0 false None false) /\
  (at_most_one_striker
     (serve [ToggleStriker 1; AddBowler 1 (BowlerCreate.mk "W")]
        two_batsmen_db) /\
   at_most_one_current
     (serve [ToggleStriker 1; AddBowler 1 (BowlerCreate.mk "W")]
        two_batsmen_db)) /\
  strikers_in 1 (handle (ToggleStriker 1) two_batsmen_db) = [ready_striker].
Proof.
  assert (Hk : batsman_ids_unique two_batsmen_db).
  { unfold batsman_ids_unique. cbn.
    repeat constructor; cbn; intros H; repeat destruct H as [H|H];
      try discriminate; exact H. }
  assert (Hs : at_most_one_striker two_batsmen_db).
  { intros i. unfold strikers_in.
    set (t := batsmen two_batsmen_db). vm_compute in t. subst t.
    unfold striker_in.
    cbn [filter Batsmen.inning_id Batsmen.is_striker].
    destruct (1 =? i); cbn [andb List.length]; lia. }
  assert (Hc : at_most_one_current two_batsmen_db).
  { intros i. unfold current_bowlers_in.
    set (t := bowlers two_batsmen_db). vm_compute in t. subst t.
    unfold current_in.
    cbn [filter Bowlers.inning_id Bowlers.is_current].
    destruct (1 =? i); cbn [andb List.length]; lia. }
  split; [exact Hk|]. split; [exact Hs|]. split; [exact Hc|].
  split; [reflexivity|].
  split.
  - exact (proj1 (proj2 registry_keeps_one_striker_one_bowler)
             two_batsmen_db Hk Hs Hc
             [ToggleStriker 1; AddBowler 1 (BowlerCreate.mk "W")]).
  - exact (proj1 (proj2 (proj2 (proj2 registry_keeps_one_striker_one_bowler)))
             two_batsmen_db 1 (Batsmen.mk 1 1 "X" (Exact 0) 0 0 0 false None false)
             Hk eq_refl).
Defined.

(** * Beyond the delivery recorder: what every request keeps *)

(** ** The database after each request, table by table *)

Lemma set_is_striker_same r :
  Batsmen.set_is_striker (Batsmen.is_striker r) r = r.
Proof. destruct r; reflexivity. Qed.

Lemma set_is_current_same r :
  Bowlers.set_is_current (Bowlers.is_current r) r = r.
Proof. destruct r; reflexivity. Qed.

(** [add_batsman] and [toggle_striker] rewrite nothing but [is_striker]
    on the rows that were there. *)
Lemma add_batsman_tables db i bc :
  exists flags,
    handle (AddBatsman i bc) db
    = mkDB (matches db) (innings db)
        (insert (new_batsman db i bc)
           (map (fun r => Batsmen.set_is_striker (flags r) r) (batsmen db)))
        (bowlers db) (balls db).
Proof.
  exists (fun r => if BatsmanCreate.is_striker bc && batsman_in i r
                   then false else Batsmen.is_striker r).
  pose proof (add_batsman_batsmen db i bc) as Hb.
  assert (Hrest : handle (AddBatsman i bc) db
                  = mkDB (matches db) (innings db)
                      (batsmen (handle (AddBatsman i bc) db))
                      (bowlers db) (balls db))
    by (destruct bc as [name []]; reflexivity).
  rewrite Hrest, Hb. f_equal. f_equal.
  destruct (BatsmanCreate.is_striker bc); cbn [andb].
  - unfold update. apply map_ext. intros r.
    destruct (batsman_in i r); [reflexivity|].
    symmetry. apply set_is_striker_same.
  - rewrite <- (map_id (batsmen db)) at 1. apply map_ext. intros r.
    symmetry. apply set_is_striker_same.
Qed.

Lemma add_bowler_tables db i bc :
  exists flags,
    handle (AddBowler i bc) db
    = mkDB (matches db) (innings db) (batsmen db)
        (insert (new_bowler db i bc)
           (map (fun r => Bowlers.set_is_current (flags r) r) (bowlers db)))
        (balls db).
Proof.
  exists (fun r => if bowler_in i r then false else Bowlers.is_current r).
  pose proof (add_bowler_bowlers db i bc) as Hb.
  assert (Hrest : handle (AddBowler i bc) db
                  = mkDB (matches db) (innings db) (batsmen db)
                      (bowlers (handle (AddBowler i bc) db)) (balls db))
    by (destruct bc; reflexivity).
  rewrite Hrest, Hb. f_equal. f_equal.
  unfold update. apply map_ext. intros r.
  destruct (bowler_in i r); [reflexivity|].
  symmetry. apply set_is_current_same.
Qed.

Lemma toggle_striker_tables db k :
  exists flags,
    handle (ToggleStriker k) db
    = mkDB (matches db) (innings db)
        (map (fun r => Batsmen.set_is_striker (flags r) r) (batsmen db))
        (bowlers db) (balls db).
Proof.
  destruct (batsman_of k db) as [b|] eqn:Eb.
  - exists (fun r => if batsman_has_id k r then true
                     else if batsman_in (Batsmen.inning_id b) r then false
                     else Batsmen.is_striker r).
    pose proof (toggle_striker_batsmen db k b Eb) as Hb.
    assert (Hrest : handle (ToggleStriker k) db
                    = mkDB (matches db) (innings db)
                        (batsmen (handle (ToggleStriker k) db))
                        (bowlers db) (balls db)).
    { unfold batsman_of in Eb. unfold handle.
      cbv beta iota delta [toggle_striker bind query]. rewrite Eb.
      reflexivity. }
    rewrite Hrest, Hb. f_equal. unfold update. rewrite map_map.
    apply map_ext. intros r. unfold batsman_has_id, batsman_in.
    destruct (Batsmen.inning_id r =? Batsmen.inning_id b);
      cbn [Batsmen.id Batsmen.set_is_striker];
      destruct (Batsmen.id r =? k); try reflexivity.
    symmetry. apply set_is_striker_same.
  - exists Batsmen.is_striker. rewrite (toggle_striker_missing db k Eb).
    destruct db as [ms ins bats bws bls]. cbn. f_equal.
    rewrite <- (map_id bats) at 1. apply map_ext. intros r.
    symmetry. apply set_is_striker_same.
Qed.

Lemma next_inning_tables db k :
  handle (NextInning k) db = db \/
  exists m,
    match_of k db = Some m /\ Matches.current_inning m < 2 /\
    handle (NextInning k) db
    = mkDB (update (match_has_id k) (Matches.set_current_inning 2)
              (matches db))
        (insert (second_inning db k m) (innings db))
        (batsmen db) (bowlers db) (balls db).
Proof.
  unfold handle, match_of. cbv beta iota delta [next_inning bind query raise].
  destruct (fetchone (match_has_id k) (matches db)) as [m|]; [|now left].
  destruct (2 <=? Matches.current_inning m) eqn:E; [now left|].
  right. exists m. apply Z.leb_gt in E. repeat split; auto.
Qed.

Lemma complete_match_tables db k w :
  handle (CompleteMatch k w) db
  = mkDB (update (match_has_id k) (Matches.set_completed w) (matches db))
      (innings db) (batsmen db) (bowlers db) (balls db).
Proof. reflexivity. Qed.

(** ** Row ids *)

Lemma max_of_seq n : forall a,
  fold_right Z.max 0 (map Z.of_nat (seq a n))
  = match n with O => 0 | S _ => Z.of_nat (a + n) - 1 end.
Proof.
  induction n as [|n IH]; intros a; [reflexivity|].
  cbn [seq map fold_right]. rewrite IH. destruct n; lia.
Qed.

Lemma ids_consecutive_lastrowid ids :
  ids_consecutive ids -> lastrowid ids = Z.of_nat (List.length ids) + 1.
Proof.
  unfold ids_consecutive, lastrowid. intros ->.
  rewrite max_of_seq, length_map, length_seq.
  destruct (List.length ids); lia.
Qed.

Lemma ids_consecutive_insert ids :
  ids_consecutive ids -> ids_consecutive (insert (lastrowid ids) ids).
Proof.
  intros H. unfold ids_consecutive, insert.
  rewrite (ids_consecutive_lastrowid ids H).
  rewrite length_app. cbn [List.length]. rewrite seq_app, map_app.
  cbn [seq map]. rewrite <- H. f_equal. f_equal. lia.
Qed.

Lemma ids_consecutive_NoDup ids : ids_consecutive ids -> NoDup ids.
Proof.
  intros ->. generalize (List.length ids) as n. generalize 1%nat as a.
  intros a n. revert a. induction n as [|n IH]; intros a; cbn [seq map].
  - constructor.
  - constructor; [|apply IH].
    rewrite in_map_iff. intros (x & Hx & Hin). apply in_seq in Hin. lia.
Qed.

Lemma ids_of_insert {A : Type} (key : A -> Z) (r : A) (t : list A) :
  map key (insert r t) = insert (key r) (map key t).
Proof. unfold insert. now rewrite map_app. Qed.

Lemma handle_primary_keys r db :
  primary_keys db -> primary_keys (handle r db).
Proof.
  intros (Hm & Hi & Hb & Hw & Hl).
  destruct r as [mc|i bc|i bc|i ball|k|k|k wn].
  - destruct (create_match_tables db mc) as [->| ->];
      [repeat split; assumption|].
    unfold primary_keys.
    cbn [matches innings batsmen bowlers balls].
    rewrite !ids_of_insert. cbn [new_match first_inning Matches.id Innings.id].
    repeat apply conj; auto using ids_consecutive_insert.
  - destruct (add_batsman_tables db i bc) as [flags ->].
    unfold primary_keys. cbn [matches innings batsmen bowlers balls].
    rewrite ids_of_insert, map_map. cbn [new_batsman Batsmen.id].
    cbn [Batsmen.set_is_striker Batsmen.id].
    change (map (fun x => Batsmen.id x) (batsmen db))
      with (map Batsmen.id (batsmen db)).
    repeat apply conj; auto using ids_consecutive_insert.
  - destruct (add_bowler_tables db i bc) as [flags ->].
    unfold primary_keys. cbn [matches innings batsmen bowlers balls].
    rewrite ids_of_insert, map_map. cbn [new_bowler Bowlers.id].
    cbn [Bowlers.set_is_current Bowlers.id].
    change (map (fun x => Bowlers.id x) (bowlers db))
      with (map Bowlers.id (bowlers db)).
    repeat apply conj; auto using ids_consecutive_insert.
  - destruct (add_ball_tables db i ball) as [->|(s & w & n & _ & ->)];
      [repeat split; assumption|].
    unfold primary_keys. cbn [matches innings batsmen bowlers balls].
    rewrite ids_of_insert. cbn [ball_record Balls.id].
    rewrite (update_keys Innings.id) by apply inning_row_after_key.
    rewrite (update_keys Batsmen.id)
      by (intros r; now destruct (striker_row_after_key ball r)).
    rewrite (update_keys Bowlers.id)
      by (intros r;
          now destruct (bowler_row_after_key ball (Bowlers.balls w) r)).
    repeat apply conj; auto using ids_consecutive_insert.
  - destruct (toggle_striker_tables db k) as [flags ->].
    unfold primary_keys. cbn [matches innings batsmen bowlers balls].
    rewrite map_map. cbn [Batsmen.set_is_striker Batsmen.id].
    repeat split; assumption.
  - destruct (next_inning_tables db k) as [->|(m & _ & _ & ->)];
      [repeat split; assumption|].
    unfold primary_keys. cbn [matches innings batsmen bowlers balls].
    rewrite ids_of_insert. cbn [second_inning Innings.id].
    rewrite (update_keys Matches.id) by (intros []; reflexivity).
    repeat apply conj; auto using ids_consecutive_insert.
  - rewrite complete_match_tables.
    unfold primary_keys. cbn [matches innings batsmen bowlers balls].
    rewrite (update_keys Matches.id) by (intros []; reflexivity).
    repeat split; assumption.
Qed.

Lemma serve_primary_keys rs : forall db,
  primary_keys db -> primary_keys (serve rs db).
Proof.
  induction rs as [|r rs IH]; intros db H; [exact H|].
  rewrite serve_cons. apply IH. now apply handle_primary_keys.
Qed.

Lemma empty_db_primary_keys : primary_keys empty_db.
Proof. repeat split. Qed.

(** X1. In every database the service reaches from an empty one, the ids
    of each of the five tables are 1, 2, ..., n in rowid order: no id is
    ever reused or skipped, and in particular ids are unique. *)
Theorem ids_are_consecutive rs :
  primary_keys (serve rs empty_db) /\
  NoDup (map Matches.id (matches (serve rs empty_db))) /\
  NoDup (map Innings.id (innings (serve rs empty_db))) /\
  NoDup (map Batsmen.id (batsmen (serve rs empty_db))) /\
  NoDup (map Bowlers.id (bowlers (serve rs empty_db))) /\
  NoDup (map Balls.id (balls (serve rs empty_db))).
Proof.
  pose proof (serve_primary_keys rs empty_db empty_db_primary_keys) as H.
  split; [exact H|]. destruct H as (Hm & Hi & Hb & Hw & Hl).
  auto 10 using ids_consecutive_NoDup.
Qed.

(** ** Matches and their innings *)

Lemma inning_row_after_card ball r :
  Innings.match_id (inning_row_after ball r) = Innings.match_id r /\
  inning_card (inning_row_after ball r) = inning_card r.
Proof.
  unfold inning_row_after.
  destruct (legal_delivery ball), (BallUpdate.is_extra ball),
    (BallUpdate.is_wicket ball); split; reflexivity.
Qed.

Lemma innings_of_match_insert k n t :
  filter (fun n => Innings.match_id n =? k) (insert n t)
  = if Innings.match_id n =? k
    then insert n (filter (fun n => Innings.match_id n =? k) t)
    else filter (fun n => Innings.match_id n =? k) t.
Proof.
  unfold insert. rewrite filter_app. cbn [filter].
  destruct (Innings.match_id n =? k); [reflexivity|apply app_nil_r].
Qed.

Lemma filter_none {A : Type} (p : A -> bool) (t : list A) :
  (forall r, In r t -> p r = false) -> filter p t = [].
Proof.
  induction t as [|r t IH]; intros H; [reflexivity|]. cbn [filter].
  rewrite (H r) by now left. apply IH. intros r' Hr'. apply H. now right.
Qed.

Lemma handle_match_structure r db :
  primary_keys db -> match_structure db -> match_structure (handle r db).
Proof.
  intros (Hkeys & _) [Hown Hcards].
  apply ids_consecutive_NoDup in Hkeys.
  pose proof (ledger_untouched r db) as Hu.
  destruct r as [mc|i bc|i bc|i ball|k|k|k wn].
  - (* create_match *)
    destruct (create_match_tables db mc) as [->| ->]; [split; assumption|].
    unfold match_structure, innings_of_match.
    cbn [matches innings]. split.
    + intros n Hn. rewrite ids_of_insert. unfold insert in *.
      apply in_or_app. apply in_app_or in Hn. destruct Hn as [Hn|[<-|[]]].
      * left. now apply Hown.
      * right. now left.
    + intros m Hm. rewrite innings_of_match_insert.
      cbn [first_inning Innings.match_id].
      unfold insert in Hm. apply in_app_or in Hm.
      destruct Hm as [Hm|[<-|[]]].
      * assert (E : (lastrowid (map Matches.id (matches db)) =? Matches.id m)
                    = false).
        { apply Z.eqb_neq. intros E.
          apply (lastrowid_fresh (map Matches.id (matches db))).
          rewrite E. now apply in_map. }
        rewrite E. now apply Hcards.
      * cbn [new_match Matches.id Matches.current_inning Matches.team1
             Matches.team2]. rewrite Z.eqb_refl. left. split; [reflexivity|].
        rewrite filter_none; [reflexivity|].
        intros n Hn. apply Z.eqb_neq. intros E. apply Hown in Hn.
        rewrite E in Hn. revert Hn. apply lastrowid_fresh.
  - destruct Hu as [Hi _]. unfold match_structure, innings_of_match.
    rewrite Hi. destruct (add_batsman_tables db i bc) as [flags ->].
    cbn [matches]. split; assumption.
  - destruct Hu as [Hi _]. unfold match_structure, innings_of_match.
    rewrite Hi. destruct (add_bowler_tables db i bc) as [flags ->].
    cbn [matches]. split; assumption.
  - (* add_ball *)
    destruct (add_ball_tables db i ball) as [->|(s & w & n & _ & ->)];
      [split; assumption|].
    unfold match_structure, innings_of_match. cbn [matches innings]. split.
    + intros n' Hn'. apply update_In in Hn'. destruct Hn' as (n0 & Hn0 & ->).
      destruct (inning_has_id i n0); [|now apply Hown].
      destruct (inning_row_after_card ball n0) as [-> _]. now apply Hown.
    + intros m Hm. rewrite filter_update_same
        by (intros r; now destruct (inning_row_after_card ball r) as [-> _]).
      unfold update. rewrite map_map.
      rewrite (map_ext _ inning_card); [now apply Hcards|].
      intros r. destruct (inning_has_id i r); [|reflexivity].
      now destruct (inning_row_after_card ball r).
  - destruct Hu as [Hi _]. unfold match_structure, innings_of_match.
    rewrite Hi. destruct (toggle_striker_tables db k) as [flags ->].
    cbn [matches]. split; assumption.
  - (* next_inning *)
    destruct (next_inning_tables db k) as [->|(m0 & Hm0 & Hlt & ->)];
      [split; assumption|].
    unfold match_of, match_has_id in Hm0.
    pose proof (fetchone_unique Matches.id k _ m0 Hkeys Hm0) as Huniq.
    pose proof (fetchone_some_holds _ _ _ Hm0) as Hid0. cbn beta in Hid0.
    apply Z.eqb_eq in Hid0.
    assert (Hin0 : In m0 (matches db)).
    { unfold fetchone in Hm0. apply find_some in Hm0. tauto. }
    unfold match_structure, innings_of_match. cbn [matches innings]. split.
    + intros n Hn. rewrite (update_keys Matches.id)
        by (intros []; reflexivity).
      unfold insert in Hn. apply in_app_or in Hn.
      destruct Hn as [Hn|[<-|[]]]; [now apply Hown|].
      cbn [second_inning Innings.match_id]. rewrite <- Hid0.
      now apply in_map.
    + intros m' Hm'. apply update_In in Hm'.
      destruct Hm' as (m & Hm & ->).
      rewrite innings_of_match_insert.
      cbn [second_inning Innings.match_id]. unfold match_has_id.
      destruct (Matches.id m =? k) eqn:E.
      * apply Z.eqb_eq in E. rewrite (Huniq m Hm E).
        cbn [Matches.set_current_inning Matches.id Matches.current_inning
             Matches.team1 Matches.team2].
        rewrite Hid0, Z.eqb_refl. right. split; [reflexivity|].
        destruct (Hcards m0 Hin0) as [[_ Hc]|[Hc _]]; [|lia].
        rewrite Hid0 in Hc. unfold innings_of_match in Hc.
        unfold insert. rewrite map_app, Hc. reflexivity.
      * rewrite Z.eqb_sym, E. now apply Hcards.
  - (* complete_match *)
    rewrite complete_match_tables. unfold match_structure, innings_of_match.
    cbn [matches innings]. split.
    + intros n Hn. rewrite (update_keys Matches.id)
        by (intros []; reflexivity). now apply Hown.
    + intros m' Hm'. apply update_In in Hm'. destruct Hm' as (m & Hm & ->).
      destruct (match_has_id k m); [|now apply Hcards].
      cbn [Matches.set_completed Matches.id Matches.current_inning
           Matches.team1 Matches.team2]. now apply Hcards.
Qed.

(** ** Delivery records *)

Lemma map_update_same {A B : Type} (key : A -> B) (w : A -> bool)
  (f : A -> A) (t : list A) :
  (forall r, key (f r) = key r) ->
  map key (update w f t) = map key t.
Proof.
  intros H. unfold update. rewrite map_map. apply map_ext.
  intros r. destruct (w r); auto.
Qed.

Lemma handle_delivery_refs r db :
  delivery_refs db -> delivery_refs (handle r db).
Proof.
  intros H. unfold delivery_refs in *.
  destruct r as [mc|i bc|i bc|i ball|k|k|k wn].
  - destruct (create_match_tables db mc) as [->| ->]; [exact H|].
    cbn [innings batsmen bowlers balls].
    intros r Hr. destruct (H r Hr) as (Hi & Hb & Hw).
    rewrite ids_of_insert. unfold insert. split; [|split]; auto.
    apply in_or_app. now left.
  - destruct (add_batsman_tables db i bc) as [flags ->].
    cbn [innings batsmen bowlers balls].
    intros r Hr. destruct (H r Hr) as (Hi & Hb & Hw).
    split; [|split]; auto. unfold insert. rewrite map_app, map_map.
    apply in_or_app. left. exact Hb.
  - destruct (add_bowler_tables db i bc) as [flags ->].
    cbn [innings batsmen bowlers balls].
    intros r Hr. destruct (H r Hr) as (Hi & Hb & Hw).
    split; [|split]; auto. unfold insert. rewrite map_app, map_map.
    apply in_or_app. left. exact Hw.
  - destruct (add_ball_tables db i ball) as [->|(s & w & n & Hrows & ->)];
      [exact H|].
    apply charged_rows_some in Hrows. destruct Hrows as (Hs & Hw & Hn).
    cbn [innings batsmen bowlers balls].
    rewrite (update_keys Innings.id) by apply inning_row_after_key.
    rewrite (map_update_same batsman_key).
    2:{ intros r. unfold batsman_key.
        now destruct (striker_row_after_key ball r) as (-> & -> & _). }
    rewrite (map_update_same bowler_key).
    2:{ intros r. unfold bowler_key.
        now destruct (bowler_row_after_key ball (Bowlers.balls w) r)
          as (-> & -> & _). }
    intros r Hr. unfold insert in Hr. apply in_app_or in Hr.
    destruct Hr as [Hr|[<-|[]]]; [now apply H|].
    cbn [ball_record Balls.inning_id Balls.batsman_id Balls.bowler_id].
    unfold striker_of, current_bowler_of, inning_of, fetchone in *.
    apply find_some in Hs, Hw, Hn.
    destruct Hs as [Hs Hsi], Hw as [Hw Hwi], Hn as [Hn Hni].
    unfold striker_in in Hsi. unfold current_in in Hwi.
    unfold inning_has_id in Hni.
    apply andb_true_iff in Hsi, Hwi. destruct Hsi as [Hsi _], Hwi as [Hwi _].
    apply Z.eqb_eq in Hsi, Hwi, Hni.
    split; [|split].
    + rewrite <- Hni. now apply in_map.
    + rewrite <- Hsi. now apply (in_map batsman_key).
    + rewrite <- Hwi. now apply (in_map bowler_key).
  - destruct (toggle_striker_tables db k) as [flags ->].
    cbn [innings batsmen bowlers balls]. rewrite map_map. exact H.
  - destruct (next_inning_tables db k) as [->|(m & _ & _ & ->)]; [exact H|].
    cbn [innings batsmen bowlers balls].
    intros r Hr. destruct (H r Hr) as (Hi & Hb & Hw).
    rewrite ids_of_insert. unfold insert. split; [|split]; auto.
    apply in_or_app. now left.
  - rewrite complete_match_tables. exact H.
Qed.

Lemma split_of_insert {A : Type} (x r : A) (t pre post : list A) :
  insert x t = (pre ++ r :: post)%list ->
  (post = [] /\ pre = t /\ r = x) \/
  (exists post', post = insert x post' /\ t = (pre ++ r :: post')%list).
Proof.
  unfold insert. intros H.
  destruct post as [|y post] using rev_ind.
  - left. apply app_inj_tail in H. destruct H as [-> ->]. auto.
  - right. exists post. clear IHpost.
    replace (pre ++ r :: post ++ [y])%list
      with ((pre ++ r :: post) ++ [y])%list in H
      by (rewrite <- app_assoc; reflexivity).
    apply app_inj_tail in H. destruct H as [-> ->]. auto.
Qed.

Lemma handle_deliveries_addressed r db :
  ledger_invariant db ->
  deliveries_addressed db -> deliveries_addressed (handle r db).
Proof.
  intros [Hcount _] H. pose proof (ledger_untouched r db) as Hu.
  unfold deliveries_addressed in *.
  destruct r as [mc|i bc|i bc|i ball|k|k|k wn];
    try (rewrite (proj2 Hu); exact H).
  - destruct (create_match_tables db mc) as [->| ->]; exact H.
  - destruct (add_ball_tables db i ball) as [->|(s & w & n & Hrows & ->)];
      [exact H|].
    apply charged_rows_some in Hrows. destruct Hrows as (_ & _ & Hn).
    cbn [balls]. intros pre r post Hsplit.
    apply split_of_insert in Hsplit.
    destruct Hsplit as [(_ & -> & ->)|(post' & _ & Hsplit)];
      [|now apply (H pre r post')].
    cbn [ball_record Balls.inning_id Balls.over_number Balls.ball_number].
    unfold inning_of, fetchone in Hn. apply find_some in Hn.
    destruct Hn as [Hin Hid]. unfold inning_has_id in Hid.
    apply Z.eqb_eq in Hid. rewrite (Hcount n Hin), Hid.
    unfold delivery_count. auto.
  - destruct (next_inning_tables db k) as [->|(m & _ & _ & ->)]; exact H.
Qed.

(** ** Sums over a table *)

Section Sums.

Context {A : Type}.
Variables (p : A -> bool) (f : A -> Z).

Lemma sum_where_insert (r : A) (t : list A) :
  sum_where p f (insert r t)
  = sum_where p f t + (if p r then f r else 0).
Proof.
  unfold sum_where, insert. induction t as [|x t IH]; cbn [app fold_right].
  - lia.
  - rewrite IH. lia.
Qed.

Lemma sum_where_map (g : A -> A) (t : list A) :
  (forall r, p (g r) = p r) -> (forall r, f (g r) = f r) ->
  sum_where p f (map g t) = sum_where p f t.
Proof.
  intros Hp Hf. unfold sum_where.
  induction t as [|x t IH]; cbn [map fold_right]; [reflexivity|].
  now rewrite IH, Hp, Hf.
Qed.

Lemma sum_where_none (t : list A) :
  (forall r, In r t -> p r = false) -> sum_where p f t = 0.
Proof.
  unfold sum_where. induction t as [|x t IH]; intros H; [reflexivity|].
  cbn [fold_right]. rewrite (H x) by now left.
  rewrite IH; [reflexivity|]. intros r Hr. apply H. now right.
Qed.

Lemma sum_where_update_other (w : A -> bool) (g : A -> A) (t : list A) :
  (forall r, In r t -> w r = true ->
     (if p (g r) then f (g r) else 0) = (if p r then f r else 0)) ->
  sum_where p f (update w g t) = sum_where p f t.
Proof.
  unfold sum_where, update.
  induction t as [|x t IH]; intros H; [reflexivity|].
  cbn [map fold_right]. rewrite IH by (intros r Hr; apply H; now right).
  destruct (w x) eqn:E; [|reflexivity]. now rewrite (H x) by (auto; now left).
Qed.

(** Rewriting the one row that carries a unique key moves the sum by that
    row's contribution. *)
Lemma sum_where_update_unique (key : A -> Z) (g : A -> A) (b : A)
  (t : list A) :
  NoDup (map key t) -> In b t ->
  sum_where p f (update (fun r => key r =? key b) g t)
  = sum_where p f t
    + ((if p (g b) then f (g b) else 0) - (if p b then f b else 0)).
Proof.
  unfold sum_where, update.
  induction t as [|x t IH]; intros Hnd Hin; [destruct Hin|].
  inversion Hnd as [|? ? Hnotin Hnd']; subst.
  cbn [map fold_right]. destruct Hin as [->|Hin].
  - rewrite Z.eqb_refl.
    fold (update (fun r => key r =? key b) g t).
    fold (sum_where p f (update (fun r => key r =? key b) g t)).
    rewrite sum_where_update_other.
    + unfold sum_where. lia.
    + intros r Hr E. apply Z.eqb_eq in E. exfalso. apply Hnotin.
      rewrite <- E. now apply in_map.
  - rewrite (IH Hnd' Hin).
    assert (E : (key x =? key b) = false).
    { apply Z.eqb_neq. intros E. apply Hnotin. rewrite E. now apply in_map. }
    rewrite E. lia.
Qed.

End Sums.

Lemma fetchone_In {A : Type} (q : A -> bool) (t : list A) (x : A) :
  fetchone q t = Some x -> In x t.
Proof. unfold fetchone. intros H. apply find_some in H. tauto. Qed.

(** ** Run totals that are still exact *)

Lemma sql_add_Exact a b t :
  sql_add a b = Exact t -> exists z, a = Exact z /\ t = z + b.
Proof.
  destruct a as [z|]; cbn [sql_add]; [|discriminate].
  destruct (fits_int64 (z + b)); [|discriminate].
  intros [= <-]. eauto.
Qed.

Lemma sql_add_value a b :
  sql_add a b <> Inexact ->
  a <> Inexact /\ value (sql_add a b) = value a + b.
Proof.
  destruct a as [z|]; cbn [sql_add]; [|intros H; now contradiction H].
  destruct (fits_int64 (z + b)); [|intros H; now contradiction H].
  intros _. split; [discriminate|reflexivity].
Qed.

Lemma In_update {A : Type} (w : A -> bool) (f : A -> A) (t : list A) (r : A) :
  In r t -> In (if w r then f r else r) (update w f t).
Proof.
  intros H. unfold update.
  now apply (in_map (fun r => if w r then f r else r)).
Qed.

Lemma In_insert {A : Type} (x r : A) (t : list A) :
  In r t -> In r (insert x t).
Proof. intros H. unfold insert. apply in_or_app. now left. Qed.

(** What a delivery does to the run columns it is charged to, as long as
    they stay exact. *)
Lemma striker_runs_value ball b :
  Batsmen.runs (striker_row_after ball b) <> Inexact ->
  Batsmen.runs b <> Inexact /\
  value (Batsmen.runs (striker_row_after ball b))
  = value (Batsmen.runs b)
    + (if BallUpdate.is_extra ball then 0 else BallUpdate.runs ball).
Proof.
  rewrite striker_runs_after. destruct (BallUpdate.is_extra ball).
  - intros H. split; [exact H|lia].
  - apply sql_add_value.
Qed.

Lemma bowler_runs_given_value ball k w :
  Bowlers.runs_given (bowler_row_after ball k w) <> Inexact ->
  Bowlers.runs_given w <> Inexact /\
  value (Bowlers.runs_given (bowler_row_after ball k w))
  = value (Bowlers.runs_given w) + BallUpdate.runs ball.
Proof. rewrite bowler_runs_given_after. apply sql_add_value. Qed.

Lemma inning_total_runs_value ball n :
  Innings.total_runs (inning_row_after ball n) <> Inexact ->
  Innings.total_runs n <> Inexact /\
  value (Innings.total_runs (inning_row_after ball n))
  = value (Innings.total_runs n) + BallUpdate.runs ball.
Proof. rewrite inning_total_runs_after. apply sql_add_value. Qed.

Lemma inning_extras_value ball n :
  Innings.extras (inning_row_after ball n) <> Inexact ->
  Innings.extras n <> Inexact /\
  value (Innings.extras (inning_row_after ball n))
  = value (Innings.extras n)
    + (if BallUpdate.is_extra ball then BallUpdate.runs ball else 0).
Proof.
  rewrite inning_extras_after. destruct (BallUpdate.is_extra ball).
  - apply sql_add_value.
  - intros H. split; [exact H|lia].
Qed.

(** A run total never comes back from floating point: when every run
    total is exact after a request, every one was exact before it. *)
Lemma handle_runs_exact_back q db :
  runs_exact (handle q db) -> runs_exact db.
Proof.
  destruct q as [mc|i bc|i bc|i ball|k|k|k wn].
  - destruct (create_match_tables db mc) as [->| ->]; [auto|].
    intros (Hn & Hb & Hw). split; [|split; assumption].
    intros n Hin. apply Hn. cbn [innings]. now apply In_insert.
  - destruct (add_batsman_tables db i bc) as [flags ->].
    intros (Hn & Hb & Hw). split; [exact Hn|split; [|exact Hw]].
    intros b Hin.
    apply (Hb (Batsmen.set_is_striker (flags b) b)). cbn [batsmen].
    apply In_insert.
    now apply (in_map (fun r => Batsmen.set_is_striker (flags r) r)).
  - destruct (add_bowler_tables db i bc) as [flags ->].
    intros (Hn & Hb & Hw). split; [exact Hn|split; [exact Hb|]].
    intros w Hin.
    apply (Hw (Bowlers.set_is_current (flags w) w)). cbn [bowlers].
    apply In_insert.
    now apply (in_map (fun r => Bowlers.set_is_current (flags r) r)).
  - destruct (add_ball_tables db i ball) as [->|(s & w & n & _ & ->)];
      [auto|].
    intros (Hn & Hb & Hw). cbn [innings batsmen bowlers] in Hn, Hb, Hw.
    split; [|split].
    + intros n0 Hin.
      pose proof (Hn _ (In_update (inning_has_id i) (inning_row_after ball)
                          _ _ Hin)) as [H1 H2].
      destruct (inning_has_id i n0); [|auto].
      apply inning_total_runs_value in H1. apply inning_extras_value in H2.
      tauto.
    + intros b Hin.
      pose proof (Hb _ (In_update (batsman_has_id (Batsmen.id s))
                          (striker_row_after ball) _ _ Hin)) as H1.
      destruct (batsman_has_id (Batsmen.id s) b); [|auto].
      apply striker_runs_value in H1. tauto.
    + intros w0 Hin.
      pose proof (Hw _ (In_update (bowler_has_id (Bowlers.id w))
                          (bowler_row_after ball (Bowlers.balls w))
                          _ _ Hin)) as H1.
      destruct (bowler_has_id (Bowlers.id w) w0); [|auto].
      apply bowler_runs_given_value in H1. tauto.
  - destruct (toggle_striker_tables db k) as [flags ->].
    intros (Hn & Hb & Hw). split; [exact Hn|split; [|exact Hw]].
    intros b Hin.
    apply (Hb (Batsmen.set_is_striker (flags b) b)). cbn [batsmen].
    now apply (in_map (fun r => Batsmen.set_is_striker (flags r) r)).
  - destruct (next_inning_tables db k) as [->|(m & _ & _ & ->)]; [auto|].
    intros (Hn & Hb & Hw). split; [|split; assumption].
    intros n Hin. apply Hn. cbn [innings]. now apply In_insert.
  - rewrite complete_match_tables. auto.
Qed.

Lemma serve_runs_exact_back rs : forall db,
  runs_exact (serve rs db) -> runs_exact db.
Proof.
  induction rs as [|r rs IH]; intros db H; [exact H|].
  rewrite serve_cons in H. eauto using handle_runs_exact_back.
Qed.

(** ** Innings totals and the delivery records *)

Lemma handle_totals_from_records q db :
  delivery_refs db ->
  totals_from_records db -> totals_from_records (handle q db).
Proof.
  intros Hrefs H. pose proof (ledger_untouched q db) as Hu.
  assert (Hnew : forall row db',
             innings db' = insert row (innings db) ->
             balls db' = balls db ->
             Innings.id row = lastrowid (map Innings.id (innings db)) ->
             Innings.total_runs row = Exact 0 ->
             Innings.extras row = Exact 0 ->
             Innings.total_wickets row = 0 ->
             totals_from_records db').
  { intros row db' Hi Hb Hid Hr He Hw. unfold totals_from_records.
    rewrite Hi, Hb. intros n Hn. unfold insert in Hn.
    apply in_app_or in Hn. destruct Hn as [Hn|[<-|[]]]; [now apply H|].
    rewrite Hr, He, Hw.
    assert (Hnone : forall r, In r (balls db) ->
                      ball_in (Innings.id row) r = false).
    { intros r Hr'. apply Z.eqb_neq. intros E.
      destruct (Hrefs r Hr') as (Hin & _). rewrite E, Hid in Hin.
      revert Hin. apply lastrowid_fresh. }
    split; [|split]; [intros t [= <-]|intros e [= <-]|];
      symmetry; apply sum_where_none; intros r Hr';
      rewrite (Hnone r Hr'); reflexivity. }
  destruct q as [mc|i bc|i bc|i ball|k|k|k wn];
    try (unfold totals_from_records; rewrite (proj1 Hu), (proj2 Hu);
         exact H).
  - destruct (create_match_tables db mc) as [->| ->]; [exact H|].
    eapply Hnew; reflexivity.
  - destruct (add_ball_tables db i ball) as [->|(s & w & n & _ & ->)];
      [exact H|].
    unfold totals_from_records. cbn [innings balls].
    intros n' Hn'. apply update_In in Hn'. destruct Hn' as (n0 & Hn0 & ->).
    rewrite !sum_where_insert.
    assert (Hb : forall j, ball_in j (ball_record db i ball s w n) = (i =? j))
      by reflexivity.
    cbn [ball_record Balls.runs Balls.is_extra Balls.is_wicket].
    destruct (H n0 Hn0) as (Hr & He & Hw).
    unfold inning_has_id. destruct (Innings.id n0 =? i) eqn:E.
    + rewrite inning_row_after_key, !Hb, Z.eqb_sym, E. cbn [andb].
      rewrite inning_total_runs_after, inning_extras_after.
      assert (Ewk : Innings.total_wickets (inning_row_after ball n0)
                    = Innings.total_wickets n0
                      + (if BallUpdate.is_wicket ball then 1 else 0))
        by (by_cases_on ball).
      rewrite Ewk, Hw. split; [|split; [|reflexivity]].
      * intros t Ht. apply sql_add_Exact in Ht.
        destruct Ht as (z & Hz & ->). now rewrite (Hr z Hz) at 1.
      * intros e. destruct (BallUpdate.is_extra ball).
        -- intros Ht. apply sql_add_Exact in Ht.
           destruct Ht as (z & Hz & ->). now rewrite (He z Hz) at 1.
        -- intros Hz. rewrite (He e Hz) at 1. lia.
    + rewrite !Hb, Z.eqb_sym, E. cbn [andb]. rewrite Hw.
      split; [|split; [|lia]].
      * intros t Ht. rewrite (Hr t Ht) at 1. lia.
      * intros e Hz. rewrite (He e Hz) at 1. lia.
  - destruct (next_inning_tables db k) as [->|(m & _ & _ & ->)]; [exact H|].
    eapply Hnew; reflexivity.
Qed.

(** ** Run totals that stay exact *)

Lemma fits_int64_iff z :
  fits_int64 z = true
  <-> -9223372036854775808 <= z <= 9223372036854775807.
Proof.
  unfold fits_int64. rewrite andb_true_iff, !Z.leb_le. tauto.
Qed.

Lemma sum_where_nonneg {A : Type} (p : A -> bool) (f : A -> Z) (t : list A) :
  (forall r, In r t -> p r = true -> 0 <= f r) ->
  0 <= sum_where p f t.
Proof.
  unfold sum_where. induction t as [|x t IH]; intros H; cbn [fold_right].
  - lia.
  - specialize (IH (fun r Hr => H r (or_intror Hr))).
    pose proof (H x (or_introl eq_refl)) as Hx.
    destruct (p x); [specialize (Hx eq_refl)|]; lia.
Qed.

Lemma sum_where_narrowed {A : Type} (p q : A -> bool) (f : A -> Z)
  (t : list A) :
  (forall r, In r t -> p r = true -> 0 <= f r) ->
  0 <= sum_where (fun r => p r && q r) f t <= sum_where p f t.
Proof.
  unfold sum_where. induction t as [|x t IH]; intros H; cbn [fold_right].
  - lia.
  - specialize (IH (fun r Hr => H r (or_intror Hr))).
    pose proof (H x (or_introl eq_refl)) as Hx.
    destruct (p x); [specialize (Hx eq_refl)|]; cbn [andb];
      [destruct (q x)|]; lia.
Qed.

Lemma handle_totals_exact q db :
  delivery_refs db -> totals_exact db -> totals_exact (handle q db).
Proof.
  intros Hrefs H. pose proof (ledger_untouched q db) as Hu.
  assert (Hnew : forall row db',
             innings db' = insert row (innings db) ->
             balls db' = balls db ->
             Innings.id row = lastrowid (map Innings.id (innings db)) ->
             Innings.total_runs row = Exact 0 ->
             Innings.extras row = Exact 0 ->
             totals_exact db').
  { intros row db' Hi Hb Hid Hr He. unfold totals_exact.
    rewrite Hi, Hb. intros n Hn. unfold insert in Hn.
    apply in_app_or in Hn. destruct Hn as [Hn|[<-|[]]]; [now apply H|].
    intros _ _. rewrite Hr, He.
    assert (Hnone : forall r, In r (balls db) ->
                      ball_in (Innings.id row) r = false).
    { intros r Hr'. apply Z.eqb_neq. intros E.
      destruct (Hrefs r Hr') as (Hin & _). rewrite E, Hid in Hin.
      revert Hin. apply lastrowid_fresh. }
    rewrite !sum_where_none; auto.
    intros r Hr'. now rewrite (Hnone r Hr'). }
  destruct q as [mc|i bc|i bc|i ball|k|k|k wn];
    try (unfold totals_exact; rewrite (proj1 Hu), (proj2 Hu); exact H).
  - destruct (create_match_tables db mc) as [->| ->]; [exact H|].
    eapply Hnew; reflexivity.
  - destruct (add_ball_tables db i ball) as [->|(s & w & n & _ & ->)];
      [exact H|].
    unfold totals_exact. cbn [innings balls].
    intros n' Hn'. apply update_In in Hn'. destruct Hn' as (n0 & Hn0 & ->).
    assert (Hb : forall j, ball_in j (ball_record db i ball s w n) = (i =? j))
      by reflexivity.
    assert (Hid : Innings.id (if inning_has_id i n0
                              then inning_row_after ball n0 else n0)
                  = Innings.id n0)
      by (destruct (inning_has_id i n0);
          [apply inning_row_after_key|reflexivity]).
    rewrite Hid, !sum_where_insert, !Hb.
    cbn [ball_record Balls.runs Balls.is_extra].
    intros Hnn Hfit.
    assert (Hold : forall r, In r (balls db) ->
                     ball_in (Innings.id n0) r = true -> 0 <= Balls.runs r)
      by (intros r Hr; apply Hnn; now apply In_insert).
    pose proof (sum_where_nonneg _ _ _ Hold) as Hpos.
    pose proof (sum_where_narrowed _ Balls.is_extra _ _ Hold) as Hnarrow.
    specialize (H n0 Hn0 Hold).
    unfold inning_has_id.
    rewrite (Z.eqb_sym i (Innings.id n0)) in Hfit |- *.
    destruct (Innings.id n0 =? i) eqn:E; cbn [andb] in *.
    + assert (Hrec : 0 <= BallUpdate.runs ball).
      { apply (Hnn (ball_record db i ball s w n)).
        - unfold insert. apply in_or_app. right. now left.
        - now rewrite Hb, Z.eqb_sym. }
      apply fits_int64_iff in Hfit.
      destruct H as [Ht He]; [apply fits_int64_iff; lia|].
      rewrite inning_total_runs_after, inning_extras_after, Ht, He.
      cbn [sql_add].
      rewrite (proj2 (fits_int64_iff _)) by lia. split; [reflexivity|].
      destruct (BallUpdate.is_extra ball).
      * rewrite (proj2 (fits_int64_iff _)) by lia. reflexivity.
      * now rewrite Z.add_0_r.
    + rewrite !Z.add_0_r in *. now apply H.
  - destruct (next_inning_tables db k) as [->|(m & _ & _ & ->)]; [exact H|].
    eapply Hnew; reflexivity.
Qed.

(** ** The batting and bowling cards *)

(** A new innings row with a fresh id and zero totals keeps the cards
    adding up. *)
Lemma cards_add_up_new_inning db db' row :
  tallies_add_up db /\ runs_add_up db ->
  (runs_exact db' -> runs_exact db) ->
  innings db' = insert row (innings db) ->
  batsmen db' = batsmen db -> bowlers db' = bowlers db ->
  Innings.id row = lastrowid (map Innings.id (innings db)) ->
  Innings.total_runs row = Exact 0 -> Innings.extras row = Exact 0 ->
  Innings.total_balls row = 0 -> Innings.total_wickets row = 0 ->
  tallies_add_up db' /\ runs_add_up db'.
Proof.
  intros [[Hsum Hzero] Hruns] Hback Hi Hb Hw Hid Hr He Hbl Hwk.
  unfold tallies_add_up, runs_add_up, batting_runs, batting_balls,
    bowling_runs, bowling_tallies in *.
  rewrite Hi, Hb, Hw.
  pose proof (Hzero _ (lastrowid_fresh (map Innings.id (innings db))))
    as (Z1 & Z2 & Z3 & Z4).
  split; [split|].
  - intros n Hn. unfold insert in Hn. apply in_app_or in Hn.
    destruct Hn as [Hn|[<-|[]]]; [now apply Hsum|].
    rewrite Hbl, Hwk, Hid. auto.
  - intros i Hi'. apply Hzero. intros Hin. apply Hi'.
    rewrite ids_of_insert. now apply In_insert.
  - intros Hex n Hn. specialize (Hruns (Hback Hex)).
    unfold insert in Hn. apply in_app_or in Hn.
    destruct Hn as [Hn|[<-|[]]]; [now apply Hruns|].
    rewrite Hr, He, Hid, Z3, Z4. auto.
Qed.

(** Rewriting flags leaves every sum of a card as it was. *)
Lemma card_sums_flags i db db' sflags cflags :
  batsmen db'
  = map (fun r => Batsmen.set_is_striker (sflags r) r) (batsmen db) ->
  bowlers db'
  = map (fun r => Bowlers.set_is_current (cflags r) r) (bowlers db) ->
  batting_runs i db' = batting_runs i db /\
  batting_balls i db' = batting_balls i db /\
  bowling_runs i db' = bowling_runs i db /\
  bowling_tallies i db' = bowling_tallies i db.
Proof.
  intros Hb Hw.
  unfold batting_runs, batting_balls, bowling_runs, bowling_tallies.
  rewrite Hb, Hw.
  rewrite !sum_where_map by (intros []; reflexivity). auto.
Qed.

(** So does a participant who comes in with zero figures. *)
Lemma card_sums_new_rows i db db' sflags cflags bs ws :
  batsmen db'
  = (map (fun r => Batsmen.set_is_striker (sflags r) r) (batsmen db)
     ++ bs)%list ->
  bowlers db'
  = (map (fun r => Bowlers.set_is_current (cflags r) r) (bowlers db)
     ++ ws)%list ->
  (forall b, In b bs -> Batsmen.runs b = Exact 0 /\ Batsmen.balls b = 0) ->
  (forall w, In w ws ->
     Bowlers.runs_given w = Exact 0 /\ Bowlers.balls w = 0 /\
     Bowlers.wickets w = 0) ->
  batting_runs i db' = batting_runs i db /\
  batting_balls i db' = batting_balls i db /\
  bowling_runs i db' = bowling_runs i db /\
  bowling_tallies i db' = bowling_tallies i db.
Proof.
  intros Hb Hw Hbs Hws.
  assert (Hadd : forall (A : Type) (p : A -> bool) (f : A -> Z) t extra,
             (forall r, In r extra -> f r = 0) ->
             sum_where p f (t ++ extra)%list = sum_where p f t).
  { intros A p f t extra H0. unfold sum_where.
    induction t as [|x t IH]; cbn [app fold_right].
    - induction extra as [|y extra IH]; [reflexivity|].
      cbn [fold_right]. rewrite IH by (intros r Hr; apply H0; now right).
      rewrite (H0 y) by now left. now destruct (p y).
    - now rewrite IH. }
  unfold batting_runs, batting_balls, bowling_runs, bowling_tallies.
  rewrite Hb, Hw.
  rewrite !Hadd;
    try (intros r Hr; try apply Hbs in Hr; try apply Hws in Hr;
         destruct Hr as (H1 & H2); try destruct H2 as (H2 & H3);
         first [now rewrite H1 | assumption]).
  rewrite !sum_where_map by (intros []; reflexivity). auto.
Qed.

Lemma handle_cards_add_up q db :
  primary_keys db ->
  tallies_add_up db /\ runs_add_up db ->
  tallies_add_up (handle q db) /\ runs_add_up (handle q db).
Proof.
  intros (_ & _ & Hkb & Hkw & _) H.
  apply ids_consecutive_NoDup in Hkb, Hkw.
  pose proof (handle_runs_exact_back q db) as Hback.
  assert (Hsame : forall db',
             innings db' = innings db ->
             (runs_exact db' -> runs_exact db) ->
             (forall j,
                batting_runs j db' = batting_runs j db /\
                batting_balls j db' = batting_balls j db /\
                bowling_runs j db' = bowling_runs j db /\
                bowling_tallies j db' = bowling_tallies j db) ->
             tallies_add_up db' /\ runs_add_up db').
  { intros db' Hi Hb Hj. destruct H as [[Hsum Hzero] Hruns].
    unfold tallies_add_up, runs_add_up. rewrite Hi. split; [split|].
    - intros n Hn. destruct (Hj (Innings.id n)) as (_ & -> & _ & ->).
      now apply Hsum.
    - intros j Hn. destruct (Hj j) as (-> & -> & -> & ->).
      now apply Hzero.
    - intros Hex n Hn. destruct (Hj (Innings.id n)) as (-> & _ & -> & _).
      now apply Hruns; [apply Hb|]. }
  destruct q as [mc|i bc|i bc|i ball|k|k|k wn].
  - (* create_match *)
    destruct (create_match_tables db mc) as [E|E]; rewrite E in *;
      [exact H|].
    eapply cards_add_up_new_inning; [exact H|exact Hback|reflexivity..].
  - (* add_batsman *)
    destruct (add_batsman_tables db i bc) as [flags E]. rewrite E in *.
    apply Hsame; [reflexivity|exact Hback|]. intros j.
    apply (card_sums_new_rows j db _ flags Bowlers.is_current
             [new_batsman db i bc] []).
    + reflexivity.
    + cbn [bowlers]. rewrite app_nil_r. symmetry.
      erewrite map_ext; [apply map_id|]. apply set_is_current_same.
    + intros b [<-|[]]. split; reflexivity.
    + intros w [].
  - (* add_bowler *)
    destruct (add_bowler_tables db i bc) as [flags E]. rewrite E in *.
    apply Hsame; [reflexivity|exact Hback|]. intros j.
    apply (card_sums_new_rows j db _ Batsmen.is_striker flags
             [] [new_bowler db i bc]).
    + cbn [batsmen]. rewrite app_nil_r. symmetry.
      erewrite map_ext; [apply map_id|]. apply set_is_striker_same.
    + reflexivity.
    + intros b [].
    + intros w [<-|[]]. repeat split; reflexivity.
  - (* add_ball *)
    destruct (add_ball_tables db i ball) as [->|(s & w & n & Hrows & E)];
      [exact H|].
    rewrite E in Hback |- *. clear E.
    destruct H as [[Hsum Hzero] Hruns].
    apply charged_rows_some in Hrows. destruct Hrows as (Hs & Hw & Hn).
    pose proof (fetchone_In _ _ _ Hs) as Hsin.
    pose proof (fetchone_In _ _ _ Hw) as Hwin.
    pose proof (fetchone_In _ _ _ Hn) as Hnin.
    apply fetchone_some_holds in Hs, Hw, Hn.
    unfold striker_in in Hs. unfold current_in in Hw.
    unfold inning_has_id in Hn.
    apply andb_true_iff in Hs, Hw. destruct Hs as [Hs _], Hw as [Hw _].
    apply Z.eqb_eq in Hs, Hw, Hn.
    set (db' := mkDB (matches db)
                  (update (inning_has_id i) (inning_row_after ball)
                     (innings db))
                  (update (batsman_has_id (Batsmen.id s))
                     (striker_row_after ball) (batsmen db))
                  (update (bowler_has_id (Bowlers.id w))
                     (bowler_row_after ball (Bowlers.balls w)) (bowlers db))
                  (insert (ball_record db i ball s w n) (balls db))) in *.
    assert (Ebb : forall j,
               batting_balls j db'
               = batting_balls j db
                 + (if j =? i
                    then (if legal_delivery ball then 1 else 0) else 0)).
    { intros j. unfold batting_balls, db'. cbn [batsmen].
      unfold batsman_has_id.
      rewrite (sum_where_update_unique _ _ Batsmen.id _ s _ Hkb Hsin).
      unfold batsman_in.
      destruct (striker_row_after_key ball s) as (_ & -> & _).
      rewrite Hs, striker_balls_after, (Z.eqb_sym i j).
      destruct (j =? i); lia. }
    assert (Ebr : forall j,
               batting_runs j db'
               = batting_runs j db
                 + (if j =? i
                    then value (Batsmen.runs (striker_row_after ball s))
                         - value (Batsmen.runs s)
                    else 0)).
    { intros j. unfold batting_runs, db'. cbn [batsmen].
      unfold batsman_has_id.
      rewrite (sum_where_update_unique _ _ Batsmen.id _ s _ Hkb Hsin).
      unfold batsman_in.
      destruct (striker_row_after_key ball s) as (_ & -> & _).
      rewrite Hs, (Z.eqb_sym i j).
      destruct (j =? i); lia. }
    assert (Ewt : forall j,
               bowling_tallies j db'
               = (fst (bowling_tallies j db)
                  + (if j =? i
                     then (if legal_delivery ball then 1 else 0) else 0),
                  snd (bowling_tallies j db)
                  + (if j =? i
                     then (if BallUpdate.is_wicket ball then 1 else 0)
                     else 0))).
    { intros j. unfold bowling_tallies, db'. cbn [bowlers fst snd].
      unfold bowler_has_id.
      rewrite !(sum_where_update_unique _ _ Bowlers.id _ w _ Hkw Hwin).
      unfold bowler_in.
      destruct (bowler_row_after_key ball (Bowlers.balls w) w)
        as (_ & -> & _).
      rewrite Hw, bowler_balls_after, bowler_wickets_after, (Z.eqb_sym i j).
      destruct (j =? i); tuple_eq. }
    assert (Ewr : forall j,
               bowling_runs j db'
               = bowling_runs j db
                 + (if j =? i
                    then value (Bowlers.runs_given
                                  (bowler_row_after ball (Bowlers.balls w) w))
                         - value (Bowlers.runs_given w)
                    else 0)).
    { intros j. unfold bowling_runs, db'. cbn [bowlers].
      unfold bowler_has_id.
      rewrite (sum_where_update_unique _ _ Bowlers.id _ w _ Hkw Hwin).
      unfold bowler_in.
      destruct (bowler_row_after_key ball (Bowlers.balls w) w)
        as (_ & -> & _).
      rewrite Hw, (Z.eqb_sym i j).
      destruct (j =? i); lia. }
    split; [split|].
    + intros n' Hn'. rewrite Ebb, Ewt. cbn [innings db'] in Hn'.
      apply update_In in Hn'. destruct Hn' as (n0 & Hn0 & ->).
      destruct (Hsum n0 Hn0) as [Hb0 Hw0].
      unfold inning_has_id. destruct (Innings.id n0 =? i) eqn:E.
      * rewrite inning_row_after_key, E, Hb0, Hw0. cbn [fst snd].
        rewrite inning_total_balls_after.
        assert (Ewk : Innings.total_wickets (inning_row_after ball n0)
                      = Innings.total_wickets n0
                        + (if BallUpdate.is_wicket ball then 1 else 0))
          by (by_cases_on ball).
        rewrite Ewk. split; tuple_eq.
      * rewrite E, Hb0, Hw0. cbn [fst snd]. split; tuple_eq.
    + intros j Hj. cbn [innings db'] in Hj.
      rewrite (update_keys Innings.id) in Hj by apply inning_row_after_key.
      rewrite Ebb, Ebr, Ewt, Ewr.
      destruct (Hzero j Hj) as (-> & -> & -> & ->). cbn [fst snd].
      assert (E : (j =? i) = false).
      { apply Z.eqb_neq. intros ->. apply Hj. rewrite <- Hn.
        now apply in_map. }
      rewrite E. auto.
    + intros Hex n' Hn'. specialize (Hruns (Hback Hex)).
      destruct Hex as (Xn & Xb & Xw). cbn [innings batsmen bowlers db'] in *.
      pose proof (Xb _ (In_update (batsman_has_id (Batsmen.id s))
                          (striker_row_after ball) _ _ Hsin)) as Xs.
      pose proof (Xw _ (In_update (bowler_has_id (Bowlers.id w))
                          (bowler_row_after ball (Bowlers.balls w))
                          _ _ Hwin)) as Xc.
      unfold batsman_has_id in Xs. unfold bowler_has_id in Xc.
      rewrite Z.eqb_refl in Xs, Xc.
      apply striker_runs_value in Xs. destruct Xs as [_ Xs].
      apply bowler_runs_given_value in Xc. destruct Xc as [_ Xc].
      rewrite Ebr, Ewr, Xs, Xc.
      pose proof (Xn _ Hn') as [X1 X2].
      apply update_In in Hn'. destruct Hn' as (n0 & Hn0 & ->).
      destruct (Hruns n0 Hn0) as [Hb0 Hw0].
      unfold inning_has_id in *. destruct (Innings.id n0 =? i) eqn:E.
      * apply inning_total_runs_value in X1. destruct X1 as [_ X1].
        apply inning_extras_value in X2. destruct X2 as [_ X2].
        rewrite inning_row_after_key, E, X1, X2.
        destruct (BallUpdate.is_extra ball); lia.
      * rewrite E. lia.
  - (* toggle_striker *)
    destruct (toggle_striker_tables db k) as [flags E]. rewrite E in *.
    apply Hsame; [reflexivity|exact Hback|]. intros j.
    apply (card_sums_flags j db _ flags Bowlers.is_current).
    + reflexivity.
    + cbn [bowlers]. symmetry.
      erewrite map_ext; [apply map_id|]. apply set_is_current_same.
  - (* next_inning *)
    destruct (next_inning_tables db k) as [E|(m & _ & _ & E)];
      rewrite E in *; [exact H|].
    eapply cards_add_up_new_inning; [exact H|exact Hback|reflexivity..].
  - rewrite complete_match_tables in *.
    apply Hsame; [reflexivity|exact Hback|]. intros j. repeat split.
Qed.

(** ** Figures of one row *)

Lemma unique_by_key {A : Type} (key : A -> Z) (t : list A) (a b : A) :
  NoDup (map key t) -> In a t -> In b t -> key a = key b -> a = b.
Proof.
  induction t as [|x t IH]; intros Hnd Ha Hb E; [destruct Ha|].
  inversion Hnd as [|? ? Hnotin Hnd']; subst.
  destruct Ha as [->|Ha], Hb as [->|Hb]; auto.
  - exfalso. apply Hnotin. rewrite E. now apply in_map.
  - exfalso. apply Hnotin. rewrite <- E. now apply in_map.
Qed.

Lemma striker_row_after_sound ball b :
  (0 <= Batsmen.fours b /\ 0 <= Batsmen.sixes b /\
   Batsmen.fours b + Batsmen.sixes b <= Batsmen.balls b /\
   (Batsmen.is_out b = false -> Batsmen.out_type b = None)) ->
  0 <= Batsmen.fours (striker_row_after ball b) /\
  0 <= Batsmen.sixes (striker_row_after ball b) /\
  Batsmen.fours (striker_row_after ball b)
  + Batsmen.sixes (striker_row_after ball b)
  <= Batsmen.balls (striker_row_after ball b) /\
  (Batsmen.is_out (striker_row_after ball b) = false ->
   Batsmen.out_type (striker_row_after ball b) = None).
Proof.
  intros (H4 & H6 & Hb & Ho).
  rewrite striker_fours_after, striker_sixes_after, striker_balls_after.
  assert (Hout : Batsmen.is_out (striker_row_after ball b) = false ->
                 Batsmen.out_type (striker_row_after ball b) = None).
  { unfold striker_row_after.
    destruct (legal_delivery ball), (negb (BallUpdate.is_extra ball)),
      (BallUpdate.runs ball =? 4), (BallUpdate.runs ball =? 6),
      (BallUpdate.is_wicket ball); cbn; auto; discriminate. }
  unfold legal_delivery, counts_as_ball.
  destruct (BallUpdate.is_extra ball); cbn [negb andb orb];
    destruct (BallUpdate.runs ball =? 4) eqn:E4;
    destruct (BallUpdate.runs ball =? 6) eqn:E6;
    destruct (in_lb_b (BallUpdate.extra_type ball));
    repeat split; auto; lia.
Qed.

Lemma handle_figures_sound q db :
  primary_keys db -> figures_sound db -> figures_sound (handle q db).
Proof.
  intros (_ & _ & _ & Hkw & _) [Hbat Hbowl].
  apply ids_consecutive_NoDup in Hkw.
  destruct q as [mc|i bc|i bc|i ball|k|k|k wn].
  - destruct (create_match_tables db mc) as [->| ->]; split; assumption.
  - destruct (add_batsman_tables db i bc) as [flags ->].
    split; [|exact Hbowl]. cbn [batsmen]. intros b Hb.
    unfold insert in Hb. apply in_app_or in Hb.
    destruct Hb as [Hb|[<-|[]]].
    + apply in_map_iff in Hb. destruct Hb as (b0 & <- & Hb0).
      exact (Hbat b0 Hb0).
    + cbn. repeat split; lia.
  - destruct (add_bowler_tables db i bc) as [flags ->].
    split; [exact Hbat|]. cbn [bowlers]. intros w Hw.
    unfold insert in Hw. apply in_app_or in Hw.
    destruct Hw as [Hw|[<-|[]]].
    + apply in_map_iff in Hw. destruct Hw as (w0 & <- & Hw0).
      exact (Hbowl w0 Hw0).
    + cbn. repeat split; lia.
  - destruct (add_ball_tables db i ball) as [->|(s & w & n & Hrows & ->)];
      [split; assumption|].
    apply charged_rows_some in Hrows. destruct Hrows as (_ & Hw & _).
    apply fetchone_In in Hw.
    split; cbn [batsmen bowlers].
    + intros b Hb. apply update_In in Hb. destruct Hb as (b0 & Hb0 & ->).
      destruct (batsman_has_id _ b0); [|now apply Hbat].
      apply striker_row_after_sound. now apply Hbat.
    + intros w' Hw'. apply update_In in Hw'.
      destruct Hw' as (w0 & Hw0 & ->). unfold bowler_has_id.
      destruct (Bowlers.id w0 =? Bowlers.id w) eqn:E; [|now apply Hbowl].
      apply Z.eqb_eq in E.
      rewrite (unique_by_key Bowlers.id _ w0 w Hkw Hw0 Hw E).
      destruct (Hbowl w Hw) as (Hb & Hwk & Ho & Hm).
      rewrite bowler_balls_after, bowler_wickets_after, bowler_overs_after.
      assert (Hmd : Bowlers.maidens (bowler_row_after ball (Bowlers.balls w) w)
                    = Bowlers.maidens w) by (by_cases_on ball).
      rewrite Hmd.
      destruct (legal_delivery ball), (BallUpdate.is_wicket ball);
        repeat split; try lia; rewrite ?Z.add_0_r; auto.
  - destruct (toggle_striker_tables db k) as [flags ->].
    split; [|exact Hbowl]. cbn [batsmen]. intros b Hb.
    apply in_map_iff in Hb. destruct Hb as (b0 & <- & Hb0).
    exact (Hbat b0 Hb0).
  - destruct (next_inning_tables db k) as [->|(m & _ & _ & ->)];
      split; assumption.
  - rewrite complete_match_tables. split; assumption.
Qed.

(** ** Every reachable database is a sound scorebook *)

Lemma handle_scorebook q db : scorebook db -> scorebook (handle q db).
Proof.
  intros (Hk & Hl & Hm & Hr & Ha & Ht & Hc & Hf).
  refine (conj _ (conj _ (conj _ (conj _ (conj _ (conj _ (conj _ _))))))).
  - now apply handle_primary_keys.
  - now apply handle_ledger_invariant.
  - now apply handle_match_structure.
  - now apply handle_delivery_refs.
  - now apply handle_deliveries_addressed.
  - now apply handle_totals_from_records.
  - now apply handle_cards_add_up.
  - now apply handle_figures_sound.
Qed.

Lemma serve_scorebook rs : forall db, scorebook db -> scorebook (serve rs db).
Proof.
  induction rs as [|q rs IH]; intros db H; [exact H|].
  rewrite serve_cons. apply IH. now apply handle_scorebook.
Qed.

Lemma empty_db_scorebook : scorebook empty_db.
Proof.
  refine (conj _ (conj _ (conj _ (conj _ (conj _ (conj _ (conj _ _))))))).
  - repeat split.
  - split; intros ? [].
  - split; intros ? [].
  - intros ? [].
  - intros pre r post H. destruct pre; discriminate.
  - intros ? [].
  - split; [split; [intros ? []|]|intros _ ? []].
    intros i _. repeat split.
  - split; intros ? [].
Qed.

Lemma reachable_scorebook rs : scorebook (serve rs empty_db).
Proof. apply serve_scorebook, empty_db_scorebook. Qed.

Lemma serve_totals_exact rs : forall db,
  scorebook db -> totals_exact db -> totals_exact (serve rs db).
Proof.
  induction rs as [|q rs IH]; intros db Hs H; [exact H|].
  rewrite serve_cons. apply IH; [now apply handle_scorebook|].
  destruct Hs as (_ & _ & _ & Hrefs & _). now apply handle_totals_exact.
Qed.

Lemma reachable_totals_exact rs : totals_exact (serve rs empty_db).
Proof.
  apply serve_totals_exact; [apply empty_db_scorebook|]. intros ? [].
Qed.

(** X2. In every database reached from an empty one, each match has
    [current_inning] 1 with exactly one innings row (number 1, [team1]
    batting, [team2] bowling), or [current_inning] 2 with exactly two
    (the second numbered 2 with the teams swapped): never none, never a
    third. *)
Theorem matches_have_one_or_two_innings rs m :
  In m (matches (serve rs empty_db)) ->
  (Matches.current_inning m = 1 /\
   map inning_card (innings_of_match (Matches.id m) (serve rs empty_db))
   = [(1, Matches.team1 m, Matches.team2 m)]) \/
  (Matches.current_inning m = 2 /\
   map inning_card (innings_of_match (Matches.id m) (serve rs empty_db))
   = [(1, Matches.team1 m, Matches.team2 m);
      (2, Matches.team2 m, Matches.team1 m)]).
Proof.
  destruct (reachable_scorebook rs) as (_ & _ & [_ H] & _). apply H.
Qed.

(** X3. In every database reached from an empty one, each delivery record
    names an innings row that exists, and a batsman row and a bowler row
    that exist and are registered in that same innings -- although no
    foreign key is enforced. *)
Theorem delivery_records_refer_to_rows rs r :
  In r (balls (serve rs empty_db)) ->
  exists n b w,
    In n (innings (serve rs empty_db)) /\
    Innings.id n = Balls.inning_id r /\
    In b (batsmen (serve rs empty_db)) /\
    Batsmen.id b = Balls.batsman_id r /\
    Batsmen.inning_id b = Balls.inning_id r /\
    In w (bowlers (serve rs empty_db)) /\
    Bowlers.id w = Balls.bowler_id r /\
    Bowlers.inning_id w = Balls.inning_id r.
Proof.
  intros Hr.
  destruct (reachable_scorebook rs) as (_ & _ & _ & H & _).
  destruct (H r Hr) as (Hn & Hb & Hw).
  apply in_map_iff in Hn, Hb, Hw.
  destruct Hn as (n & En & Hn), Hb as (b & Eb & Hb), Hw as (w & Ew & Hw).
  unfold batsman_key in Eb. unfold bowler_key in Ew.
  injection Eb as Eb1 Eb2. injection Ew as Ew1 Ew2.
  exists n, b, w. repeat split; assumption.
Qed.

Lemma count_for_nonneg p k t : 0 <= count_for p k t.
Proof. unfold count_for. lia. Qed.

Lemma count_for_app p k t u :
  count_for p k (t ++ u) = count_for p k t + count_for p k u.
Proof. unfold count_for. rewrite filter_app, length_app. lia. Qed.

Lemma count_for_cons p k r t :
  count_for p k (r :: t)
  = (if (Balls.inning_id r =? k) && p r then 1 else 0) + count_for p k t.
Proof.
  unfold count_for. cbn [filter].
  destruct ((Balls.inning_id r =? k) && p r); cbn [List.length]; lia.
Qed.

(** X4. In every database reached from an empty one, the address stored
    with a delivery record is the number of legal deliveries recorded
    before it in the same innings, divided by six: [over_number] is the
    quotient, [ball_number] the remainder, so [ball_number] is always
    between 0 and 5 and [over_number] is never negative. *)
Theorem delivery_address_counts_earlier_legal_balls rs pre r post :
  balls (serve rs empty_db) = (pre ++ r :: post)%list ->
  Balls.over_number r
  = count_for legal_record (Balls.inning_id r) pre / 6 /\
  Balls.ball_number r
  = count_for legal_record (Balls.inning_id r) pre mod 6 /\
  0 <= Balls.over_number r /\
  0 <= Balls.ball_number r <= 5 /\
  Balls.over_number r * 6 + Balls.ball_number r
  = count_for legal_record (Balls.inning_id r) pre.
Proof.
  intros Hsplit.
  destruct (reachable_scorebook rs) as (_ & _ & _ & _ & H & _).
  destruct (H pre r post Hsplit) as [Ho Hb].
  pose proof (count_for_nonneg legal_record (Balls.inning_id r) pre) as Hc.
  pose proof (Z.mod_pos_bound
                (count_for legal_record (Balls.inning_id r) pre) 6) as Hm.
  pose proof (Z.div_mod
                (count_for legal_record (Balls.inning_id r) pre) 6) as Hd.
  pose proof (Z.div_pos
                (count_for legal_record (Balls.inning_id r) pre) 6) as Hq.
  rewrite Ho, Hb. repeat split; try lia.
Qed.

(** X5. In every database reached from an empty one, the delivery
    records of an innings are stored in the order of their addresses: a
    later record never has a smaller (over_number, ball_number) than an
    earlier one of the same innings, and has a strictly larger one when
    the earlier delivery was legal.  Only a wide, a no-ball or another
    uncounted extra shares its address with the delivery after it. *)
Theorem delivery_records_in_address_order rs pre r1 mid r2 post :
  balls (serve rs empty_db) = (pre ++ r1 :: mid ++ r2 :: post)%list ->
  Balls.inning_id r1 = Balls.inning_id r2 ->
  (Balls.over_number r1 < Balls.over_number r2 \/
   (Balls.over_number r1 = Balls.over_number r2 /\
    Balls.ball_number r1 <= Balls.ball_number r2)) /\
  (legal_record r1 = true ->
   Balls.over_number r1 < Balls.over_number r2 \/
   (Balls.over_number r1 = Balls.over_number r2 /\
    Balls.ball_number r1 < Balls.ball_number r2)).
Proof.
  intros Hsplit Hsame.
  destruct (reachable_scorebook rs) as (_ & _ & _ & _ & H & _).
  destruct (H pre r1 (mid ++ r2 :: post)%list Hsplit) as [Ho1 Hb1].
  assert (Hsplit2 : balls (serve rs empty_db)
                    = ((pre ++ r1 :: mid) ++ r2 :: post)%list)
    by (rewrite Hsplit, <- app_assoc; reflexivity).
  destruct (H _ r2 post Hsplit2) as [Ho2 Hb2].
  rewrite count_for_app, count_for_cons, <- Hsame, Z.eqb_refl in Ho2, Hb2.
  cbn [andb] in Ho2, Hb2.
  set (c1 := count_for legal_record (Balls.inning_id r1) pre) in *.
  set (cm := count_for legal_record (Balls.inning_id r1) mid) in *.
  assert (Hc1 : 0 <= c1) by apply count_for_nonneg.
  assert (Hcm : 0 <= cm) by apply count_for_nonneg.
  set (d := if legal_record r1 then 1 else 0) in *.
  pose proof (Z.div_mod c1 6) as D1.
  pose proof (Z.div_mod (c1 + (d + cm)) 6) as D2.
  pose proof (Z.mod_pos_bound c1 6) as M1.
  pose proof (Z.mod_pos_bound (c1 + (d + cm)) 6) as M2.
  rewrite Ho1, Hb1, Ho2, Hb2.
  assert (Hd : 0 <= d) by (unfold d; destruct (legal_record r1); lia).
  split; [lia|]. intros Hl. unfold d in *. rewrite Hl in *. lia.
Qed.

(** X6. In every database reached from an empty one, the totals of each
    innings row can be recomputed from its delivery records:
    [total_wickets] is the number of records flagged as wickets; a
    [total_runs] that is an exact integer is the sum of their runs, and
    an exact [extras] the sum of the runs of the records flagged as
    extras.  Both are exact whenever the run values recorded for the
    innings are not negative and their sum fits a signed 64-bit
    integer. *)
Theorem innings_totals_from_records rs n :
  In n (innings (serve rs empty_db)) ->
  Innings.total_wickets n
  = sum_where (fun r => ball_in (Innings.id n) r && Balls.is_wicket r)
      (fun _ => 1) (balls (serve rs empty_db)) /\
  (forall t, Innings.total_runs n = Exact t ->
     t = sum_where (ball_in (Innings.id n)) Balls.runs
           (balls (serve rs empty_db))) /\
  (forall e, Innings.extras n = Exact e ->
     e = sum_where (fun r => ball_in (Innings.id n) r && Balls.is_extra r)
           Balls.runs (balls (serve rs empty_db))) /\
  ((forall r, In r (balls (serve rs empty_db)) ->
      Balls.inning_id r = Innings.id n -> 0 <= Balls.runs r) ->
   fits_int64 (sum_where (ball_in (Innings.id n)) Balls.runs
                 (balls (serve rs empty_db))) = true ->
   Innings.total_runs n
   = Exact (sum_where (ball_in (Innings.id n)) Balls.runs
              (balls (serve rs empty_db))) /\
   Innings.extras n
   = Exact (sum_where
              (fun r => ball_in (Innings.id n) r && Balls.is_extra r)
              Balls.runs (balls (serve rs empty_db)))).
Proof.
  intros Hn.
  destruct (reachable_scorebook rs) as (_ & _ & _ & _ & _ & H & _).
  destruct (H n Hn) as (Ht & He & Hw).
  split; [exact Hw|]. split; [exact Ht|]. split; [exact He|].
  intros Hnn Hfit. apply (reachable_totals_exact rs n Hn); [|exact Hfit].
  intros r Hr Hin. apply (Hnn r Hr). unfold ball_in in Hin.
  now apply Z.eqb_eq.
Qed.

(** X7. In every database reached from an empty one, the batting card of
    an innings adds up: the balls faced by its batsmen are the innings'
    [total_balls], and, as long as every run total of the database is
    still an exact integer, the runs of its batsmen plus the extras are
    the innings' [total_runs]. *)
Theorem batting_card_adds_up rs n :
  In n (innings (serve rs empty_db)) ->
  Innings.total_balls n
  = sum_where (batsman_in (Innings.id n)) Batsmen.balls
      (batsmen (serve rs empty_db)) /\
  (runs_exact (serve rs empty_db) ->
   exists t e,
     Innings.total_runs n = Exact t /\ Innings.extras n = Exact e /\
     t = sum_where (batsman_in (Innings.id n))
           (fun b => value (Batsmen.runs b)) (batsmen (serve rs empty_db))
         + e).
Proof.
  intros Hn.
  destruct (reachable_scorebook rs)
    as (_ & _ & _ & _ & _ & _ & [[H _] Hr] & _).
  destruct (H n Hn) as [Hb _]. split; [now rewrite <- Hb|].
  intros Hex. destruct (Hr Hex n Hn) as [Hsum _].
  destruct Hex as (Xn & _). destruct (Xn n Hn) as [X1 X2].
  destruct (Innings.total_runs n) as [t|]; [|now contradiction X1].
  destruct (Innings.extras n) as [e|]; [|now contradiction X2].
  exists t, e. split; [reflexivity|]. split; [reflexivity|exact Hsum].
Qed.

(** X8. In every database reached from an empty one, the bowling card of
    an innings adds up: the balls bowled and the wickets of its bowlers
    are the innings' [total_balls] and [total_wickets], and, as long as
    every run total of the database is still an exact integer, the runs
    given by its bowlers are the innings' [total_runs]. *)
Theorem bowling_card_adds_up rs n :
  In n (innings (serve rs empty_db)) ->
  Innings.total_balls n
  = sum_where (bowler_in (Innings.id n)) Bowlers.balls
      (bowlers (serve rs empty_db)) /\
  Innings.total_wickets n
  = sum_where (bowler_in (Innings.id n)) Bowlers.wickets
      (bowlers (serve rs empty_db)) /\
  (runs_exact (serve rs empty_db) ->
   exists t,
     Innings.total_runs n = Exact t /\
     t = sum_where (bowler_in (Innings.id n))
           (fun w => value (Bowlers.runs_given w))
           (bowlers (serve rs empty_db))).
Proof.
  intros Hn.
  destruct (reachable_scorebook rs)
    as (_ & _ & _ & _ & _ & _ & [[H _] Hr] & _).
  destruct (H n Hn) as [_ Hw]. unfold bowling_tallies in Hw.
  injection Hw as Hw1 Hw2. split; [now rewrite <- Hw1|].
  split; [now rewrite <- Hw2|].
  intros Hex. destruct (Hr Hex n Hn) as [_ Hsum].
  destruct Hex as (Xn & _). destruct (Xn n Hn) as [X1 _].
  destruct (Innings.total_runs n) as [t|]; [|now contradiction X1].
  exists t. split; [reflexivity|exact Hsum].
Qed.

(** X9. In every database reached from an empty one: a bowler's [overs]
    is the bowler's [balls] divided by six, rounded down, [balls] and
    [wickets] are never negative, and [maidens] is still 0 (no handler
    writes it); a batsman's fours and sixes together never exceed the
    balls faced, and a batsman who is not out has no [out_type]. *)
Theorem participant_figures_sound rs :
  (forall b, In b (batsmen (serve rs empty_db)) ->
     0 <= Batsmen.fours b /\ 0 <= Batsmen.sixes b /\
     Batsmen.fours b + Batsmen.sixes b <= Batsmen.balls b /\
     (Batsmen.is_out b = false -> Batsmen.out_type b = None)) /\
  (forall w, In w (bowlers (serve rs empty_db)) ->
     0 <= Bowlers.balls w /\ 0 <= Bowlers.wickets w /\
     Bowlers.overs w = Bowlers.balls w / 6 /\
     Bowlers.maidens w = 0).
Proof.
  destruct (reachable_scorebook rs) as (_ & _ & _ & _ & _ & _ & _ & H).
  exact H.
Qed.

(** * Errors and edge cases of the other handlers *)


Lemma fetchone_insert_fresh {A : Type} (q : A -> bool) (x : A) (t : list A) :
  (forall r, In r t -> q r = false) -> q x = true ->
  fetchone q (insert x t) = Some x.
Proof.
  unfold fetchone, insert. intros Hold Hx.
  induction t as [|r t IH]; cbn [app find].
  - now rewrite Hx.
  - rewrite (Hold r) by now left. apply IH. intros r' Hr'. apply Hold.
    now right.
Qed.




(** X12. [add_ball] on an innings id that has a striker and a current
    bowler registered but no innings row (participants can be registered
    under any id) does not answer 404 or 400: reading [total_balls] of the
    missing row raises a [TypeError], and nothing is written. *)
Theorem add_ball_on_missing_inning db i ball s w :
  striker_of i db = Some s -> current_bowler_of i db = Some w ->
  inning_of i db = None ->
  add_ball i ball db = (db, Raised TypeError).
Proof.
  unfold striker_of, current_bowler_of, inning_of. intros Hs Hw Hn.
  cbv beta iota delta [add_ball bind query raise]. now rewrite Hn, Hs, Hw.
Qed.

(** X13. No request is half done: when [create_match], [add_ball],
    [toggle_striker] or [next_inning] raise, the database is exactly the
    one they were given.  [create_match] raises only when the number of
    overs does not fit a signed 64-bit integer, and then an
    OverflowError; a delivery whose run value does not fit always ends
    in an exception. *)
Theorem raising_requests_write_nothing db :
  (forall mc e,
     snd (create_match mc db) = Raised e ->
     fst (create_match mc db) = db /\ e = OverflowError /\
     fits_int64 (MatchCreate.overs mc) = false) /\
  (forall i ball e,
     snd (add_ball i ball db) = Raised e -> fst (add_ball i ball db) = db) /\
  (forall i ball,
     fits_int64 (BallUpdate.runs ball) = false ->
     exists e, add_ball i ball db = (db, Raised e)) /\
  (forall k e,
     snd (toggle_striker k db) = Raised e -> fst (toggle_striker k db) = db) /\
  (forall k e,
     snd (next_inning k db) = Raised e -> fst (next_inning k db) = db).
Proof.
  repeat apply conj.
  - intros mc e H. destruct (fits_int64 (MatchCreate.overs mc)) eqn:Hfit.
    + rewrite (create_match_returns db mc Hfit) in H. discriminate.
    + rewrite (create_match_refused db mc Hfit) in H |- *.
      injection H as <-. auto.
  - intros i ball e H.
    destruct (charged_rows i db) as [[[s w] n]|] eqn:E.
    + destruct (fits_int64 (BallUpdate.runs ball)) eqn:Hacc.
      * rewrite (add_ball_returned db i ball s w n E Hacc) in H.
        discriminate.
      * now rewrite (add_ball_refused db i ball s w n E Hacc).
    + destruct (add_ball_raises db i ball E) as [e' ->]. reflexivity.
  - intros i ball Hacc.
    destruct (charged_rows i db) as [[[s w] n]|] eqn:E.
    + exists OverflowError. exact (add_ball_refused db i ball s w n E Hacc).
    + destruct (add_ball_raises db i ball E) as [e' ->]. now exists e'.
  - intros k e. cbv beta iota delta [toggle_striker bind query raise].
    destruct (fetchone (batsman_has_id k) (batsmen db)); [discriminate|].
    reflexivity.
  - intros k e. cbv beta iota delta [next_inning bind query raise].
    destruct (fetchone (match_has_id k) (matches db)) as [m|]; [|reflexivity].
    destruct (2 <=? Matches.current_inning m); [reflexivity|discriminate].
Qed.

(** X14. What a handler inserts can be looked up under the id it was
    given, in any database, when the integers of the request fit a
    signed 64-bit integer: the match and the first innings of
    [create_match] (the match under the id the handler returns), the
    batsman of [add_batsman] and the bowler of [add_bowler].  With a
    number of overs that does not fit, [create_match] raises an
    OverflowError and inserts nothing. *)
Theorem inserted_rows_are_found db :
  (forall mc,
     fits_int64 (MatchCreate.overs mc) = true ->
     let id := lastrowid (map Matches.id (matches db)) in
     snd (create_match mc db) = Returned (id, "Match created successfully") /\
     match_of id (handle (CreateMatch mc) db)
     = Some (Matches.mk id (MatchCreate.team1 mc) (MatchCreate.team2 mc)
               (MatchCreate.overs mc) 1 "in_progress" None) /\
     inning_of (lastrowid (map Innings.id (innings db)))
       (handle (CreateMatch mc) db)
     = Some (Innings.mk (lastrowid (map Innings.id (innings db))) id 1
               (MatchCreate.team1 mc) (MatchCreate.team2 mc)
               (Exact 0) 0 0 (Exact 0)) /\
     List.length (matches (handle (CreateMatch mc) db))
     = S (List.length (matches db)) /\
     List.length (innings (handle (CreateMatch mc) db))
     = S (List.length (innings db))) /\
  (forall mc,
     fits_int64 (MatchCreate.overs mc) = false ->
     create_match mc db = (db, Raised OverflowError)) /\
  (forall i bc,
     fits_int64 i = true ->
     batsman_of (lastrowid (map Batsmen.id (batsmen db)))
       (handle (AddBatsman i bc) db)
     = Some (Batsmen.mk (lastrowid (map Batsmen.id (batsmen db))) i
               (BatsmanCreate.name bc) (Exact 0) 0 0 0 false None
               (BatsmanCreate.is_striker bc))) /\
  (forall i bc,
     fits_int64 i = true ->
     fetchone (bowler_has_id (lastrowid (map Bowlers.id (bowlers db))))
       (bowlers (handle (AddBowler i bc) db))
     = Some (Bowlers.mk (lastrowid (map Bowlers.id (bowlers db))) i
               (BowlerCreate.name bc) 0 0 (Exact 0) 0 0 true)).
Proof.
  split; [|split; [|split]].
  - intros mc Hfit id.
    split; [now rewrite (create_match_returns db mc Hfit)|].
    rewrite (create_match_accepted db mc Hfit). unfold match_of, inning_of.
    cbn [matches innings]. split; [|split; [|split]].
    + apply fetchone_insert_fresh.
      * intros r Hr. apply Z.eqb_neq. intros E.
        apply (lastrowid_fresh (map Matches.id (matches db))).
        fold id. rewrite <- E. now apply in_map.
      * apply Z.eqb_refl.
    + apply fetchone_insert_fresh.
      * intros r Hr. apply Z.eqb_neq. intros E.
        apply (lastrowid_fresh (map Innings.id (innings db))).
        rewrite <- E. now apply in_map.
      * apply Z.eqb_refl.
    + unfold insert. rewrite length_app. cbn [List.length]. lia.
    + unfold insert. rewrite length_app. cbn [List.length]. lia.
  - intros mc Hfit. now apply create_match_refused.
  - intros i bc _. destruct (add_batsman_tables db i bc) as [flags ->].
    unfold batsman_of. cbn [batsmen].
    change (Batsmen.mk (lastrowid (map Batsmen.id (batsmen db))) i
              (BatsmanCreate.name bc) (Exact 0) 0 0 0 false None
              (BatsmanCreate.is_striker bc))
      with (new_batsman db i bc).
    apply fetchone_insert_fresh.
    + intros r Hr. apply in_map_iff in Hr. destruct Hr as (r0 & <- & Hr0).
      apply Z.eqb_neq. intros E.
      apply (lastrowid_fresh (map Batsmen.id (batsmen db))).
      cbn [Batsmen.set_is_striker Batsmen.id] in E.
      rewrite <- E. now apply (in_map Batsmen.id).
    + apply Z.eqb_refl.
  - intros i bc _. destruct (add_bowler_tables db i bc) as [flags ->].
    cbn [bowlers].
    change (Bowlers.mk (lastrowid (map Bowlers.id (bowlers db))) i
              (BowlerCreate.name bc) 0 0 (Exact 0) 0 0 true)
      with (new_bowler db i bc).
    apply fetchone_insert_fresh.
    + intros r Hr. apply in_map_iff in Hr. destruct Hr as (r0 & <- & Hr0).
      apply Z.eqb_neq. intros E.
      apply (lastrowid_fresh (map Bowlers.id (bowlers db))).
      cbn [Bowlers.set_is_current Bowlers.id] in E.
      rewrite <- E. now apply (in_map Bowlers.id).
    + apply Z.eqb_refl.
Qed.

(** * Rows persist *)

Section RowsEvolve.

Context {A : Type}.
Variable R : A -> A -> Prop.

Lemma rows_evolve_map_insert (g : A -> A) (extra t : list A) :
  (forall a, R a (g a)) -> rows_evolve R t (map g t ++ extra).
Proof.
  intros Hg k a Hk. exists (g a). split; [|apply Hg].
  rewrite nth_error_app1.
  - rewrite nth_error_map, Hk. reflexivity.
  - rewrite length_map. apply nth_error_Some. congruence.
Qed.

Lemma rows_evolve_map (g : A -> A) (t : list A) :
  (forall a, R a (g a)) -> rows_evolve R t (map g t).
Proof.
  intros Hg. rewrite <- (app_nil_r (map g t)).
  now apply rows_evolve_map_insert.
Qed.

Lemma rows_evolve_same (t : list A) :
  (forall a, R a a) -> rows_evolve R t t.
Proof.
  intros Hr. rewrite <- (map_id t) at 2. now apply rows_evolve_map.
Qed.

Lemma rows_evolve_insert (x : A) (t : list A) :
  (forall a, R a a) -> rows_evolve R t (insert x t).
Proof.
  intros Hr. unfold insert. rewrite <- (map_id t) at 2.
  now apply rows_evolve_map_insert.
Qed.

Lemma rows_evolve_update_in (w : A -> bool) (f : A -> A) (t : list A) :
  (forall a, R a a) ->
  (forall a, In a t -> w a = true -> R a (f a)) ->
  rows_evolve R t (update w f t).
Proof.
  intros Hr Hf k a Hk. exists (if w a then f a else a).
  unfold update. rewrite nth_error_map, Hk. split; [reflexivity|].
  destruct (w a) eqn:E; [|apply Hr]. apply Hf; [|exact E].
  now apply nth_error_In with k.
Qed.

Lemma rows_evolve_trans (t u v : list A) :
  (forall a b c, R a b -> R b c -> R a c) ->
  rows_evolve R t u -> rows_evolve R u v -> rows_evolve R t v.
Proof.
  intros Ht H1 H2 k a Hk.
  destruct (H1 k a Hk) as (b & Hb & Rab).
  destruct (H2 k b Hb) as (c & Hc & Rbc). eauto.
Qed.

End RowsEvolve.

Lemma match_evolves_refl m : match_evolves m m.
Proof. unfold match_evolves. repeat split; auto; lia. Qed.
Lemma inning_evolves_refl n : inning_evolves n n.
Proof. unfold inning_evolves. repeat split; lia. Qed.
Lemma batsman_evolves_refl b : batsman_evolves b b.
Proof. unfold batsman_evolves. repeat split; auto; lia. Qed.
Lemma bowler_evolves_refl w : bowler_evolves w w.
Proof. unfold bowler_evolves. repeat split; lia. Qed.

Lemma match_evolves_trans a b c :
  match_evolves a b -> match_evolves b c -> match_evolves a c.
Proof.
  unfold match_evolves. intros (? & ? & ? & ? & ? & ?) (? & ? & ? & ? & ? & ?).
  repeat split; try congruence; try lia; auto.
Qed.
Lemma inning_evolves_trans a b c :
  inning_evolves a b -> inning_evolves b c -> inning_evolves a c.
Proof.
  unfold inning_evolves. intros (? & ? & ? & ? & ?) (? & ? & ? & ? & ?).
  repeat split; try congruence; lia.
Qed.
Lemma batsman_evolves_trans a b c :
  batsman_evolves a b -> batsman_evolves b c -> batsman_evolves a c.
Proof.
  unfold batsman_evolves.
  intros (? & ? & ? & ? & ? & ? & ?) (? & ? & ? & ? & ? & ? & ?).
  repeat split; try congruence; try lia; auto.
Qed.
Lemma bowler_evolves_trans a b c :
  bowler_evolves a b -> bowler_evolves b c -> bowler_evolves a c.
Proof.
  unfold bowler_evolves. intros (? & ? & ? & ? & ?) (? & ? & ? & ? & ?).
  repeat split; try congruence; lia.
Qed.

Lemma evolves_refl db : evolves db db.
Proof.
  repeat apply conj; apply rows_evolve_same;
    auto using match_evolves_refl, inning_evolves_refl,
      batsman_evolves_refl, bowler_evolves_refl.
Qed.

Lemma evolves_trans a b c : evolves a b -> evolves b c -> evolves a c.
Proof.
  intros (M1 & I1 & B1 & W1 & L1) (M2 & I2 & B2 & W2 & L2).
  repeat apply conj; eapply rows_evolve_trans; eauto.
  - apply match_evolves_trans.
  - apply inning_evolves_trans.
  - apply batsman_evolves_trans.
  - apply bowler_evolves_trans.
  - intros; congruence.
Qed.

Lemma striker_flag_evolves v b :
  batsman_evolves b (Batsmen.set_is_striker v b).
Proof. unfold batsman_evolves. cbn. repeat split; auto; lia. Qed.

Lemma current_flag_evolves v w :
  bowler_evolves w (Bowlers.set_is_current v w).
Proof. unfold bowler_evolves. cbn. repeat split; lia. Qed.

Lemma striker_row_after_evolves ball b :
  batsman_evolves b (striker_row_after ball b).
Proof.
  unfold batsman_evolves.
  destruct (striker_row_after_key ball b) as (-> & -> & _).
  rewrite striker_balls_after, striker_fours_after, striker_sixes_after.
  assert (Hn : Batsmen.name (striker_row_after ball b) = Batsmen.name b)
    by (by_cases_on ball).
  assert (Ho : Batsmen.is_out b = true ->
               Batsmen.is_out (striker_row_after ball b) = true).
  { unfold striker_row_after.
    destruct (legal_delivery ball), (negb (BallUpdate.is_extra ball)),
      (BallUpdate.runs ball =? 4), (BallUpdate.runs ball =? 6),
      (BallUpdate.is_wicket ball); cbn; auto. }
  repeat split; auto;
    repeat match goal with
           | |- context [if ?c then _ else _] => destruct c
           end; lia.
Qed.

Lemma bowler_row_after_evolves ball k w :
  bowler_evolves w (bowler_row_after ball k w).
Proof.
  unfold bowler_evolves.
  destruct (bowler_row_after_key ball k w) as (-> & -> & _).
  rewrite bowler_balls_after, bowler_wickets_after.
  assert (Hn : Bowlers.name (bowler_row_after ball k w) = Bowlers.name w)
    by (by_cases_on ball).
  repeat split; auto;
    repeat match goal with
           | |- context [if ?c then _ else _] => destruct c
           end; lia.
Qed.

Lemma inning_row_after_evolves ball n :
  inning_evolves n (inning_row_after ball n).
Proof.
  unfold inning_evolves. rewrite inning_row_after_key.
  destruct (inning_row_after_card ball n) as [-> ->].
  rewrite inning_total_balls_after.
  assert (Ewk : Innings.total_wickets (inning_row_after ball n)
                = Innings.total_wickets n
                  + (if BallUpdate.is_wicket ball then 1 else 0))
    by (by_cases_on ball).
  rewrite Ewk.
  repeat split; auto;
    repeat match goal with
           | |- context [if ?c then _ else _] => destruct c
           end; lia.
Qed.

Lemma handle_evolves q db : primary_keys db -> evolves db (handle q db).
Proof.
  intros (Hkm & _). apply ids_consecutive_NoDup in Hkm.
  destruct q as [mc|i bc|i bc|i ball|k|k|k wn].
  - destruct (create_match_tables db mc) as [->| ->];
      [apply evolves_refl|].
    repeat apply conj; cbn [matches innings batsmen bowlers balls];
      try apply rows_evolve_insert; try apply rows_evolve_same;
      auto using match_evolves_refl, inning_evolves_refl,
        batsman_evolves_refl, bowler_evolves_refl.
  - destruct (add_batsman_tables db i bc) as [flags ->].
    repeat apply conj; cbn [matches innings batsmen bowlers balls];
      try (apply rows_evolve_map_insert; intros; apply striker_flag_evolves);
      try apply rows_evolve_same;
      auto using match_evolves_refl, inning_evolves_refl,
        bowler_evolves_refl.
  - destruct (add_bowler_tables db i bc) as [flags ->].
    repeat apply conj; cbn [matches innings batsmen bowlers balls];
      try (apply rows_evolve_map_insert; intros; apply current_flag_evolves);
      try apply rows_evolve_same;
      auto using match_evolves_refl, inning_evolves_refl,
        batsman_evolves_refl.
  - destruct (add_ball_tables db i ball) as [->|(s & w & n & _ & ->)];
      [apply evolves_refl|].
    repeat apply conj; cbn [matches innings batsmen bowlers balls].
    + apply rows_evolve_same, match_evolves_refl.
    + apply rows_evolve_update_in;
        auto using inning_evolves_refl, inning_row_after_evolves.
    + apply rows_evolve_update_in;
        auto using batsman_evolves_refl, striker_row_after_evolves.
    + apply rows_evolve_update_in;
        auto using bowler_evolves_refl, bowler_row_after_evolves.
    + now apply rows_evolve_insert.
  - destruct (toggle_striker_tables db k) as [flags ->].
    repeat apply conj; cbn [matches innings batsmen bowlers balls];
      try (apply rows_evolve_map; intros; apply striker_flag_evolves);
      try apply rows_evolve_same;
      auto using match_evolves_refl, inning_evolves_refl,
        bowler_evolves_refl.
  - destruct (next_inning_tables db k) as [->|(m & Hm & Hlt & ->)];
      [apply evolves_refl|].
    repeat apply conj; cbn [matches innings batsmen bowlers balls];
      try apply rows_evolve_insert; try apply rows_evolve_same;
      auto using inning_evolves_refl, batsman_evolves_refl,
        bowler_evolves_refl.
    apply rows_evolve_update_in; [apply match_evolves_refl|].
    intros a Ha Hid. unfold match_of, match_has_id in *.
    apply Z.eqb_eq in Hid.
    rewrite (fetchone_unique Matches.id k _ m Hkm Hm a Ha Hid).
    unfold match_evolves. cbn. repeat split; auto; lia.
  - rewrite complete_match_tables.
    repeat apply conj; cbn [matches innings batsmen bowlers balls];
      try apply rows_evolve_same;
      auto using inning_evolves_refl, batsman_evolves_refl,
        bowler_evolves_refl.
    apply rows_evolve_update_in; [apply match_evolves_refl|].
    intros a _ _. unfold match_evolves. cbn. repeat split; auto; lia.
Qed.

Lemma serve_evolves rs : forall db,
  primary_keys db -> evolves db (serve rs db).
Proof.
  induction rs as [|q rs IH]; intros db H; [apply evolves_refl|].
  rewrite serve_cons. apply evolves_trans with (handle q db).
  - now apply handle_evolves.
  - apply IH. now apply handle_primary_keys.
Qed.

Lemma serve_app rs1 rs2 db :
  serve (rs1 ++ rs2) db = serve rs2 (serve rs1 db).
Proof. unfold serve. apply fold_left_app. Qed.

Lemma reachable_evolves rs1 rs2 :
  evolves (serve rs1 empty_db) (serve (rs1 ++ rs2) empty_db).
Proof.
  rewrite serve_app. apply serve_evolves.
  apply serve_primary_keys, empty_db_primary_keys.
Qed.

Lemma handle_balls q db :
  balls (handle q db) = balls db \/
  exists r, balls (handle q db) = insert r (balls db).
Proof.
  pose proof (ledger_untouched q db) as Hu.
  destruct q as [mc|i bc|i bc|i ball|k|k|k wn]; try (left; apply Hu).
  - left. apply create_match_participants.
  - destruct (add_ball_tables db i ball) as [->|(s & w & n & _ & ->)];
      [now left|]. right. eexists. reflexivity.
  - destruct (next_inning_tables db k) as [->|(m & _ & _ & ->)]; now left.
Qed.

(** X15. The delivery records are an append-only log: whatever requests
    are served afterwards, on any database, a record stays at its place
    with every column as it was written. *)
Theorem delivery_log_is_append_only rs : forall db k r,
  nth_error (balls db) k = Some r ->
  nth_error (balls (serve rs db)) k = Some r.
Proof.
  induction rs as [|q rs IH]; intros db k r H; [exact H|].
  rewrite serve_cons. apply IH.
  destruct (handle_balls q db) as [->|[x ->]]; [exact H|].
  unfold insert. rewrite nth_error_app1; [exact H|].
  apply nth_error_Some. congruence.
Qed.

(** X16. As more requests are served, a batsman or bowler row is never
    removed or moved, keeps its id, innings and name, and its tallies
    (balls, fours, sixes; balls, wickets) never go down; a batsman who is
    out stays out. *)
Theorem batsmen_and_bowlers_persist rs1 rs2 k :
  (forall b,
     nth_error (batsmen (serve rs1 empty_db)) k = Some b ->
     exists b',
       nth_error (batsmen (serve (rs1 ++ rs2) empty_db)) k = Some b' /\
       Batsmen.id b' = Batsmen.id b /\
       Batsmen.inning_id b' = Batsmen.inning_id b /\
       Batsmen.name b' = Batsmen.name b /\
       Batsmen.balls b <= Batsmen.balls b' /\
       Batsmen.fours b <= Batsmen.fours b' /\
       Batsmen.sixes b <= Batsmen.sixes b' /\
       (Batsmen.is_out b = true -> Batsmen.is_out b' = true)) /\
  (forall w,
     nth_error (bowlers (serve rs1 empty_db)) k = Some w ->
     exists w',
       nth_error (bowlers (serve (rs1 ++ rs2) empty_db)) k = Some w' /\
       Bowlers.id w' = Bowlers.id w /\
       Bowlers.inning_id w' = Bowlers.inning_id w /\
       Bowlers.name w' = Bowlers.name w /\
       Bowlers.balls w <= Bowlers.balls w' /\
       Bowlers.wickets w <= Bowlers.wickets w').
Proof.
  destruct (reachable_evolves rs1 rs2) as (_ & _ & Hb & Hw & _).
  split; [intros b H; apply (Hb k b H)|intros w H; apply (Hw k w H)].
Qed.

(** X17. As more requests are served, a match row keeps its id, teams and
    overs, its [current_inning] never goes back and a completed match
    stays completed; an innings row keeps its id, match, number and
    teams, and its [total_balls] and [total_wickets] never go down. *)
Theorem matches_and_innings_persist rs1 rs2 k :
  (forall m,
     nth_error (matches (serve rs1 empty_db)) k = Some m ->
     exists m',
       nth_error (matches (serve (rs1 ++ rs2) empty_db)) k = Some m' /\
       Matches.id m' = Matches.id m /\
       Matches.team1 m' = Matches.team1 m /\
       Matches.team2 m' = Matches.team2 m /\
       Matches.overs m' = Matches.overs m /\
       Matches.current_inning m <= Matches.current_inning m' /\
       (Matches.status m = "completed" ->
        Matches.status m' = "completed")) /\
  (forall n,
     nth_error (innings (serve rs1 empty_db)) k = Some n ->
     exists n',
       nth_error (innings (serve (rs1 ++ rs2) empty_db)) k = Some n' /\
       Innings.id n' = Innings.id n /\
       Innings.match_id n' = Innings.match_id n /\
       inning_card n' = inning_card n /\
       Innings.total_balls n <= Innings.total_balls n' /\
       Innings.total_wickets n <= Innings.total_wickets n').
Proof.
  destruct (reachable_evolves rs1 rs2) as (Hm & Hn & _).
  split; [intros m H; apply (Hm k m H)|intros n H; apply (Hn k n H)].
Qed.

(** * Participants registered before their innings *)

Lemma fetchone_head_filter {A : Type} (q : A -> bool) (t : list A) :
  fetchone q t = hd_error (filter q t).
Proof.
  unfold fetchone. induction t as [|r t IH]; [reflexivity|].
  cbn [find filter]. destruct (q r); [reflexivity|exact IH].
Qed.

(** X18. A striker and a bowler registered under the id the next innings
    row will get -- an id no innings has yet -- are taken over by the
    innings [create_match] then creates (given a number of overs that
    fits a signed 64-bit integer): from its first delivery the new match
    is charged to them.  Nothing ties a participant to an innings but the
    number. *)
Theorem early_participants_are_adopted db bc wc mc :
  BatsmanCreate.is_striker bc = true ->
  fits_int64 (MatchCreate.overs mc) = true ->
  inning_of (lastrowid (map Innings.id (innings db))) db = None /\
  charged_rows (lastrowid (map Innings.id (innings db)))
    (serve [AddBatsman (lastrowid (map Innings.id (innings db))) bc;
            AddBowler (lastrowid (map Innings.id (innings db))) wc;
            CreateMatch mc] db)
  = Some (new_batsman db (lastrowid (map Innings.id (innings db))) bc,
          new_bowler db (lastrowid (map Innings.id (innings db))) wc,
          first_inning db mc).
Proof.
  intros Hflag Hfit. set (i := lastrowid (map Innings.id (innings db))).
  split.
  - unfold inning_of. apply fetchone_none. apply filter_none.
    intros r Hr. apply Z.eqb_neq. intros E.
    apply (lastrowid_fresh (map Innings.id (innings db))).
    fold i. rewrite <- E. now apply in_map.
  - cbn [serve fold_left].
    set (db1 := handle (AddBatsman i bc) db).
    set (db2 := handle (AddBowler i wc) db1).
    assert (Hb1 : bowlers db1 = bowlers db) by apply add_batsman_bowlers.
    assert (Hi1 : innings db1 = innings db)
      by apply (ledger_untouched (AddBatsman i bc) db).
    assert (Hm1 : matches db1 = matches db)
      by (subst db1; destruct bc as [? []]; reflexivity).
    assert (Hi2 : innings db2 = innings db1)
      by apply (ledger_untouched (AddBowler i wc) db1).
    assert (Hm2 : matches db2 = matches db1) by reflexivity.
    assert (Hs2 : batsmen db2 = batsmen db1) by reflexivity.
    rewrite (create_match_accepted db2 mc Hfit). apply charged_rows_some.
    unfold striker_of, current_bowler_of, inning_of.
    cbn [batsmen bowlers innings]. split; [|split].
    + rewrite fetchone_head_filter, Hs2.
      fold (strikers_in i db1). unfold db1.
      rewrite add_batsman_strikers, Hflag, Z.eqb_refl. reflexivity.
    + rewrite fetchone_head_filter.
      fold (current_bowlers_in i db2). unfold db2.
      rewrite add_bowler_current, Z.eqb_refl. cbn [hd_error].
      unfold new_bowler. now rewrite Hb1.
    + unfold first_inning. rewrite Hi2, Hi1, Hm2, Hm1.
      apply fetchone_insert_fresh.
      * intros r Hr. apply Z.eqb_neq. intros E.
        apply (lastrowid_fresh (map Innings.id (innings db))).
        fold i. rewrite <- E. now apply in_map.
      * apply Z.eqb_refl.
Qed.

(** * Reading a match back *)

Lemma for_each_reads {A B : Type} (body : A -> Handler B)
  (g : DB -> A -> B) (l : list A) (db : DB) :
  (forall x, body x db = (db, Returned (g db x))) ->
  for_each l body db = (db, Returned (map (g db) l)).
Proof.
  intros H. induction l as [|x l IH]; [reflexivity|].
  cbn [for_each map]. unfold bind at 1. rewrite H.
  unfold bind at 1. rewrite IH. reflexivity.
Qed.

Lemma get_match_returns order_innings order_balls k db m :
  match_of k db = Some m ->
  get_match order_innings order_balls k db
  = (db, Returned
           (MatchView.mk m
              (map (inning_view order_balls db)
                 (order_innings (innings_of_match k db))))).
Proof.
  unfold match_of. intros H.
  cbv beta iota delta [get_match query]. unfold bind at 1. rewrite H.
  unfold bind at 1. unfold bind at 1.
  rewrite (for_each_reads _ (inning_view order_balls)); reflexivity.
Qed.

Lemma sum_where_filter {A : Type} (p : A -> bool) (f : A -> Z) (t : list A) :
  sum_where p f t = sum_all f (filter p t).
Proof.
  unfold sum_all, sum_where. induction t as [|r t IH]; [reflexivity|].
  cbn [fold_right filter]. destruct (p r); cbn [fold_right]; lia.
Qed.

Lemma sum_all_permutation {A : Type} (f : A -> Z) (l l' : list A) :
  Permutation l l' -> sum_all f l = sum_all f l'.
Proof.
  unfold sum_all, sum_where.
  induction 1; cbn [fold_right]; try lia.
Qed.

Lemma cards_in_order (l l' : list Innings.row) c1 c2 :
  Permutation l' l ->
  Sorted (fun a b => Innings.inning_number a <= Innings.inning_number b) l' ->
  (map inning_card l = [c1] ->
   map inning_card l' = [c1]) /\
  (map inning_card l = [c1; c2] -> fst (fst c1) < fst (fst c2) ->
   map inning_card l' = [c1; c2]).
Proof.
  intros Hp Hs. split.
  - intros H. destruct l as [|a [|b l]]; try discriminate.
    apply Permutation_sym, Permutation_length_1_inv in Hp. now subst.
  - intros H Hlt. destruct l as [|a [|b [|c l]]]; try discriminate.
    apply Permutation_sym, Permutation_length_2_inv in Hp.
    destruct Hp as [->| ->]; [exact H|].
    exfalso. injection H as <- <-.
    apply Sorted_inv in Hs. destruct Hs as [_ Hh].
    apply HdRel_inv in Hh. unfold inning_card in Hlt. cbn in Hlt. lia.
Qed.

Section GetMatch.

Variable order_innings : list Innings.row -> list Innings.row.
Variable order_balls : list Balls.row -> list Balls.row.

Hypothesis order_innings_perm : forall l, Permutation (order_innings l) l.
Hypothesis order_innings_sorted : forall l,
  Sorted (fun a b => Innings.inning_number a <= Innings.inning_number b)
    (order_innings l).
Hypothesis order_balls_perm : forall l, Permutation (order_balls l) l.


(** X20. On a database reached from an empty one, [get_match] on a match
    returns that match with its innings in playing order -- the first
    innings alone, or the first and then the second with the teams
    swapped -- and for each innings a card that adds up: its batsmen and
    bowlers are those registered under its id; its delivery records are
    exactly those of the innings, in whatever order ties are broken, and
    a [total_runs] that is an exact integer is the sum of their runs; as
    long as every run total of the database is an exact integer, the
    batsmen's runs plus the extras, and the bowlers' runs given, are the
    innings' [total_runs] as well. *)
Theorem get_match_returns_a_sound_scorecard rs m :
  In m (matches (serve rs empty_db)) ->
  exists views,
    get_match order_innings order_balls (Matches.id m) (serve rs empty_db)
    = (serve rs empty_db, Returned (MatchView.mk m views)) /\
    (map (fun v => inning_card (InningView.inning v)) views
     = [(1, Matches.team1 m, Matches.team2 m)] \/
     map (fun v => inning_card (InningView.inning v)) views
     = [(1, Matches.team1 m, Matches.team2 m);
        (2, Matches.team2 m, Matches.team1 m)]) /\
    (forall v, In v views ->
       In (InningView.inning v) (innings (serve rs empty_db)) /\
       Innings.match_id (InningView.inning v) = Matches.id m /\
       InningView.batsmen v
       = filter (batsman_in (Innings.id (InningView.inning v)))
           (batsmen (serve rs empty_db)) /\
       InningView.bowlers v
       = filter (bowler_in (Innings.id (InningView.inning v)))
           (bowlers (serve rs empty_db)) /\
       Permutation (InningView.balls v)
         (filter (ball_in (Innings.id (InningView.inning v)))
            (balls (serve rs empty_db))) /\
       (forall t, Innings.total_runs (InningView.inning v) = Exact t ->
          t = sum_all Balls.runs (InningView.balls v)) /\
       (runs_exact (serve rs empty_db) ->
        exists t e,
          Innings.total_runs (InningView.inning v) = Exact t /\
          Innings.extras (InningView.inning v) = Exact e /\
          t = sum_all (fun b => value (Batsmen.runs b))
                (InningView.batsmen v) + e /\
          t = sum_all (fun w => value (Bowlers.runs_given w))
                (InningView.bowlers v))).
Proof.
  intros Hm. set (db := serve rs empty_db) in *.
  destruct (reachable_scorebook rs)
    as ((Hkm & _) & _ & [_ Hcards] & _ & _ & Hrec & [_ Hsum] & _).
  fold db in Hkm, Hcards, Hrec, Hsum.
  apply ids_consecutive_NoDup in Hkm.
  assert (Hfound : match_of (Matches.id m) db = Some m).
  { unfold match_of, match_has_id.
    destruct (fetchone (fun r => Matches.id r =? Matches.id m) (matches db))
      as [m'|] eqn:E.
    - f_equal. symmetry.
      apply (fetchone_unique Matches.id (Matches.id m) _ m' Hkm E m Hm).
      reflexivity.
    - unfold fetchone in E. pose proof (find_none _ _ E m Hm) as Hn.
      cbn beta in Hn. rewrite Z.eqb_refl in Hn. discriminate. }
  exists (map (inning_view order_balls db)
            (order_innings (innings_of_match (Matches.id m) db))).
  split; [now apply get_match_returns|]. split.
  - rewrite map_map. cbn [inning_view InningView.inning].
    change (map (fun x => inning_card x) ?l) with (map inning_card l).
    destruct (cards_in_order (innings_of_match (Matches.id m) db)
                (order_innings (innings_of_match (Matches.id m) db))
                (1, Matches.team1 m, Matches.team2 m)
                (2, Matches.team2 m, Matches.team1 m)
                (order_innings_perm _) (order_innings_sorted _))
      as [H1 H2].
    destruct (Hcards m Hm) as [[_ Hc]|[_ Hc]].
    + left. now apply H1.
    + right. apply H2; [exact Hc|]. cbn. lia.
  - intros v Hv. apply in_map_iff in Hv. destruct Hv as (n & <- & Hn).
    apply (Permutation_in _ (order_innings_perm _)) in Hn.
    unfold innings_of_match in Hn. apply filter_In in Hn.
    destruct Hn as [Hn Hmid]. apply Z.eqb_eq in Hmid.
    cbn [inning_view InningView.inning InningView.batsmen
         InningView.bowlers InningView.balls].
    destruct (Hrec n Hn) as (Hruns & _).
    rewrite <- !sum_where_filter.
    rewrite (sum_all_permutation Balls.runs _ _ (order_balls_perm _)).
    rewrite <- sum_where_filter.
    split; [exact Hn|]. split; [exact Hmid|].
    split; [reflexivity|]. split; [reflexivity|].
    split; [apply order_balls_perm|]. split; [exact Hruns|].
    intros Hex. destruct (Hsum Hex n Hn) as [Hbat Hbowl].
    destruct Hex as (Xn & _). destruct (Xn n Hn) as [X1 X2].
    unfold batting_runs in Hbat. unfold bowling_runs in Hbowl.
    destruct (Innings.total_runs n) as [t|]; [|now contradiction X1].
    destruct (Innings.extras n) as [e|]; [|now contradiction X2].
    exists t, e. repeat split; assumption.
Qed.

End GetMatch.

(** The example ORDER BY is one. *)
Lemma insert_sorted_perm {A : Type} (leb : A -> A -> bool) x l :
  Permutation (insert_sorted leb x l) (x :: l).
Proof.
  induction l as [|y l IH]; cbn [insert_sorted]; [reflexivity|].
  destruct (leb x y); [reflexivity|].
  rewrite IH. apply perm_swap.
Qed.

Lemma order_by_perm {A : Type} (leb : A -> A -> bool) l :
  Permutation (order_by leb l) l.
Proof.
  unfold order_by. induction l as [|x l IH]; cbn [fold_right]; [reflexivity|].
  rewrite insert_sorted_perm. now constructor.
Qed.

Lemma order_by_inning_number_sorted l :
  Sorted (fun a b => Innings.inning_number a <= Innings.inning_number b)
    (order_by by_inning_number l).
Proof.
  unfold order_by. induction l as [|x l IH]; cbn [fold_right]; [constructor|].
  revert IH. generalize (fold_right (insert_sorted by_inning_number) [] l).
  intros s Hs. induction s as [|y s IHs]; cbn [insert_sorted].
  - repeat constructor.
  - unfold by_inning_number at 1.
    destruct (Innings.inning_number x <=? Innings.inning_number y) eqn:E.
    + apply Z.leb_le in E. constructor; [exact Hs|]. now constructor.
    + apply Z.leb_gt in E. apply Sorted_inv in Hs. destruct Hs as [Hs Hh].
      constructor; [now apply IHs|].
      destruct s as [|z s]; cbn [insert_sorted].
      * constructor. lia.
      * unfold by_inning_number at 1.
        destruct (Innings.inning_number x <=? Innings.inning_number z);
          constructor; [lia|]. now apply HdRel_inv in Hh.
Qed.

(** * The further theorems on a concrete match *)

Lemma matches_have_one_or_two_innings_witness :
  In played_match (matches (serve played empty_db)) /\
  map inning_card (innings_of_match 1 (serve played empty_db))
  = [(1, "A", "B")].
Proof.
  assert (Hin : In played_match (matches (serve played empty_db)))
    by (left; reflexivity).
  split; [exact Hin|].
  destruct (matches_have_one_or_two_innings played played_match Hin)
    as [[_ H]|[H _]]; [exact H|discriminate H].
Defined.

Lemma delivery_records_refer_to_rows_witness :
  In played_wide (balls (serve played empty_db)) /\
  exists n b w,
    In n (innings (serve played empty_db)) /\ Innings.id n = 1 /\
    In b (batsmen (serve played empty_db)) /\ Batsmen.id b = 1 /\
    Batsmen.inning_id b = 1 /\
    In w (bowlers (serve played empty_db)) /\ Bowlers.id w = 1 /\
    Bowlers.inning_id w = 1.
Proof.
  assert (Hin : In played_wide (balls (serve played empty_db)))
    by (right; left; reflexivity).
  split; [exact Hin|].
  exact (delivery_records_refer_to_rows played played_wide Hin).
Defined.

Lemma delivery_address_counts_earlier_legal_balls_witness :
  balls (serve played empty_db)
  = ([played_four] ++ played_wide :: [played_leg_bye])%list /\
  count_for legal_record 1 [played_four] = 1 /\
  Balls.over_number played_wide = 1 / 6 /\
  Balls.ball_number played_wide = 1 mod 6.
Proof.
  split; [reflexivity|]. split; [reflexivity|].
  destruct (delivery_address_counts_earlier_legal_balls played
              [played_four] played_wide [played_leg_bye] eq_refl)
    as (Ho & Hb & _).
  split; [exact Ho|exact Hb].
Defined.

Lemma delivery_records_in_address_order_witness :
  balls (serve played empty_db)
  = ([] ++ played_four :: [played_wide] ++ played_leg_bye :: [])%list /\
  Balls.inning_id played_four = Balls.inning_id played_leg_bye /\
  legal_record played_four = true /\
  (Balls.over_number played_four < Balls.over_number played_leg_bye \/
   (Balls.over_number played_four = Balls.over_number played_leg_bye /\
    Balls.ball_number played_four < Balls.ball_number played_leg_bye)).
Proof.
  split; [reflexivity|]. split; [reflexivity|]. split; [reflexivity|].
  exact (proj2 (delivery_records_in_address_order played
                  [] played_four [played_wide] played_leg_bye []
                  eq_refl eq_refl) eq_refl).
Defined.

Lemma played_runs_exact : runs_exact (serve played empty_db).
Proof.
  unfold runs_exact.
  change (innings (serve played empty_db)) with [played_inning].
  change (batsmen (serve played empty_db)) with [played_batsman].
  change (bowlers (serve played empty_db)) with [played_bowler].
  split; [|split].
  - intros n [<-|[]]. split; discriminate.
  - intros b [<-|[]]. discriminate.
  - intros w [<-|[]]. discriminate.
Qed.

Lemma innings_totals_from_records_witness :
  In played_inning (innings (serve played empty_db)) /\
  fits_int64
    (sum_where (ball_in 1) Balls.runs (balls (serve played empty_db)))
  = true /\
  Innings.total_runs played_inning = Exact 6 /\
  Innings.extras played_inning = Exact 2 /\
  1 = sum_where (fun r => ball_in 1 r && Balls.is_wicket r) (fun _ => 1)
        (balls (serve played empty_db)).
Proof.
  assert (Hin : In played_inning (innings (serve played empty_db)))
    by (left; reflexivity).
  split; [exact Hin|]. split; [reflexivity|].
  destruct (innings_totals_from_records played played_inning Hin)
    as (Hw & _ & _ & Hexact).
  destruct Hexact as [Ht He]; [|reflexivity|].
  - intros r Hr _.
    change (balls (serve played empty_db))
      with [played_four; played_wide; played_leg_bye] in Hr.
    destruct Hr as [<-|[<-|[<-|[]]]]; cbn; lia.
  - split; [exact Ht|]. split; [exact He|exact Hw].
Defined.

Lemma batting_card_adds_up_witness :
  In played_inning (innings (serve played empty_db)) /\
  2 = sum_where (batsman_in 1) Batsmen.balls
        (batsmen (serve played empty_db)) /\
  exists t e,
    Innings.total_runs played_inning = Exact t /\
    Innings.extras played_inning = Exact e /\
    t = sum_where (batsman_in 1) (fun b => value (Batsmen.runs b))
          (batsmen (serve played empty_db)) + e.
Proof.
  assert (Hin : In played_inning (innings (serve played empty_db)))
    by (left; reflexivity).
  split; [exact Hin|].
  destruct (batting_card_adds_up played played_inning Hin) as [Hb Hr].
  split; [exact Hb|exact (Hr played_runs_exact)].
Defined.

Lemma bowling_card_adds_up_witness :
  In played_inning (innings (serve played empty_db)) /\
  2 = sum_where (bowler_in 1) Bowlers.balls
        (bowlers (serve played empty_db)) /\
  1 = sum_where (bowler_in 1) Bowlers.wickets
        (bowlers (serve played empty_db)) /\
  exists t,
    Innings.total_runs played_inning = Exact t /\
    t = sum_where (bowler_in 1) (fun w => value (Bowlers.runs_given w))
          (bowlers (serve played empty_db)).
Proof.
  assert (Hin : In played_inning (innings (serve played empty_db)))
    by (left; reflexivity).
  split; [exact Hin|].
  destruct (bowling_card_adds_up played played_inning Hin) as (Hb & Hw & Hr).
  split; [exact Hb|]. split; [exact Hw|exact (Hr played_runs_exact)].
Defined.

Lemma participant_figures_sound_witness :
  In played_batsman (batsmen (serve played empty_db)) /\
  In played_bowler (bowlers (serve played empty_db)) /\
  Batsmen.fours played_batsman + Batsmen.sixes played_batsman
  <= Batsmen.balls played_batsman /\
  Bowlers.overs played_bowler = Bowlers.balls played_bowler / 6.
Proof.
  assert (Hb : In played_batsman (batsmen (serve played empty_db)))
    by (left; reflexivity).
  assert (Hw : In played_bowler (bowlers (serve played empty_db)))
    by (left; reflexivity).
  split; [exact Hb|]. split; [exact Hw|].
  destruct (participant_figures_sound played) as [Hbat Hbowl].
  destruct (Hbat _ Hb) as (_ & _ & H & _).
  destruct (Hbowl _ Hw) as (_ & _ & Ho & _).
  split; [exact H|exact Ho].
Defined.



Lemma add_ball_on_missing_inning_witness :
  striker_of 7 stray_db
  = Some (Batsmen.mk 1 7 "X" (Exact 0) 0 0 0 false None true) /\
  current_bowler_of 7 stray_db
  = Some (Bowlers.mk 1 7 "Y" 0 0 (Exact 0) 0 0 true) /\
  inning_of 7 stray_db = None /\
  add_ball 7 four_runs stray_db = (stray_db, Raised TypeError).
Proof.
  split; [reflexivity|]. split; [reflexivity|]. split; [reflexivity|].
  exact (add_ball_on_missing_inning stray_db 7 four_runs _ _
           eq_refl eq_refl eq_refl).
Defined.

Lemma raising_requests_write_nothing_witness :
  snd (create_match (MatchCreate.mk "A" "B" 9223372036854775808) ready_db)
  = Raised OverflowError /\
  fst (create_match (MatchCreate.mk "A" "B" 9223372036854775808) ready_db)
  = ready_db /\
  snd (add_ball 7 four_runs stray_db) = Raised TypeError /\
  fst (add_ball 7 four_runs stray_db) = stray_db /\
  fits_int64 (BallUpdate.runs beyond_int64) = false /\
  (exists e, add_ball 1 beyond_int64 ready_db = (ready_db, Raised e)) /\
  snd (next_inning 1 (serve (opening ++ [NextInning 1]) empty_db))
  = Raised (HTTPException 400 "Match already has 2 innings") /\
  fst (next_inning 1 (serve (opening ++ [NextInning 1]) empty_db))
  = serve (opening ++ [NextInning 1]) empty_db.
Proof.
  split; [reflexivity|].
  split; [exact (proj1 (proj1 (raising_requests_write_nothing ready_db)
                          (MatchCreate.mk "A" "B" 9223372036854775808)
                          OverflowError eq_refl))|].
  split; [reflexivity|].
  split; [exact (proj1 (proj2 (raising_requests_write_nothing stray_db))
                   7 four_runs TypeError eq_refl)|].
  split; [reflexivity|].
  split; [exact (proj1 (proj2 (proj2 (raising_requests_write_nothing
                                        ready_db)))
                   1 beyond_int64 eq_refl)|].
  split; [reflexivity|].
  exact (proj2 (proj2 (proj2 (proj2
           (raising_requests_write_nothing
              (serve (opening ++ [NextInning 1]) empty_db)))))
           1 (HTTPException 400 "Match already has 2 innings") eq_refl).
Defined.

Lemma inserted_rows_are_found_witness :
  fits_int64 (MatchCreate.overs (MatchCreate.mk "A" "B" 20)) = true /\
  create_match (MatchCreate.mk "C" "D" 9223372036854775808) ready_db
  = (ready_db, Raised OverflowError) /\
  snd (create_match (MatchCreate.mk "A" "B" 20) empty_db)
  = Returned (1, "Match created successfully") /\
  match_of 1 (handle (CreateMatch (MatchCreate.mk "A" "B" 20)) empty_db)
  = Some played_match /\
  inning_of 1 (handle (CreateMatch (MatchCreate.mk "A" "B" 20)) empty_db)
  = Some ready_inning /\
  batsman_of 2 (handle (AddBatsman 1 (BatsmanCreate.mk "Z" false)) ready_db)
  = Some (Batsmen.mk 2 1 "Z" (Exact 0) 0 0 0 false None false).
Proof.
  split; [reflexivity|].
  destruct (inserted_rows_are_found ready_db) as (_ & Hrefused & Hbat & _).
  split; [exact (Hrefused (MatchCreate.mk "C" "D" 9223372036854775808)
                   eq_refl)|].
  destruct (proj1 (inserted_rows_are_found empty_db)
              (MatchCreate.mk "A" "B" 20) eq_refl)
    as (Hret & Hm & Hn & _).
  split; [exact Hret|]. split; [exact Hm|]. split; [exact Hn|].
  exact (Hbat 1 (BatsmanCreate.mk "Z" false) eq_refl).
Defined.

Lemma delivery_log_is_append_only_witness :
  nth_error (balls (serve played empty_db)) 1 = Some played_wide /\
  nth_error
    (balls (serve [AddBall 1 four_runs; CompleteMatch 1 "A"; NextInning 1]
              (serve played empty_db))) 1
  = Some played_wide.
Proof.
  split; [reflexivity|].
  exact (delivery_log_is_append_only
           [AddBall 1 four_runs; CompleteMatch 1 "A"; NextInning 1]
           (serve played empty_db) 1 played_wide eq_refl).
Defined.

Lemma batsmen_and_bowlers_persist_witness :
  nth_error (batsmen (serve played empty_db)) 0 = Some played_batsman /\
  Batsmen.is_out played_batsman = true /\
  exists b',
    nth_error
      (batsmen (serve (played ++ [AddBall 1 four_runs; ToggleStriker 1])
                  empty_db)) 0 = Some b' /\
    Batsmen.id b' = 1 /\ Batsmen.is_out b' = true /\
    Batsmen.balls played_batsman <= Batsmen.balls b'.
Proof.
  split; [reflexivity|]. split; [reflexivity|].
  destruct (proj1 (batsmen_and_bowlers_persist played
                     [AddBall 1 four_runs; ToggleStriker 1] 0)
              played_batsman eq_refl)
    as (b' & Hb' & Hid & _ & _ & Hballs & _ & _ & Hout).
  exists b'. split; [exact Hb'|]. split; [exact Hid|].
  split; [exact (Hout eq_refl)|exact Hballs].
Defined.

Lemma matches_and_innings_persist_witness :
  nth_error (matches (serve played empty_db)) 0 = Some played_match /\
  exists m',
    nth_error
      (matches (serve (played ++ [NextInning 1; CompleteMatch 1 "B"])
                  empty_db)) 0 = Some m' /\
    Matches.team1 m' = "A" /\ Matches.team2 m' = "B" /\
    1 <= Matches.current_inning m'.
Proof.
  split; [reflexivity|].
  destruct (proj1 (matches_and_innings_persist played
                     [NextInning 1; CompleteMatch 1 "B"] 0)
              played_match eq_refl)
    as (m' & Hm' & _ & H1 & H2 & _ & Hc & _).
  exists m'. split; [exact Hm'|]. split; [exact H1|].
  split; [exact H2|exact Hc].
Defined.

Lemma early_participants_are_adopted_witness :
  BatsmanCreate.is_striker (BatsmanCreate.mk "X" true) = true /\
  fits_int64 (MatchCreate.overs (MatchCreate.mk "A" "B" 20)) = true /\
  inning_of 1 empty_db = None /\
  charged_rows 1
    (serve [AddBatsman 1 (BatsmanCreate.mk "X" true);
            AddBowler 1 (BowlerCreate.mk "Y");
            CreateMatch (MatchCreate.mk "A" "B" 20)] empty_db)
  = Some (ready_striker, ready_bowler, ready_inning).
Proof.
  split; [reflexivity|]. split; [reflexivity|].
  exact (early_participants_are_adopted empty_db
           (BatsmanCreate.mk "X" true) (BowlerCreate.mk "Y")
           (MatchCreate.mk "A" "B" 20) eq_refl eq_refl).
Defined.


Lemma get_match_returns_a_sound_scorecard_witness :
  In played_match (matches (serve played empty_db)) /\
  exists views,
    get_match (order_by by_inning_number) (order_by by_over_and_ball) 1
      (serve played empty_db)
    = (serve played empty_db, Returned (MatchView.mk played_match views)) /\
    (forall v, In v views ->
       exists t e,
         Innings.total_runs (InningView.inning v) = Exact t /\
         Innings.extras (InningView.inning v) = Exact e /\
         t = sum_all (fun b => value (Batsmen.runs b))
               (InningView.batsmen v) + e /\
         t = sum_all (fun w => value (Bowlers.runs_given w))
               (InningView.bowlers v)).
Proof.
  assert (Hin : In played_match (matches (serve played empty_db)))
    by (left; reflexivity).
  split; [exact Hin|].
  destruct (get_match_returns_a_sound_scorecard
              (order_by by_inning_number) (order_by by_over_and_ball)
              (order_by_perm by_inning_number) order_by_inning_number_sorted
              (order_by_perm by_over_and_ball) played played_match Hin)
    as (views & Hget & _ & Hall).
  exists views. split; [exact Hget|].
  intros v Hv. destruct (Hall v Hv) as (_ & _ & _ & _ & _ & _ & H).
  exact (H played_runs_exact).
Defined.
